(** * BotHunter VK parser: the traversal-and-convergence engine

    A shallow embedding of [BotHunterVKParser] (TypeScript, Playwright) and
    the properties of its readiness poller, retry controller, pagination
    traversal, target enumerators and artifact naming.

    Conventions of the embedding:
    - a JavaScript string is the list of its UTF-16 code units;
    - the browser page, [Math.random] and the local calendar are an
      abstract host ([Host]); every call on the page may change it;
    - [Date.now()] is a virtual clock in milliseconds that timers advance
      by their duration; evaluating something in the page takes no time;
    - [async] methods are state transformers that return a value, throw,
      or run out of the fuel that bounds their loops. *)

From Stdlib Require Import List ZArith NArith Lia Bool String Ascii.
Import ListNotations.

Set Implicit Arguments.

(* ================================================================== *)
(** ** JavaScript strings *)

Module JS.

(** A string is its sequence of UTF-16 code units. *)
Definition jsstring := list N.

Fixpoint str_eqb (a b : jsstring) : bool :=
  match a, b with
  | [], [] => true
  | x :: a', y :: b' => N.eqb x y && str_eqb a' b'
  | _, _ => false
  end.

Definition str_eq_dec (a b : jsstring) : {a = b} + {a <> b} :=
  list_eq_dec N.eq_dec a b.

(** *** Literals: the code units of a UTF-8 source literal *)

Definition units_of_codepoint (c : N) : list N :=
  if (c <? 65536)%N then [c]
  else [(55296 + (c - 65536) / 1024)%N; (56320 + (c - 65536) mod 1024)%N].

Fixpoint utf8_units (bs : list N) (need : nat) (acc : N) : list N :=
  match bs with
  | [] => []
  | b :: r =>
      match need with
      | O =>
          if (b <? 128)%N then b :: utf8_units r 0 0%N
          else if (b <? 224)%N then utf8_units r 1 (b - 192)%N
          else if (b <? 240)%N then utf8_units r 2 (b - 224)%N
          else utf8_units r 3 (b - 240)%N
      | S O => units_of_codepoint (acc * 64 + (b - 128))%N ++ utf8_units r 0 0%N
      | S n => utf8_units r n (acc * 64 + (b - 128))%N
      end
  end.

Fixpoint bytes_of (s : string) : list N :=
  match s with
  | EmptyString => []
  | String c r => N_of_ascii c :: bytes_of r
  end.

Definition js (s : string) : jsstring := utf8_units (bytes_of s) 0 0%N.

(** *** Truthiness, prefix, search *)

(** A string is falsy exactly when it is empty. *)
Definition truthy (s : jsstring) : bool :=
  match s with [] => false | _ => true end.

(** [a || b] on strings. *)
Definition or_else (a b : jsstring) : jsstring := if truthy a then a else b.

Fixpoint starts_with (p s : jsstring) : bool :=
  match p, s with
  | [], _ => true
  | x :: p', y :: s' => N.eqb x y && starts_with p' s'
  | _ :: _, [] => false
  end.

(** [s.includes(sub)] *)
Fixpoint includes (s sub : jsstring) : bool :=
  starts_with sub s ||
  match s with
  | [] => false
  | _ :: s' => includes s' sub
  end.

(** [s.replace(pat, rep)] for a string pattern and a replacement without
    dollar patterns: the first occurrence only. *)
Fixpoint replace_first (pat rep s : jsstring) : jsstring :=
  if starts_with pat s then rep ++ skipn (List.length pat) s
  else match s with
       | [] => []
       | c :: s' => c :: replace_first pat rep s'
       end.

(** [parts.join(sep)] *)
Fixpoint join (sep : jsstring) (parts : list jsstring) : jsstring :=
  match parts with
  | [] => []
  | [p] => p
  | p :: rest => p ++ sep ++ join sep rest
  end.

(** [s.slice(a, b)] for [0 <= a <= b]. *)
Definition slice (a b : nat) (s : jsstring) : jsstring :=
  firstn (b - a) (skipn a s).

(** *** White space ([\s] of a regular expression, and [trim]) *)

Definition is_space (c : N) : bool :=
  ((9 <=? c) && (c <=? 13) || (c =? 32) || (c =? 160) || (c =? 5760)
   || (8192 <=? c) && (c <=? 8202) || (c =? 8232) || (c =? 8233)
   || (c =? 8239) || (c =? 8287) || (c =? 12288) || (c =? 65279))%N.

Fixpoint trim_start (s : jsstring) : jsstring :=
  match s with
  | c :: s' => if is_space c then trim_start s' else s
  | [] => []
  end.

Definition trim_end (s : jsstring) : jsstring := rev (trim_start (rev s)).

Definition trim (s : jsstring) : jsstring := trim_end (trim_start s).

(** [s.split('\n')] *)
Fixpoint split_lines_aux (cur : jsstring) (s : jsstring) : list jsstring :=
  match s with
  | [] => [rev cur]
  | c :: s' =>
      if (c =? 10)%N then rev cur :: split_lines_aux [] s'
      else split_lines_aux (c :: cur) s'
  end.

Definition split_lines (s : jsstring) : list jsstring := split_lines_aux [] s.

(** [String(n)] for an integer. *)
Fixpoint digits_of (fuel : nat) (n : N) (acc : jsstring) : jsstring :=
  match fuel with
  | O => acc
  | S f =>
      let acc' := (48 + n mod 10)%N :: acc in
      if (n <? 10)%N then acc' else digits_of f (n / 10)%N acc'
  end.

Definition string_of_N (n : N) : jsstring := digits_of (S (N.to_nat (N.log2 n))) n [].

Definition string_of_Z (z : Z) : jsstring :=
  if (z <? 0)%Z then 45%N :: string_of_N (Z.to_N (- z)) else string_of_N (Z.to_N z).

(** [s.padStart(2, '0')] *)
Definition padStart2 (s : jsstring) : jsstring :=
  match s with
  | [] => [48; 48]%N
  | [c] => [48%N; c]
  | _ => s
  end.

End JS.

Import JS.

(* ================================================================== *)
(** ** What the JavaScript runtime supplies *)

(** Built-ins whose tables are not part of the program. *)
Class Runtime := {
  (** [String.prototype.toLowerCase] *)
  toLowerCase : jsstring -> jsstring;
  (** [String.prototype.normalize('NFKD')] *)
  normalizeNFKD : jsstring -> jsstring;
  (** [path.dirname] and [path.join] of Node *)
  path_dirname : jsstring -> jsstring;
  path_join : jsstring -> jsstring -> jsstring;
  (** [JSON.stringify(result, null, 2)] of a ParseResult, built from the
      community, the identifiers, their number and [Date.now()] *)
  stringify_result :
    option (jsstring * jsstring * jsstring) -> list jsstring -> nat -> Z -> jsstring
}.

(** [new Set<string>()]: membership by value, iteration in insertion order. *)
Module JsSet.
Definition t := list jsstring.
Definition empty : t := [].
Definition has (x : jsstring) (s : t) : bool := existsb (str_eqb x) s.
Definition add (x : jsstring) (s : t) : t := if has x s then s else s ++ [x].
Definition add_all (xs : list jsstring) (s : t) : t :=
  fold_left (fun acc x => add x acc) xs s.
Definition of_array (xs : list jsstring) : t := add_all xs empty.
Definition to_array (s : t) : list jsstring := s.
End JsSet.

(** An object literal [{}] used as a map from string keys to [true].
    Reading a key finds the properties the object inherits from
    [Object.prototype] as well, and all of those are truthy. *)
Module JsObject.
Definition t := list jsstring.
Definition empty : t := [].

(** The names of the properties of [Object.prototype]. *)
Definition prototype_keys : list jsstring :=
  map js ["constructor"; "__defineGetter__"; "__defineSetter__";
          "hasOwnProperty"; "__lookupGetter__"; "__lookupSetter__";
          "isPrototypeOf"; "propertyIsEnumerable"; "toString"; "valueOf";
          "__proto__"; "toLocaleString"]%string.

Definition inherited (k : jsstring) : bool :=
  existsb (str_eqb k) prototype_keys.

(** Is [o[k]] truthy. *)
Definition get_truthy (k : jsstring) (o : t) : bool :=
  existsb (str_eqb k) o || inherited k.

(** [o[k] = true]; assigning a primitive to [__proto__] is ignored. *)
Definition set_true (k : jsstring) (o : t) : t :=
  if str_eqb k (js "__proto__") then o
  else if existsb (str_eqb k) o then o else o ++ [k].
End JsObject.

(* ================================================================== *)
(** ** Target enumeration (the functions evaluated in the page) *)

Section Enumeration.
Context {RT : Runtime}.

Definition quote : N := 39%N.

Fixpoint take_not_quote (s : jsstring) : jsstring * jsstring :=
  match s with
  | [] => ([], [])
  | c :: s' =>
      if (c =? quote)%N then ([], s)
      else let (run, rest) := take_not_quote s' in (c :: run, rest)
  end.

(** Match of [pre([^']+)post] anchored at the head of [s], where [post]
    starts with a quote: the captured group. *)
Definition match_at (pre post s : jsstring) : option jsstring :=
  if starts_with pre s then
    let (run, rest) := take_not_quote (skipn (List.length pre) s) in
    if truthy run && starts_with post rest then Some run else None
  else None.

(** [s.match(/pre([^']+)post/)?.[1]]: the leftmost match. *)
Fixpoint match_quoted (pre post s : jsstring) : option jsstring :=
  match match_at pre post s with
  | Some run => Some run
  | None =>
      match s with
      | [] => None
      | _ :: s' => match_quoted pre post s'
      end
  end.

(** [o || d] where [o] is a string or [undefined]. *)
Definition opt_or (o : option jsstring) (d : jsstring) : jsstring :=
  match o with
  | Some s => or_else s d
  | None => d
  end.

(** [text.split('\n').map(s => s.trim()).filter(Boolean)] *)
Definition text_lines (text : jsstring) : list jsstring :=
  filter truthy (map trim (split_lines text)).

(** [/^#/.test(s)] *)
Definition starts_hash (s : jsstring) : bool :=
  match s with
  | c :: _ => (c =? 35)%N
  | [] => false
  end.

(** [(lines.find(s => !/^#/.test(s)) || lines[0] || '').trim()] *)
Definition pick_group_name (text : jsstring) : jsstring :=
  let lines := text_lines text in
  trim (opt_or (find (fun s => negb (starts_hash s)) lines)
               (opt_or (hd_error lines) [])).

(** An anchor [a[onclick*="change_group_with_channel"]] of the groups page. *)
Record GroupAnchor := {
  ga_onclick : option jsstring;        (* getAttribute('onclick') *)
  ga_nameCandidate : option jsstring;  (* textContent of 'div div div div' *)
  ga_text : jsstring                   (* a.textContent *)
}.

Record GroupItem := { g_id : jsstring; g_name : jsstring }.

(** The key of a group: the first argument of the inline handler. *)
Definition group_key (a : GroupAnchor) : jsstring :=
  let onclick := opt_or (ga_onclick a) [] in
  opt_or (match_quoted (js "change_group_with_channel('") (js "'") onclick) [].

Definition group_name (a : GroupAnchor) : jsstring :=
  let name :=
    match ga_nameCandidate a with
    | Some t => if truthy t then pick_group_name t else []
    | None => []
    end in
  if negb (truthy name) && truthy (ga_text a)
  then pick_group_name (ga_text a) else name.

(** The body of [anchors.forEach] in parseGroupsMode and parseNewSubsMode. *)
Definition group_step (st : list GroupItem * JsSet.t) (a : GroupAnchor)
  : list GroupItem * JsSet.t :=
  let (items, seen) := st in
  let id := group_key a in
  if negb (truthy id) || JsSet.has id seen then st
  else (items ++ [{| g_id := id; g_name := group_name a |}], JsSet.add id seen).

Definition enumerate_groups (anchors : list GroupAnchor) : list GroupItem :=
  fst (fold_left group_step anchors ([], JsSet.empty)).

(** The item an anchor stands for, and whether the anchor carries a key. *)
Definition group_item (a : GroupAnchor) : GroupItem :=
  {| g_id := group_key a; g_name := group_name a |}.

Definition has_group_key (a : GroupAnchor) : bool := truthy (group_key a).

(** An anchor [a.link-dark-primary[onclick*="/contacts/lists/"]]. *)
Record ListAnchor := {
  la_onclick : option jsstring;
  la_h5 : option jsstring;             (* textContent of the h5, if any *)
  la_text : jsstring
}.

Record ListItem := { l_name : jsstring; l_href : jsstring }.

Definition list_href (a : ListAnchor) : jsstring :=
  let onclick := opt_or (la_onclick a) [] in
  opt_or (match_quoted (js "nav('") (js "')") onclick) [].

Definition list_name (a : ListAnchor) : jsstring :=
  let name :=
    match la_h5 a with
    | Some t => if truthy t then trim t else []
    | None => []
    end in
  if negb (truthy name) && truthy (la_text a)
  then opt_or (hd_error (text_lines (la_text a))) [] else name.

(** [anchors.forEach(...)] of parseListsMode: the candidate items. *)
Definition list_items (anchors : list ListAnchor) : list ListItem :=
  flat_map (fun a =>
              let href := list_href a in
              let name := list_name a in
              if truthy name && truthy href
              then [{| l_name := name; l_href := href |}] else [])
           anchors.

Definition list_dedupe_key (it : ListItem) : jsstring := toLowerCase (l_name it).

(** [items.filter(it => { if (seen[key]) return false; seen[key] = true;
    return true; })] with [seen = {}]. *)
Fixpoint dedupe_lists (seen : JsObject.t) (items : list ListItem) : list ListItem :=
  match items with
  | [] => []
  | it :: rest =>
      let key := list_dedupe_key it in
      if JsObject.get_truthy key seen then dedupe_lists seen rest
      else it :: dedupe_lists (JsObject.set_true key seen) rest
  end.

Definition enumerate_lists (anchors : list ListAnchor) : list ListItem :=
  dedupe_lists JsObject.empty (list_items anchors).

(** *** List filtering *)

Definition defaultKeywords : list jsstring :=
  map js ["в работе"; "отказ"; "одобрен"; "клик по офферу";
          "клик по оффер"; "клик"]%string.

(** [config.listFilters && config.listFilters.length > 0
      ? config.listFilters.map(s => s.toLowerCase()) : defaultKeywords] *)
Definition list_filters (listFilters : option (list jsstring)) : list jsstring :=
  match listFilters with
  | Some fs =>
      if (0 <? List.length fs)%nat then map toLowerCase fs else defaultKeywords
  | None => defaultKeywords
  end.

Definition list_matches (filters : list jsstring) (l : ListItem) : bool :=
  let low := toLowerCase (l_name l) in
  existsb (fun f => includes low f) filters.

(** [targetLists] of parseListsMode. *)
Definition target_lists (listFilters : option (list jsstring))
           (allLists : list ListItem) : list ListItem :=
  let filters := list_filters listFilters in
  let targetLists := filter (list_matches filters) allLists in
  if (List.length targetLists =? 0)%nat then allLists else targetLists.

End Enumeration.

(** The specification's reading of an enumeration: each key once, in the
    order of its first occurrence. *)
Fixpoint first_by {A : Type} (key : A -> jsstring) (l : list A) : list A :=
  match l with
  | [] => []
  | x :: r => x :: filter (fun y => negb (str_eqb (key y) (key x))) (first_by key r)
  end.

(* ================================================================== *)
(** ** Artifact names *)

Section Naming.
Context {RT : Runtime}.

(** The class of [u+0300] to [u+036f], the combining diacritical marks. *)
Definition is_combining_mark (c : N) : bool := ((768 <=? c) && (c <=? 879))%N.

(** [/[a-zA-Z0-9А-Яа-я_\-]/]: the units a slug is made of. *)
Definition slug_unit (c : N) : bool :=
  ((97 <=? c) && (c <=? 122) || (65 <=? c) && (c <=? 90)
   || (48 <=? c) && (c <=? 57)
   || (1040 <=? c) && (c <=? 1071) || (1072 <=? c) && (c <=? 1103)
   || (c =? 95) || (c =? 45))%N.

(** [/[a-zA-Z0-9А-Яа-я_\-\s]/] *)
Definition slug_keeps (c : N) : bool := slug_unit c || is_space c.

(** [s.replace(/\s+/g, '_')]: [in_run] tells that the unit before was
    white space, already replaced. *)
Fixpoint collapse_from (in_run : bool) (s : jsstring) : jsstring :=
  match s with
  | [] => []
  | c :: s' =>
      if is_space c
      then (if in_run then collapse_from true s'
            else 95%N :: collapse_from true s')
      else c :: collapse_from false s'
  end.

Definition collapse_spaces (s : jsstring) : jsstring := collapse_from false s.

(** [slugify(v, max = 40)] *)
Definition slugify (v : jsstring) (max : nat) : jsstring :=
  or_else
    (slice 0 max
       (collapse_spaces
          (trim
             (filter slug_keeps
                (filter (fun c => negb (is_combining_mark c))
                   (normalizeNFKD (or_else v (js "item"))))))))
    (js "item").

(** The fields of a [Date] in local time. *)
Record DateFields := {
  getDate : N; getMonth : N; getFullYear : Z;
  getHours : N; getMinutes : N; getSeconds : N
}.

(** A date of the calendar, in a year of four digits. *)
Definition calendar (d : DateFields) : Prop :=
  (getDate d <= 31)%N /\ (getMonth d <= 11)%N
  /\ (1000 <= getFullYear d <= 9999)%Z
  /\ (getHours d <= 23)%N /\ (getMinutes d <= 59)%N /\ (getSeconds d <= 59)%N.

(** [pad = n => String(n).padStart(2, '0')] *)
Definition pad (n : N) : jsstring := padStart2 (string_of_N n).

(** [formatTimestampForFilename(d)]: ddMMyyyyHHmmss *)
Definition formatTimestampForFilename (d : DateFields) : jsstring :=
  pad (getDate d) ++ pad (getMonth d + 1) ++ string_of_Z (getFullYear d)
  ++ pad (getHours d) ++ pad (getMinutes d) ++ pad (getSeconds d).

(** [randomHash(len)], given [Math.random().toString(36)]. *)
Definition randomHash (random36 : jsstring) (len : nat) : jsstring :=
  slice 2 (2 + len) random36.

(** [fileName] of writeIdsFile. *)
Definition ids_file_name (d : DateFields) (random36 label : jsstring) : jsstring :=
  js "bothunter_ids_" ++ formatTimestampForFilename d ++ js "_"
  ++ slugify label 40 ++ js "_" ++ randomHash random36 6 ++ js ".txt".

(** [config.outputFile || 'bothunter_results.json'] *)
Definition output_file (outputFile : option jsstring) : jsstring :=
  opt_or outputFile (js "bothunter_results.json").

(** [outPath] of writeIdsFile. *)
Definition ids_file_path (outputFile : option jsstring) (d : DateFields)
           (random36 label : jsstring) : jsstring :=
  path_join (path_dirname (output_file outputFile))
            (ids_file_name d random36 label).

(** [idsFile] of saveResults. *)
Definition ids_file_of (outputFile : jsstring) : jsstring :=
  replace_first (js ".json") (js "_ids.txt") outputFile.

End Naming.

(** A runtime for worked examples: case conversion on Basic Latin, Latin-1
    and the Cyrillic block, the compatibility decompositions of the Russian
    alphabet and of the no-break space, and paths kept in one directory. *)
Definition lower_unit (c : N) : N :=
  if ((65 <=? c) && (c <=? 90))%N then (c + 32)%N
  else if ((192 <=? c) && (c <=? 222) && negb (c =? 215))%N then (c + 32)%N
  else if ((1040 <=? c) && (c <=? 1071))%N then (c + 32)%N
  else if ((1024 <=? c) && (c <=? 1039))%N then (c + 80)%N
  else c.

Definition decompose_unit (c : N) : list N :=
  if (c =? 1081)%N then [1080; 774]%N          (* й *)
  else if (c =? 1049)%N then [1048; 774]%N     (* Й *)
  else if (c =? 1105)%N then [1077; 776]%N     (* ё *)
  else if (c =? 1025)%N then [1045; 776]%N     (* Ё *)
  else if (c =? 160)%N then [32]%N
  else [c].

Definition example_runtime : Runtime := {|
  toLowerCase := map lower_unit;
  normalizeNFKD := flat_map decompose_unit;
  path_dirname := fun _ => js ".";
  path_join := fun _ name => name;
  stringify_result := fun _ ids _ _ => js "{" ++ join (js ",") ids ++ js "}"
|}.

(* ================================================================== *)
(** ** The browser session and the parser's state *)

(** The selectors the engine hands to Playwright. *)
Inductive selector :=
| SelPagination   (* '#followers-list-pagination, #followers-pagination' *)
| SelNextEnabled  (* the next-page candidates that are not disabled *)
| SelNextAny      (* the next-page candidates, disabled or not *)
| SelNextSimple   (* '... .btn.btn-primary.pagination-btn:not([disabled]):not(.me-1)' *)
| SelShow.        (* 'button:has-text("Показать")', first *)

(** What the page and the runtime answer.  [None], or [false] for a call
    without a result, is a rejected promise; counting the matches of a
    locator and running a timer are taken not to reject. *)
Record Host (W : Type) := {
  h_query : selector -> W -> option bool * W;      (* page.$(sel) is not null *)
  h_count : selector -> W -> nat * W;              (* locator(sel).count() *)
  h_extract : W -> option (list jsstring) * W;     (* matches found by extractUserIds *)
  h_isDisabled : selector -> W -> option bool * W; (* handle.evaluate(btn => disabled) *)
  h_waitVisible : selector -> W -> bool * W;       (* locator.waitFor({state: 'visible'}) *)
  h_click : selector -> W -> bool * W;             (* click; [false] when it rejects *)
  h_scroll : selector -> W -> W;                   (* scrollIntoViewIfNeeded, errors dropped *)
  h_loadState : W -> bool * W;                     (* waitForLoadState('networkidle') *)
  h_timer : Z -> W -> W;                           (* the page while a timer runs *)
  h_groupAnchors : W -> option (list GroupAnchor) * W; (* the anchors of /groups *)
  h_switchGroup : jsstring -> W -> bool * W;       (* make the group current *)
  h_openGroups : W -> W;                           (* goto /groups, wait for the anchors *)
  h_openContacts : W -> W;                         (* goto /contacts, wait for its markers *)
  h_listAnchors : W -> option (list ListAnchor) * W; (* the anchors of /contacts/lists *)
  h_gotoLists : W -> bool * W;                     (* goto /contacts/lists, networkidle *)
  h_nav : jsstring -> W -> bool * W;               (* nav(href), or location.href = href *)
  h_waitPagination : W -> W;                       (* waitForSelector in try/catch *)
  h_random36 : W -> jsstring * W;                  (* Math.random().toString(36) *)
  h_randomBelow : Z -> W -> Z * W;                 (* Math.floor(Math.random() * n) *)
  h_localDate : Z -> DateFields                    (* new Date(t) in local time *)
}.

Record ParserConfig := {
  maxPages : option Z;                 (* undefined or NaN is [None] *)
  outputFile : option jsstring;
  listFilters : option (list jsstring);
  waitAfterSwitchMs : option Z
}.

(** The parser object, apart from what its methods mutate. *)
Record Parser := {
  config : ParserConfig;
  page_open : bool;                    (* this.page is not null *)
  communityData : option (jsstring * jsstring * jsstring);
  NEXT_ENABLE_WAIT_MS : option Z       (* parseInt(process.env.NEXT_ENABLE_WAIT_MS || '4000') *)
}.

Inductive LogMsg :=
| LogPage (currentPage : Z)            (* Обработка страницы N *)
| LogFound (n : nat)                   (* Найдено ID: N *)
| LogNotLoadedYet                      (* Результаты ещё не прогрузились *)
| LogNoNextButton                      (* Кнопка следующей страницы не найдена ... *)
| LogLastPage                          (* Достигнута последняя страница *)
| LogRetry (attempt retries : Z).      (* Пользователи не прогрузились, ретрай a/r *)

(** What a run does, in order.  [EvReadiness] marks the return of
    waitForAnyUsers; the other events are calls on the host. *)
Inductive Event :=
| EvQuery (sel : selector) (r : option bool)
| EvCount (sel : selector) (n : nat)
| EvExtract (r : option (list jsstring))
| EvWaitVisible (sel : selector) (ok : bool)
| EvClick (sel : selector) (ok : bool)
| EvSleep (ms : Z)
| EvReadiness (ok : bool)
| EvLog (m : LogMsg)
| EvWrite (path content : jsstring).

Record St (W : Type) := {
  world : W;
  now : Z;                             (* Date.now() *)
  userIds : JsSet.t;                   (* this.userIds *)
  files : list (jsstring * jsstring);  (* the file system, latest write first *)
  trace : list Event
}.

Inductive outcome (A : Type) :=
| Ret (a : A)
| Throw
| OutOfFuel.

Arguments Throw {A}.
Arguments OutOfFuel {A}.

(** The content of a file. *)
Fixpoint read_file (fs : list (jsstring * jsstring)) (path : jsstring) : option jsstring :=
  match fs with
  | [] => None
  | (p, c) :: rest => if str_eqb p path then Some c else read_file rest path
  end.

Section Engine.
Context {RT : Runtime} {W : Type} (H : Host W) (P : Parser).
Local Open Scope Z_scope.

Definition M (A : Type) := St W -> outcome A * St W.

Definition ret {A} (a : A) : M A := fun s => (Ret a, s).

Definition bind {A B} (m : M A) (k : A -> M B) : M B :=
  fun s =>
    match m s with
    | (Ret a, s') => k a s'
    | (Throw, s') => (Throw, s')
    | (OutOfFuel, s') => (OutOfFuel, s')
    end.

Definition throw {A} : M A := fun s => (Throw, s).
Definition out_of_fuel {A} : M A := fun s => (OutOfFuel, s).

(** [try { m } catch { h }] *)
Definition try_catch {A} (m : M A) (h : M A) : M A :=
  fun s =>
    match m s with
    | (Throw, s') => h s'
    | r => r
    end.

Notation "x <- m ;; k" := (bind m (fun x => k))
  (at level 61, m at next level, right associativity).
Notation "m ;;; k" := (bind m (fun _ => k))
  (at level 61, right associativity).

Definition emit (e : Event) : M unit :=
  fun s => (Ret tt, {| world := world s; now := now s; userIds := userIds s;
                       files := files s; trace := trace s ++ [e] |}).

Definition set_userIds (u : JsSet.t) : M unit :=
  fun s => (Ret tt, {| world := world s; now := now s; userIds := u;
                       files := files s; trace := trace s |}).

Definition get_userIds : M JsSet.t := fun s => (Ret (userIds s), s).

(** The state once the page has become [w] and [e] has been recorded. *)
Definition observed (e : Event) (w : W) (s : St W) : St W :=
  {| world := w; now := now s; userIds := userIds s; files := files s;
     trace := trace s ++ [e] |}.

(** A call on the host: its answer, and the page it leaves. *)
Definition host {A} (f : W -> A * W) : M A :=
  fun s =>
    let (a, w) := f (world s) in
    (Ret a, {| world := w; now := now s; userIds := userIds s;
               files := files s; trace := trace s |}).

(** [Date.now()] *)
Definition date_now : M Z := fun s => (Ret (now s), s).

(** The state once [ms] milliseconds have passed. *)
Definition slept (ms : Z) (s : St W) : St W :=
  {| world := h_timer H ms (world s); now := now s + ms;
     userIds := userIds s; files := files s;
     trace := trace s ++ [EvSleep ms] |}.

(** A timer of [ms] milliseconds, as [setTimeout] runs it. *)
Definition timer (ms : Z) : M unit := fun s => (Ret tt, slept ms s).

(** A method of [this.page!]: a TypeError when the page is null. *)
Definition on_page {A} (m : M A) : M A :=
  if page_open P then m else throw.

(** [this.page!.waitForTimeout(ms)] *)
Definition waitForTimeout (ms : Z) : M unit := on_page (timer ms).

(** [this.page!.waitForLoadState('networkidle').catch(() => {})] *)
Definition waitForLoadState_caught : M unit :=
  on_page (host (h_loadState H) ;;; ret tt).

(** [delay(min, max)]: a timer of
    [Math.floor(Math.random() * (max - min + 1)) + min] milliseconds. *)
Definition delay (min max : Z) : M unit :=
  k <- host (h_randomBelow H (max - min + 1)) ;;
  timer (k + min).

(** [page.$(sel)]: is there such an element. *)
Definition query (sel : selector) : M bool :=
  on_page
    (r <- host (h_query H sel) ;;
     emit (EvQuery sel r) ;;;
     match r with
     | Some b => ret b
     | None => throw
     end).

(** [page.locator(sel).count()] *)
Definition count (sel : selector) : M nat :=
  on_page
    (n <- host (h_count H sel) ;;
     emit (EvCount sel n) ;;;
     ret n).

(** [locator.click()], which rejects when [ok] is false. *)
Definition click (sel : selector) : M bool :=
  ok <- host (h_click H sel) ;;
  emit (EvClick sel ok) ;;;
  ret ok.

(** [fs.writeFileSync(path, content, 'utf-8')] *)
Definition writeFileSync (path content : jsstring) : M unit :=
  fun s =>
    (Ret tt, {| world := world s; now := now s; userIds := userIds s;
                files := (path, content) :: files s;
                trace := trace s ++ [EvWrite path content] |}).

(** [extractUserIds()]: the matches of the page, each once. *)
Definition extractUserIds : M (list jsstring) :=
  if page_open P then
    r <- host (h_extract H) ;;
    match r with
    | Some raw =>
        let ids := JsSet.to_array (JsSet.of_array raw) in
        emit (EvExtract (Some ids)) ;;; ret ids
    | None => emit (EvExtract None) ;;; throw
    end
  else throw.

(* ------------------------------------------------------------------ *)
(** ** Readiness poller *)

Record WaitOpts := {
  minStableMs : option Z;
  allowPaginationShortcut : option bool;
  requireMinCount : option Z
}.

(** [x ?? d] *)
Definition nullish {A} (x : option A) (d : A) : A :=
  match x with Some v => v | None => d end.

(** The locals of waitForAnyUsers that the loop updates. *)
Record PollState := { lastCount : Z; lastChangeTs : Z }.

(** The [try] block of one iteration: [true] when it returns [true] from
    waitForAnyUsers, with the locals as it leaves them. *)
Definition sample (allowShortcut : bool) (minStable requireMin : Z)
           (ps : PollState) : M (bool * PollState) :=
  hasPagination <- (if allowShortcut then query SelPagination else ret false) ;;
  if hasPagination then ret (true, ps)
  else
    ids <- extractUserIds ;;
    let count := Z.of_nat (List.length ids) in
    t <- date_now ;;
    let ps' := if negb (count =? lastCount ps)
               then {| lastCount := count; lastChangeTs := t |}
               else ps in
    t' <- date_now ;;
    if (requireMin <=? count) && (minStable <=? t' - lastChangeTs ps')
    then ret (true, ps')
    else ret (false, ps').

(** [while (Date.now() - start < maxWaitMs) { try {...} catch {} ; wait 500 }] *)
Fixpoint wait_loop (fuel : nat) (maxWaitMs start : Z) (allowShortcut : bool)
         (minStable requireMin : Z) (ps : PollState) : M bool :=
  match fuel with
  | O => out_of_fuel
  | S fuel' =>
      t <- date_now ;;
      if t - start <? maxWaitMs then
        r <- try_catch (sample allowShortcut minStable requireMin ps)
                       (ret (false, ps)) ;;
        if fst r then ret true
        else
          waitForTimeout 500 ;;;
          wait_loop fuel' maxWaitMs start allowShortcut minStable requireMin (snd r)
      else ret false
  end.

Definition waitForAnyUsers (fuel : nat) (maxWaitMs : Z) (opts : option WaitOpts)
  : M bool :=
  let minStable := nullish (match opts with Some o => minStableMs o | None => None end) 2000 in
  let allow := nullish (match opts with Some o => allowPaginationShortcut o | None => None end) true in
  let requireMin := nullish (match opts with Some o => requireMinCount o | None => None end) 1 in
  start <- date_now ;;
  lastChange <- date_now ;;
  ok <- wait_loop fuel maxWaitMs start allow minStable requireMin
                  {| lastCount := -1; lastChangeTs := lastChange |} ;;
  emit (EvReadiness ok) ;;;
  ret ok.

(* ------------------------------------------------------------------ *)
(** ** Retry controller *)

(** [for (let attempt = ...; attempt <= retries; attempt++) {...} return false] *)
Fixpoint retry_loop (fuel : nat) (attempt retries waitMs : Z)
         (waitOpts : option WaitOpts) (postReadyDelayMs : option Z) : M bool :=
  match fuel with
  | O => out_of_fuel
  | S fuel' =>
      if attempt <=? retries then
        visible <- on_page (host (h_waitVisible H SelShow)) ;;
        emit (EvWaitVisible SelShow visible) ;;;
        if negb visible then throw
        else
          clicked <- click SelShow ;;
          if negb clicked then throw
          else
            waitForTimeout 150 ;;;
            waitForLoadState_caught ;;;
            ok <- waitForAnyUsers fuel' waitMs waitOpts ;;
            if ok then
              waitForTimeout (nullish postReadyDelayMs 500) ;;;
              ret true
            else
              emit (EvLog (LogRetry attempt retries)) ;;;
              retry_loop fuel' (attempt + 1) retries waitMs waitOpts postReadyDelayMs
      else ret false
  end.

(** [clickShowAndWaitWithRetries(retries = 5, waitMs = 30000, waitOpts,
    postReadyDelayMs)] *)
Definition clickShowAndWaitWithRetries (fuel : nat) (retries waitMs : option Z)
           (waitOpts : option WaitOpts) (postReadyDelayMs : option Z) : M bool :=
  retry_loop fuel 1 (nullish retries 5) (nullish waitMs 30000) waitOpts
             postReadyDelayMs.

(* ------------------------------------------------------------------ *)
(** ** Pagination traversal *)

(** [a < b] where [b] may be NaN. *)
Definition lt_num (a : Z) (b : option Z) : bool :=
  match b with
  | Some b => a <? b
  | None => false
  end.

(** The loop of waitForNextPageButton: the locator of the enabled button,
    or [None] for [null]. *)
Fixpoint next_button_loop (fuel : nat) (timeoutMs : option Z) (start : Z)
  : M (option selector) :=
  match fuel with
  | O => out_of_fuel
  | S fuel' =>
      t <- date_now ;;
      if lt_num (t - start) timeoutMs then
        enabled <- count SelNextEnabled ;;
        if negb (Nat.eqb enabled 0) then ret (Some SelNextEnabled)
        else
          any <- count SelNextAny ;;
          if negb (Nat.eqb any 0) then
            waitForTimeout 500 ;;;
            next_button_loop fuel' timeoutMs start
          else
            waitForTimeout 500 ;;;
            next_button_loop fuel' timeoutMs start
      else ret None
  end.

Definition waitForNextPageButton (fuel : nat) (timeoutMs : option Z)
  : M (option selector) :=
  if page_open P then
    start <- date_now ;;
    next_button_loop fuel timeoutMs start
  else throw.

(** [this.config.maxPages || 10000] *)
Definition max_pages : Z :=
  match maxPages (config P) with
  | Some m => if m =? 0 then 10000 else m
  | None => 10000
  end.

(** [while (currentPage <= maxPages) {...}] of collectAllContactIds. *)
Fixpoint collect_loop (fuel : nat) (currentPage : Z) : M unit :=
  match fuel with
  | O => out_of_fuel
  | S fuel' =>
      if currentPage <=? max_pages then
        emit (EvLog (LogPage currentPage)) ;;;
        pageIds <- extractUserIds ;;
        emit (EvLog (LogFound (List.length pageIds))) ;;;
        u <- get_userIds ;;
        set_userIds (JsSet.add_all pageIds u) ;;;
        nextLocator <- waitForNextPageButton fuel' (NEXT_ENABLE_WAIT_MS P) ;;
        match nextLocator with
        | None => emit (EvLog LogNoNextButton) ;;; ret tt
        | Some loc =>
            host (fun w => (tt, h_scroll H loc w)) ;;;
            click loc ;;;
            waitForLoadState_caught ;;;
            delay 6000 8000 ;;;
            collect_loop fuel' (currentPage + 1)
        end
      else ret tt
  end.

(** The state once the identifiers of a page are in the accumulator. *)
Definition merged (pageIds : list jsstring) (s : St W) : St W :=
  {| world := world s; now := now s;
     userIds := JsSet.add_all pageIds (userIds s); files := files s;
     trace := trace s ++ [EvLog (LogFound (List.length pageIds))] |}.

(** The state once the next button has been clicked and the pause after
    it is over. *)
Definition advanced (loc : selector) (s : St W) : St W :=
  snd ((host (fun w => (tt, h_scroll H loc w)) ;;;
        click loc ;;;
        waitForLoadState_caught ;;;
        delay 6000 8000) s).

(** [collectAllContactIds()] *)
Definition collectAllContactIds (fuel : nat) : M (list jsstring) :=
  if page_open P then
    set_userIds JsSet.empty ;;;
    waitForLoadState_caught ;;;
    firstReady <- waitForAnyUsers fuel 20000 None ;;
    (if firstReady then ret tt
     else emit (EvLog LogNotLoadedYet) ;;; waitForTimeout 1500) ;;;
    collect_loop fuel 1 ;;;
    u <- get_userIds ;;
    ret (JsSet.to_array u)
  else throw.

(** The loop of the earlier collectAllContactIds (bothunter-vk-simple.ts). *)
Fixpoint collect_loop_simple (fuel : nat) (currentPage : Z) : M unit :=
  match fuel with
  | O => out_of_fuel
  | S fuel' =>
      if currentPage <=? max_pages then
        emit (EvLog (LogPage currentPage)) ;;;
        pageIds <- extractUserIds ;;
        emit (EvLog (LogFound (List.length pageIds))) ;;;
        u <- get_userIds ;;
        set_userIds (JsSet.add_all pageIds u) ;;;
        nextButton <- query SelNextSimple ;;
        if nextButton then
          r <- host (h_isDisabled H SelNextSimple) ;;
          match r with
          | None => throw
          | Some isDisabled =>
              if isDisabled then emit (EvLog LogLastPage) ;;; ret tt
              else
                clicked <- click SelNextSimple ;;
                if negb clicked then throw
                else
                  settled <- on_page (host (h_loadState H)) ;;
                  if negb settled then throw
                  else
                    delay 1000 2000 ;;;
                    collect_loop_simple fuel' (currentPage + 1)
          end
        else emit (EvLog LogNoNextButton) ;;; ret tt
      else ret tt
  end.

Definition collectAllContactIds_simple (fuel : nat) : M (list jsstring) :=
  if page_open P then
    set_userIds JsSet.empty ;;;
    collect_loop_simple fuel 1 ;;;
    u <- get_userIds ;;
    ret (JsSet.to_array u)
  else throw.

(* ------------------------------------------------------------------ *)
(** ** Artifact sink *)

Definition newline : jsstring := [10%N].

(** [writeIdsFile(ids, label)] *)
Definition writeIdsFile (ids : list jsstring) (label : jsstring) : M jsstring :=
  t <- date_now ;;
  random36 <- host (h_random36 H) ;;
  let outPath := ids_file_path (outputFile (config P)) (h_localDate H t)
                               random36 label in
  writeFileSync outPath (join newline (JsSet.to_array (JsSet.of_array ids))) ;;;
  ret outPath.


(* ------------------------------------------------------------------ *)
(** ** Mode: every community of the groups page *)

(** [openGroupsPage] and [openContactsPage]: navigation whose errors are
    dropped, then a short timer. *)
Definition openGroupsPage : M unit :=
  if page_open P then host (fun w => (tt, h_openGroups H w)) ;;; waitForTimeout 500
  else throw.

Definition openContactsPage : M unit :=
  if page_open P then host (fun w => (tt, h_openContacts H w)) ;;; waitForTimeout 800
  else throw.

(** The body of the loop over the groups, for each in turn. *)
Fixpoint groups_loop (fuel : nat) (groups : list GroupItem) : M unit :=
  match groups with
  | [] => ret tt
  | g :: rest =>
      switched <- host (h_switchGroup H (g_id g)) ;;
      if negb switched then throw
      else
        let waitMs := nullish (waitAfterSwitchMs (config P)) 3000 in
        delay waitMs (waitMs + 500) ;;;
        openContactsPage ;;;
        ids <- collectAllContactIds fuel ;;
        writeIdsFile ids (js "group_" ++ or_else (g_name g) (g_id g)) ;;;
        openGroupsPage ;;;
        groups_loop fuel rest
  end.

(** [parseGroupsMode()] *)
Definition parseGroupsMode (fuel : nat) : M unit :=
  if page_open P then
    openGroupsPage ;;;
    r <- host (h_groupAnchors H) ;;
    match r with
    | None => throw
    | Some anchors => groups_loop fuel (enumerate_groups anchors)
    end
  else throw.

(* ------------------------------------------------------------------ *)
(** ** Mode: the lists of the current community *)

(** The loop over [targetLists]. *)
Fixpoint lists_loop (fuel : nat) (allLists targetLists : list ListItem) : M unit :=
  match targetLists with
  | [] => ret tt
  | t :: rest =>
      let name := l_name t in
      match find (fun l => str_eqb (l_name l) name) allLists with
      | None => lists_loop fuel allLists rest
      | Some target =>
          opened <- on_page (host (h_nav H (l_href target))) ;;
          if negb opened then throw
          else
            settled <- on_page (host (h_loadState H)) ;;
            if negb settled then throw
            else
              waitForTimeout 800 ;;;
              on_page (host (fun w => (tt, h_waitPagination H w))) ;;;
              ids <- collectAllContactIds fuel ;;
              writeIdsFile ids (js "list_" ++ name) ;;;
              back <- on_page (host (h_gotoLists H)) ;;
              if negb back then throw
              else
                waitForTimeout 800 ;;;
                lists_loop fuel allLists rest
      end
  end.

(** [parseListsMode()] *)
Definition parseListsMode (fuel : nat) : M unit :=
  if page_open P then
    opened <- host (h_gotoLists H) ;;
    if negb opened then throw
    else
      waitForTimeout 500 ;;;
      r <- host (h_listAnchors H) ;;
      match r with
      | None => throw
      | Some anchors =>
          let allLists := enumerate_lists anchors in
          let targetLists := target_lists (listFilters (config P)) allLists in
          lists_loop fuel allLists targetLists
      end
  else throw.

End Engine.

(* ================================================================== *)
(** ** Two hosts for worked examples *)

(** The list of a given name. *)
Definition list_named (name : string) (href : jsstring) : ListItem :=
  {| l_name := js name; l_href := href |}.

(** A list anchor whose label is in an h5. *)
Definition list_anchor (name href : string) : ListAnchor :=
  {| la_onclick := Some (js "nav('" ++ js href ++ js "')");
     la_h5 := Some (js name);
     la_text := js name |}.

(** *** A page that changes with time only

    The page shows one frame per tick of 500 ms; clicking changes nothing. *)

Inductive NextButton := Absent | Disabled | Enabled.

Record Frame := {
  f_ids : option (list jsstring);  (* what extractUserIds finds; [None] throws *)
  f_pagination : bool;
  f_next : NextButton
}.

Record Timeline := {
  tl_time : Z;                     (* milliseconds of timers so far *)
  tl_frames : list Frame;
  tl_rest : Frame                  (* the frame after the list is used up *)
}.

Definition frame_at (w : Timeline) : Frame :=
  nth (Z.to_nat (tl_time w / 500)) (tl_frames w) (tl_rest w).

Definition example_date : DateFields :=
  {| getDate := 6; getMonth := 10; getFullYear := 2025;
     getHours := 22; getMinutes := 53; getSeconds := 1 |}.

Definition timeline_host : Host Timeline := {|
  h_query := fun sel w =>
    (match sel with
     | SelPagination => Some (f_pagination (frame_at w))
     | SelNextSimple => Some (match f_next (frame_at w) with Enabled => true | _ => false end)
     | _ => Some false
     end, w);
  h_count := fun sel w =>
    (match sel, f_next (frame_at w) with
     | SelNextEnabled, Enabled => 1
     | SelNextAny, Enabled => 1
     | SelNextAny, Disabled => 1
     | _, _ => 0
     end%nat, w);
  h_extract := fun w => (f_ids (frame_at w), w);
  h_isDisabled := fun _ w => (Some false, w);
  h_waitVisible := fun _ w => (true, w);
  h_click := fun _ w => (true, w);
  h_scroll := fun _ w => w;
  h_loadState := fun w => (true, w);
  h_timer := fun ms w =>
    {| tl_time := tl_time w + ms; tl_frames := tl_frames w; tl_rest := tl_rest w |};
  h_groupAnchors := fun w => (Some [], w);
  h_switchGroup := fun _ w => (true, w);
  h_openGroups := fun w => w;
  h_openContacts := fun w => w;
  h_listAnchors := fun w => (Some [], w);
  h_gotoLists := fun w => (true, w);
  h_nav := fun _ w => (true, w);
  h_waitPagination := fun w => w;
  h_random36 := fun w => (js "0.ab12cdxyz", w);
  h_randomBelow := fun _ w => (0%Z, w);
  h_localDate := fun _ => example_date
|}.

(** [n] identifiers: "1", ..., "n". *)
Definition ids_upto (n : nat) : list jsstring :=
  map (fun k => string_of_N (N.of_nat k)) (seq 1 n).

(** A frame with [n] identifiers, no pagination region and no next button. *)
Definition frame_count (n : nat) : Frame :=
  {| f_ids := Some (ids_upto n); f_pagination := false; f_next := Absent |}.

Definition frame_throws : Frame :=
  {| f_ids := None; f_pagination := false; f_next := Absent |}.

Definition frame_next (b : NextButton) : Frame :=
  {| f_ids := Some []; f_pagination := true; f_next := b |}.

(** The parser on a page of [frames], when [Date.now()] is [t0]. *)
Definition timeline_start (t0 : Z) (frames : list Frame) (rest : Frame) : St Timeline :=
  {| world := {| tl_time := 0; tl_frames := frames; tl_rest := rest |};
     now := t0; userIds := []; files := []; trace := [] |}.

Definition default_config : ParserConfig :=
  {| maxPages := None; outputFile := Some (js "bothunter_results.json");
     listFilters := None; waitAfterSwitchMs := None |}.

Definition default_parser : Parser :=
  {| config := default_config; page_open := true; communityData := None;
     NEXT_ENABLE_WAIT_MS := Some 4000%Z |}.

(** The options of the poller in ticks of 500 ms: a stability window of
    three ticks, at least one identifier, no pagination shortcut. *)
Definition three_tick_opts : WaitOpts :=
  {| minStableMs := Some 1500%Z; allowPaginationShortcut := Some false;
     requireMinCount := Some 1%Z |}.

(** The probe sequence of the specification, one frame per tick. *)
Definition probe_sequence : list Frame :=
  map frame_count [0; 0; 3; 3; 3; 5; 5; 5; 5]%nat.

(** The numbers of identifiers that the samples of a run saw, in order. *)
Definition sampled_counts (evs : list Event) : list nat :=
  flat_map (fun e => match e with
                     | EvExtract (Some ids) => [List.length ids]
                     | _ => []
                     end) evs.

(** The number of samples, thrown ones included. *)
Definition samples_taken (evs : list Event) : nat :=
  List.length (filter (fun e => match e with EvExtract _ => true | _ => false end) evs).

(** *** A site of communities with paged contacts

    The contacts of the current community are shown page by page; the next
    button is enabled while a further page exists, and clicking it turns
    the page. *)

Record Site := {
  s_groups : list (jsstring * list (list jsstring));  (* key, pages of identifiers *)
  s_anchors : list GroupAnchor;
  s_listAnchors : list ListAnchor;
  s_current : jsstring;
  s_page : nat
}.

(** The site with [key] current, on its first page. *)
Definition show_first_page (key : jsstring) (w : Site) : Site :=
  {| s_groups := s_groups w; s_anchors := s_anchors w;
     s_listAnchors := s_listAnchors w; s_current := key; s_page := 0 |}.

Fixpoint pages_of (groups : list (jsstring * list (list jsstring))) (key : jsstring)
  : list (list jsstring) :=
  match groups with
  | [] => []
  | (k, pages) :: rest => if str_eqb k key then pages else pages_of rest key
  end.

Definition site_pages (w : Site) : list (list jsstring) :=
  pages_of (s_groups w) (s_current w).

Definition has_next (w : Site) : bool :=
  (S (s_page w) <? List.length (site_pages w))%nat.

Definition turn_page (w : Site) : Site :=
  {| s_groups := s_groups w; s_anchors := s_anchors w;
     s_listAnchors := s_listAnchors w; s_current := s_current w;
     s_page := if has_next w then S (s_page w) else s_page w |}.

Definition site_host : Host Site := {|
  h_query := fun sel w =>
    (match sel with
     | SelPagination => Some true
     | SelNextSimple => Some (has_next w)
     | _ => Some false
     end, w);
  h_count := fun sel w =>
    (match sel with
     | SelNextEnabled => if has_next w then 1 else 0
     | SelNextAny => 1
     | _ => 0
     end%nat, w);
  h_extract := fun w => (Some (nth (s_page w) (site_pages w) []), w);
  h_isDisabled := fun _ w => (Some false, w);
  h_waitVisible := fun _ w => (true, w);
  h_click := fun sel w =>
    (true, match sel with
           | SelNextEnabled | SelNextSimple => turn_page w
           | _ => w
           end);
  h_scroll := fun _ w => w;
  h_loadState := fun w => (true, w);
  h_timer := fun _ w => w;
  h_groupAnchors := fun w => (Some (s_anchors w), w);
  h_switchGroup := fun key w => (true, show_first_page key w);
  h_openGroups := fun w => w;
  h_openContacts := fun w => w;
  h_listAnchors := fun w => (Some (s_listAnchors w), w);
  h_gotoLists := fun w => (true, w);
  h_nav := fun href w => (true, show_first_page href w);
  h_waitPagination := fun w => w;
  h_random36 := fun w => (js "0.ab12cdxyz", w);
  h_randomBelow := fun _ w => (0%Z, w);
  h_localDate := fun _ => example_date
|}.

Definition anchor_of (key name : string) : GroupAnchor :=
  {| ga_onclick := Some (js "smm.change_group_with_channel('" ++ js key ++ js "', 'VK')");
     ga_nameCandidate := Some (js name);
     ga_text := js name |}.

(** Communities A (Alpha: pages ["1","2"], ["2","3"]) and B (Beta: ["9"]). *)
Definition two_communities : Site :=
  {| s_groups := [ (js "A", [ [js "1"; js "2"]; [js "2"; js "3"] ]);
                   (js "B", [ [js "9"] ]) ];
     s_anchors := [anchor_of "A" "Alpha"; anchor_of "B" "Beta"];
     s_listAnchors := [];
     s_current := js "A";
     s_page := 0 |}.

(** The lists "В работе", "Отказ" and "Случайное" of one community, each
    with one page of contacts. *)
Definition three_lists : Site :=
  {| s_groups := [ (js "/contacts/lists/1/5", [ [js "11"; js "12"] ]);
                   (js "/contacts/lists/1/6", [ [js "21"] ]);
                   (js "/contacts/lists/1/7", [ [js "31"; js "32"; js "33"] ]) ];
     s_anchors := [];
     s_listAnchors := [list_anchor "В работе" "/contacts/lists/1/5";
                       list_anchor "Отказ" "/contacts/lists/1/6";
                       list_anchor "Случайное" "/contacts/lists/1/7"];
     s_current := js "";
     s_page := 0 |}.

(** The parser whose only list filter is [keyword]. *)
Definition parser_filtering (keyword : string) : Parser :=
  {| config := {| maxPages := None; outputFile := Some (js "bothunter_results.json");
                  listFilters := Some [js keyword]; waitAfterSwitchMs := None |};
     page_open := true; communityData := None;
     NEXT_ENABLE_WAIT_MS := Some 4000%Z |}.

Definition site_start (w : Site) : St Site :=
  {| world := w; now := 0; userIds := []; files := []; trace := [] |}.

(** The state in which community B is current and the accumulator still
    holds the identifiers of community A. *)
Definition after_community_A : St Site :=
  {| world := show_first_page (js "B") two_communities;
     now := 0; userIds := [js "1"; js "2"; js "3"]; files := []; trace := [] |}.

(** What was written, oldest first. *)
Definition writes (evs : list Event) : list (jsstring * jsstring) :=
  flat_map (fun e => match e with
                     | EvWrite p c => [(p, c)]
                     | _ => []
                     end) evs.

(** The pages a traversal processed: one per round of its loop. *)
Definition pages_processed (evs : list Event) : nat :=
  List.length (filter (fun e => match e with EvLog (LogPage _) => true | _ => false end) evs).

(** The identifiers the extractor returned in a stretch of a run. *)
Definition extracted (evs : list Event) : list jsstring :=
  flat_map (fun e => match e with
                     | EvExtract (Some ids) => ids
                     | _ => []
                     end) evs.

(** The outcomes of the readiness checks of a run, in order. *)
Definition readiness_results (evs : list Event) : list bool :=
  flat_map (fun e => match e with
                     | EvReadiness ok => [ok]
                     | _ => []
                     end) evs.

(** The times the trigger was invoked: waits for the show button. *)
Definition triggers (evs : list Event) : nat :=
  List.length (filter (fun e => match e with EvWaitVisible SelShow _ => true | _ => false end) evs).

(** What stays as it is while the engine waits or probes: the accumulator
    and the files; the trace grows by [evs]. *)
Definition steady {W : Type} (s s' : St W) (evs : list Event) : Prop :=
  trace s' = trace s ++ evs /\ userIds s' = userIds s /\ files s' = files s.

(** The events of polling: what a wait does between its start and its
    return. *)
Definition is_probe (e : Event) : bool :=
  match e with
  | EvQuery _ _ | EvCount _ _ | EvExtract _ | EvSleep _ => true
  | _ => false
  end.

(** The events that neither process a page nor extract nor write. *)
Definition is_idle (e : Event) : bool :=
  match e with
  | EvCount _ _ | EvSleep _ | EvClick _ _ | EvQuery _ _ => true
  | EvLog (LogPage _) => false
  | EvLog _ => true
  | _ => false
  end.

(** What of the wait for the next button is left after [elapsed] ms. *)
Definition remaining (timeoutMs : option Z) (elapsed : Z) : Z :=
  match timeoutMs with
  | Some t => Z.max (t - elapsed) 0
  | None => 0
  end.

(** The numbers of enabled next buttons that the polls of a run saw. *)
Definition enabled_counts (evs : list Event) : list nat :=
  flat_map (fun e => match e with
                     | EvCount SelNextEnabled n => [n]
                     | _ => []
                     end) evs.

(** Fuel that covers a bounded wait of [ms] milliseconds polled every 500. *)
Definition poll_fuel (ms : Z) : nat := Z.to_nat (ms / 500) + 2.

(** Fuel for the wait for the next button, whose bound may be NaN. *)
Definition next_fuel (timeoutMs : option Z) : nat :=
  match timeoutMs with
  | Some t => poll_fuel t
  | None => 1
  end.

(** Fuel for a traversal: its pages, the wait for the next button on each,
    and the first wait for readiness. *)
Definition traversal_fuel (P : Parser) : nat :=
  Z.to_nat (max_pages P) + next_fuel (NEXT_ENABLE_WAIT_MS P) + poll_fuel 20000 + 1.

(* ================================================================== *)
(** ** The scan of the page text (what extractUserIds evaluates in the page) *)

(** [\d] *)
Definition is_digit (c : N) : bool := ((48 <=? c) && (c <=? 57))%N.

(** [[:\s]] *)
Definition is_sep (c : N) : bool := (c =? 58)%N || is_space c.

(** A unit of a pattern under the [i] flag: a letter of Basic Latin
    matches in both cases, any other unit matches itself. *)
Definition unit_matches_ci (p c : N) : bool :=
  ((c =? p)
   || (65 <=? p) && (p <=? 90) && (c =? p + 32)
   || (97 <=? p) && (p <=? 122) && (c =? p - 32))%N.

Fixpoint starts_with_ci (p s : jsstring) : bool :=
  match p, s with
  | [], _ => true
  | x :: p', y :: s' => unit_matches_ci x y && starts_with_ci p' s'
  | _ :: _, [] => false
  end.

(** The longest prefix whose units are all in a class, and what follows. *)
Fixpoint span (f : N -> bool) (s : jsstring) : jsstring * jsstring :=
  match s with
  | c :: s' =>
      if f c then let (run, rest) := span f s' in (c :: run, rest)
      else ([], s)
  | [] => ([], [])
  end.

(** The three patterns are a literal, then (in the first only) a run of
    [\s*[:\s]*], then the captured [\d+]. *)
Record IdPattern := { ip_literal : jsstring; ip_separators : bool }.

(** [/ID\s*[:\s]*(\d+)/gi], [/ID(\d+)/gi] and [/@id(\d+)/gi] *)
Definition pattern_labelled : IdPattern :=
  {| ip_literal := js "ID"; ip_separators := true |}.

Definition pattern_plain : IdPattern :=
  {| ip_literal := js "ID"; ip_separators := false |}.

Definition pattern_mention : IdPattern :=
  {| ip_literal := js "@id"; ip_separators := false |}.

Definition idPatterns : list IdPattern :=
  [pattern_labelled; pattern_plain; pattern_mention].

(** Whether a match of the pattern can begin with this unit. *)
Definition opens (p : IdPattern) (c : N) : bool :=
  starts_with_ci (firstn 1 (ip_literal p)) [c].

(** A match of a pattern anchored at the head of [s]: the captured digits
    and the length of the match.  The separators are matched greedily and a
    shorter run cannot be followed by a digit, so there is one way to
    match. *)
Definition id_match_at (p : IdPattern) (s : jsstring) : option (jsstring * nat) :=
  if starts_with_ci (ip_literal p) s then
    let r1 := skipn (List.length (ip_literal p)) s in
    let (seps, r2) := if ip_separators p then span is_sep r1 else ([], r1) in
    let (digits, _) := span is_digit r2 in
    if truthy digits
    then Some (digits, (List.length (ip_literal p) + List.length seps
                        + List.length digits)%nat)
    else None
  else None.

(** [text.matchAll(pattern)], the captured group of each match: the search
    goes on where the last match ended.  [inside] counts the units ahead
    that the last match still covers. *)
Fixpoint match_all (p : IdPattern) (inside : nat) (s : jsstring) : list jsstring :=
  match s with
  | [] => []
  | _ :: s' =>
      match inside with
      | S k => match_all p k s'
      | O =>
          match id_match_at p s with
          | Some (digits, len) => digits :: match_all p (len - 1) s'
          | None => match_all p 0 s'
          end
      end
  end.

(** [for (const pattern of idPatterns) for (const match of
    text.matchAll(pattern)) if (match[1]) userIds.push(match[1])] *)
Definition text_matches (text : jsstring) : list jsstring :=
  flat_map (fun p => filter truthy (match_all p 0 text)) idPatterns.

(** The array [userIds] of the evaluated function: the matches in the text
    of each user element ([textContent || '']), then in the text of the
    body. *)
Definition page_matches (elements : list jsstring) (pageText : jsstring)
  : list jsstring :=
  flat_map (fun t => text_matches (or_else t [])) elements
  ++ text_matches pageText.

(** [[...new Set(userIds)]] *)
Definition page_ids (elements : list jsstring) (pageText : jsstring)
  : list jsstring :=
  JsSet.to_array (JsSet.of_array (page_matches elements pageText)).

(** Every position of [s] at which a pattern matches, overlapping or not:
    the captured groups. *)
Fixpoint matches_anywhere (p : IdPattern) (s : jsstring) : list jsstring :=
  match s with
  | [] => []
  | _ :: s' =>
      match id_match_at p s with
      | Some (digits, _) => digits :: matches_anywhere p s'
      | None => matches_anywhere p s'
      end
  end.

(* ================================================================== *)
(** ** Dates and numbers in text *)

(** [formatDateDDMMYYYY(d)]: dd.MM.yyyy *)
Definition formatDateDDMMYYYY (d : DateFields) : jsstring :=
  pad (getDate d) ++ js "." ++ pad (getMonth d + 1) ++ js "."
  ++ string_of_Z (getFullYear d).

(** The number that a string of decimal digits denotes. *)
Definition digits_value (s : jsstring) : N :=
  fold_left (fun v c => (10 * v + (c - 48))%N) s 0%N.

(* ================================================================== *)
(** ** The configuration read from the environment (main) *)

(** [s.split(sep)] for a separator of one unit. *)
Fixpoint split_at_aux (sep : N) (cur : jsstring) (s : jsstring) : list jsstring :=
  match s with
  | [] => [rev cur]
  | c :: s' =>
      if (c =? sep)%N then rev cur :: split_at_aux sep [] s'
      else split_at_aux sep (c :: cur) s'
  end.

Definition split_at (sep : N) (s : jsstring) : list jsstring :=
  split_at_aux sep [] s.

Definition comma : N := 44%N.

(** [process.env.LISTS_FILTER
      ? process.env.LISTS_FILTER.split(',').map(s => s.trim()).filter(Boolean)
      : undefined] *)
Definition env_listFilters (LISTS_FILTER : option jsstring)
  : option (list jsstring) :=
  match LISTS_FILTER with
  | Some v =>
      if truthy v then Some (filter truthy (map trim (split_at comma v)))
      else None
  | None => None
  end.

(* ================================================================== *)
(** ** The drop-down of the bots (ensureSelect2Open) *)

(** What the page answers about the Select2 control of the bot.  [None]
    is a rejected evaluation; the actions on the control have their errors
    dropped. *)
Record Select2Host (W : Type) := {
  s2_isOpen : W -> option bool * W;       (* open container and visible results *)
  s2_scrollClick : W -> W;                (* scrollIntoViewIfNeeded, then click *)
  s2_pressArrowDown : W -> W;             (* press('ArrowDown') *)
  s2_finallyOpen : W -> option bool * W   (* an open container, whatever it shows *)
}.

Section Select2.
Context {W : Type} (H : Host W) (S2 : Select2Host W) (P : Parser).
Local Open Scope Z_scope.

Local Notation "x <- m ;; k" := (bind m (fun x => k))
  (at level 61, m at next level, right associativity).
Local Notation "m ;;; k" := (bind m (fun _ => k))
  (at level 61, right associativity).

(** [for (let attempt = 1; attempt <= maxAttempts; attempt++) {...}] with
    [left] rounds to go: [true] when the function returns from inside the
    loop. *)
Fixpoint select2_attempts (left : nat) : @M W bool :=
  match left with
  | O => ret false
  | S left' =>
      isOpen <- host (s2_isOpen S2) ;;
      match isOpen with
      | None => throw
      | Some true => ret true
      | Some false =>
          host (fun w => (tt, s2_scrollClick S2 w)) ;;;
          waitForTimeout H P 80 ;;;
          host (fun w => (tt, s2_pressArrowDown S2 w)) ;;;
          waitForTimeout H P 150 ;;;
          select2_attempts left'
      end
  end.

(** [ensureSelect2Open(selection, maxAttempts = 5)] *)
Definition ensureSelect2Open (maxAttempts : Z) : @M W unit :=
  if page_open P then
    opened <- select2_attempts (Z.to_nat maxAttempts) ;;
    if opened then ret tt
    else
      finallyOpen <- host (s2_finallyOpen S2) ;;
      match finallyOpen with
      | Some true => ret tt
      | _ => throw
      end
  else throw.

End Select2.

(** A drop-down that opens at the third look. *)
Definition select2_third_look : Select2Host Timeline := {|
  s2_isOpen := fun w => (Some (460 <=? tl_time w)%Z, w);
  s2_scrollClick := fun w => w;
  s2_pressArrowDown := fun w => w;
  s2_finallyOpen := fun w => (Some false, w)
|}.

(* ================================================================== *)
(** * Properties *)

(** ** Strings *)

Lemma str_eqb_spec a b : str_eqb a b = true <-> a = b.
Proof.
  revert b; induction a as [|x a IH]; intros [|y b]; simpl; split;
    try congruence; try discriminate; auto.
  - intros E. apply andb_true_iff in E as [E1 E2].
    apply N.eqb_eq in E1. apply IH in E2. congruence.
  - intros E. injection E as -> ->. rewrite N.eqb_refl. simpl. now apply IH.
Qed.

Lemma str_eqb_refl a : str_eqb a a = true.
Proof. now apply str_eqb_spec. Qed.

Lemma str_eqb_neq a b : str_eqb a b = false <-> a <> b.
Proof.
  split.
  - intros E F. apply str_eqb_spec in F. congruence.
  - intros E. destruct (str_eqb a b) eqn:F; auto.
    apply str_eqb_spec in F. contradiction.
Qed.

Lemma str_eqb_sym a b : str_eqb a b = str_eqb b a.
Proof.
  destruct (str_eqb a b) eqn:E; symmetry.
  - apply str_eqb_spec in E. subst. apply str_eqb_refl.
  - apply str_eqb_neq in E. apply str_eqb_neq. congruence.
Qed.

Lemma existsb_str_eqb_In k l : existsb (str_eqb k) l = true <-> In k l.
Proof.
  rewrite existsb_exists. split.
  - intros [x [Hin E]]. apply str_eqb_spec in E. now subst.
  - intros Hin. exists k. split; auto. apply str_eqb_refl.
Qed.

Lemma starts_with_spec p s : starts_with p s = true <-> exists r, s = p ++ r.
Proof.
  revert s; induction p as [|x p IH]; intros s; simpl.
  - split; eauto.
  - destruct s as [|y s].
    + split; [discriminate | intros [r E]; discriminate].
    + rewrite andb_true_iff, N.eqb_eq, IH. split.
      * intros [-> [r ->]]. now exists r.
      * intros [r E]. injection E as -> ->. eauto.
Qed.


(** [includes] is the substring relation. *)
Lemma includes_spec s sub :
  includes s sub = true <-> exists a b, s = a ++ sub ++ b.
Proof.
  induction s as [|c s IH]; simpl.
  - rewrite orb_false_r, starts_with_spec. split.
    + intros [r E]. exists [], r. exact E.
    + intros [a [b E]]. destruct a; [|discriminate]. simpl in E. eauto.
  - rewrite orb_true_iff, starts_with_spec, IH. split.
    + intros [[r E] | [a [b E]]].
      * exists [], r. exact E.
      * exists (c :: a), b. simpl. now rewrite E.
    + intros [a [b E]]. destruct a as [|x a]; simpl in E.
      * left. eauto.
      * right. injection E as _ E. eauto.
Qed.




(** ** First-seen order *)

Section FirstBy.
Context {A : Type} (key : A -> jsstring).

Lemma first_by_incl l x : In x (first_by key l) -> In x l.
Proof.
  revert x; induction l as [|a l IH]; simpl; intros x; auto.
  intros [E | Hin]; auto. apply filter_In in Hin as [Hin _]. auto.
Qed.

(** No key is listed twice. *)
Lemma first_by_NoDup l : NoDup (map key (first_by key l)).
Proof.
  induction l as [|a l IH]; simpl; constructor.
  - rewrite in_map_iff. intros [y [E Hin]].
    apply filter_In in Hin as [_ Hk].
    rewrite E, str_eqb_refl in Hk. discriminate.
  - clear - IH. induction (first_by key l) as [|b r IHr]; simpl; auto.
    inversion IH; subst.
    destruct (negb (str_eqb (key b) (key a))); simpl; auto.
    constructor; auto.
    rewrite in_map_iff. intros [y [E Hin]].
    apply filter_In in Hin as [Hin _].
    apply H1. rewrite <- E. now apply in_map.
Qed.

(** Every key of the input is listed. *)
Lemma first_by_keys l k : In k (map key (first_by key l)) <-> In k (map key l).
Proof.
  split.
  - rewrite !in_map_iff. intros [x [E Hin]]. exists x. split; auto.
    now apply first_by_incl.
  - induction l as [|a l IH]; simpl; auto.
    intros [E | Hin]; auto.
    destruct (str_eq_dec (key a) k) as [|N]; auto.
    right. apply IH in Hin. apply in_map_iff in Hin as [x [E Hin]].
    apply in_map_iff. exists x. split; auto.
    apply filter_In. split; auto.
    apply negb_true_iff, str_eqb_neq. congruence.
Qed.

Lemma filter_filter_comm (p q : A -> bool) l :
  filter p (filter q l) = filter q (filter p l).
Proof.
  induction l as [|a l IH]; simpl; auto.
  destruct (p a) eqn:Ep, (q a) eqn:Eq; simpl; rewrite ?Ep, ?Eq, IH; auto.
Qed.

Lemma filter_absorb (p q : A -> bool) l :
  (forall y, In y l -> q y = false -> p y = false) ->
  filter p (filter q l) = filter p l.
Proof.
  induction l as [|a l IH]; simpl; intros Hpq; auto.
  destruct (q a) eqn:Eq; simpl.
  - destruct (p a); rewrite IH; auto.
  - rewrite (Hpq a); auto.
Qed.

(** Dropping whole keys commutes with keeping first occurrences. *)
Lemma first_by_filter (p : A -> bool) l :
  (forall y z, key y = key z -> p y = p z) ->
  first_by key (filter p l) = filter p (first_by key l).
Proof.
  intros Hp. induction l as [|a l IH]; simpl; auto.
  destruct (p a) eqn:Ep; simpl.
  - rewrite IH. f_equal. apply filter_filter_comm.
  - rewrite IH. symmetry. apply filter_absorb.
    intros y _ Hy. apply negb_false_iff, str_eqb_spec in Hy.
    rewrite (Hp y a); auto.
Qed.

(** Scanning from the left, an element is appended exactly when its key is
    new: the order of the result is the order of first occurrence. *)
Lemma first_by_snoc l x :
  first_by key (l ++ [x]) =
  if existsb (fun y => str_eqb (key y) (key x)) l
  then first_by key l else first_by key l ++ [x].
Proof.
  induction l as [|a l IH]; simpl; auto.
  rewrite IH. rewrite (str_eqb_sym (key a) (key x)).
  destruct (str_eqb (key x) (key a)) eqn:E; simpl.
  - destruct (existsb _ l); auto.
    rewrite filter_app. simpl. rewrite E. simpl. now rewrite app_nil_r.
  - destruct (existsb _ l); auto.
    rewrite filter_app. simpl. rewrite E. reflexivity.
Qed.

End FirstBy.

(** ** Enumeration of communities and lists *)

Lemma JsSet_has_In k s : JsSet.has k s = true <-> In k s.
Proof. apply existsb_str_eqb_In. Qed.

Lemma JsSet_has_add k x s :
  JsSet.has k (JsSet.add x s) = JsSet.has k s || str_eqb k x.
Proof.
  unfold JsSet.add. destruct (JsSet.has x s) eqn:E.
  - destruct (str_eqb k x) eqn:F; [|now rewrite orb_false_r].
    apply str_eqb_spec in F. subst. now rewrite E.
  - unfold JsSet.has. rewrite existsb_app. simpl. now rewrite orb_false_r.
Qed.

Lemma group_fold anchors : forall items seen,
  fst (fold_left group_step anchors (items, seen)) =
  items ++ first_by g_id
             (filter (fun it => negb (JsSet.has (g_id it) seen))
                     (map group_item (filter has_group_key anchors))).
Proof.
  induction anchors as [|a anchors IH]; intros items seen; simpl.
  - now rewrite app_nil_r.
  - unfold has_group_key at 1.
    destruct (truthy (group_key a)) eqn:T; simpl.
    + destruct (JsSet.has (group_key a) seen) eqn:Hs; simpl.
      * apply IH.
      * rewrite IH, <- app_assoc. simpl. do 2 f_equal.
        rewrite <- first_by_filter
          by (intros y z E; now rewrite E).
        f_equal.
        clear. induction (map group_item (filter has_group_key anchors)) as [|b l IHl];
          simpl; auto.
        rewrite JsSet_has_add, negb_orb.
        destruct (JsSet.has (g_id b) seen); simpl; auto.
        destruct (str_eqb (g_id b) (group_key a)); simpl; auto.
        now rewrite IHl.
    + apply IH.
Qed.

Lemma enumerate_groups_first_by anchors :
  enumerate_groups anchors =
  first_by g_id (map group_item (filter has_group_key anchors)).
Proof.
  unfold enumerate_groups. rewrite group_fold. simpl.
  f_equal. induction (map group_item (filter has_group_key anchors)); simpl; auto.
  now f_equal.
Qed.

Lemma map_first_by {A} (key : A -> jsstring) l :
  map key (first_by key l) = first_by (fun k => k) (map key l).
Proof.
  induction l as [|a l IH]; simpl; auto.
  f_equal. rewrite <- IH. clear.
  induction (first_by key l) as [|b r IHr]; simpl; auto.
  destruct (negb (str_eqb (key b) (key a))); simpl; now rewrite IHr.
Qed.

Lemma group_keys_listed anchors :
  map g_id (map group_item (filter has_group_key anchors)) =
  filter truthy (map group_key anchors).
Proof.
  induction anchors as [|a l IH]; simpl; auto.
  unfold has_group_key at 1.
  destruct (truthy (group_key a)); simpl; now rewrite IH.
Qed.

Section ListEnumeration.
Context {RT : Runtime}.

Lemma dedupe_lists_first_by items : forall seen,
  (forall it, In it items -> JsObject.inherited (list_dedupe_key it) = false) ->
  dedupe_lists seen items =
  first_by list_dedupe_key
    (filter (fun it => negb (existsb (str_eqb (list_dedupe_key it)) seen)) items).
Proof.
  induction items as [|a items IH]; intros seen Hn; simpl; auto.
  assert (Ha : JsObject.inherited (list_dedupe_key a) = false)
    by (apply Hn; now left).
  unfold JsObject.get_truthy. rewrite Ha, orb_false_r.
  destruct (existsb (str_eqb (list_dedupe_key a)) seen) eqn:E; simpl.
  - apply IH. intros it Hin. apply Hn. now right.
  - f_equal. rewrite IH by (intros it Hin; apply Hn; now right).
    rewrite <- first_by_filter
      by (intros y z Hk; now rewrite Hk).
    f_equal.
    assert (Hp : str_eqb (list_dedupe_key a) (js "__proto__") = false).
    { destruct (str_eqb (list_dedupe_key a) (js "__proto__")) eqn:F; auto.
      apply str_eqb_spec in F. rewrite F in Ha. discriminate. }
    unfold JsObject.set_true. rewrite Hp, E.
    clear. induction items as [|b l IHl]; simpl; auto.
    rewrite existsb_app. simpl. rewrite orb_false_r, negb_orb.
    destruct (existsb (str_eqb (list_dedupe_key b)) seen); simpl; auto.
    destruct (str_eqb (list_dedupe_key b) (list_dedupe_key a)); simpl; auto.
    now rewrite IHl.
Qed.

Lemma enumerate_lists_first_by anchors :
  (forall it, In it (list_items anchors) ->
              JsObject.inherited (list_dedupe_key it) = false) ->
  enumerate_lists anchors = first_by list_dedupe_key (list_items anchors).
Proof.
  intros Hn. unfold enumerate_lists. rewrite dedupe_lists_first_by by exact Hn.
  f_equal. simpl. clear Hn.
  induction (list_items anchors); simpl; auto. now f_equal.
Qed.

End ListEnumeration.

(** C5 (as amended).  Community enumeration lists each non-empty handler
    key once, in the order of its first anchor.  List enumeration does not
    go by the handler key: it lists each lower-cased label once, in the
    order of its first anchor, as long as no label is the name of a
    property that every object inherits. *)
Theorem enumeration_first_seen {RT : Runtime}
        (groupAnchors : list GroupAnchor) (listAnchors : list ListAnchor)
        (Hown : forall it, In it (list_items listAnchors) ->
                           JsObject.inherited (list_dedupe_key it) = false) :
  let groups := enumerate_groups groupAnchors in
  let lists := enumerate_lists listAnchors in
  (NoDup (map g_id groups)
   /\ (forall k, In k (map g_id groups) <->
                 k <> [] /\ In k (map group_key groupAnchors))
   /\ map g_id groups = first_by (fun k => k) (filter truthy (map group_key groupAnchors)))
  /\
  (NoDup (map list_dedupe_key lists)
   /\ (forall k, In k (map list_dedupe_key lists) <->
                 In k (map list_dedupe_key (list_items listAnchors)))
   /\ lists = first_by list_dedupe_key (list_items listAnchors)).
Proof.
  intros groups lists. subst groups lists. split.
  - rewrite enumerate_groups_first_by. split; [apply first_by_NoDup|]. split.
    + intros k. rewrite first_by_keys, group_keys_listed, filter_In.
      split; intros [A B]; split; auto.
      * intros ->. discriminate.
      * destruct k; [now elim A | reflexivity].
    + now rewrite map_first_by, group_keys_listed.
  - rewrite enumerate_lists_first_by by exact Hown.
    split; [apply first_by_NoDup|]. split; auto.
    intros k. apply first_by_keys.
Qed.

Lemma enumeration_first_seen_witness :
  map g_id (enumerate_groups
              [anchor_of "A" "Alpha"; anchor_of "B" "Beta"; anchor_of "A" "Alpha again"])
  = first_by (fun k => k) [js "A"; js "B"; js "A"]
  /\ @enumerate_lists example_runtime
       [list_anchor "Отказ" "/contacts/lists/1/6";
        list_anchor "В работе" "/contacts/lists/1/5";
        list_anchor "ОТКАЗ" "/contacts/lists/1/9"]
     = [ {| l_name := js "Отказ"; l_href := js "/contacts/lists/1/6" |};
         {| l_name := js "В работе"; l_href := js "/contacts/lists/1/5" |} ].
Proof.
  pose proof (@enumeration_first_seen example_runtime
                [anchor_of "A" "Alpha"; anchor_of "B" "Beta"; anchor_of "A" "Alpha again"]
                [list_anchor "Отказ" "/contacts/lists/1/6";
                 list_anchor "В работе" "/contacts/lists/1/5";
                 list_anchor "ОТКАЗ" "/contacts/lists/1/9"]) as T.
  assert (Hown : forall it,
             In it (@list_items
                      [list_anchor "Отказ" "/contacts/lists/1/6";
                       list_anchor "В работе" "/contacts/lists/1/5";
                       list_anchor "ОТКАЗ" "/contacts/lists/1/9"]) ->
             JsObject.inherited (@list_dedupe_key example_runtime it) = false).
  { intros it Hin. vm_compute in Hin.
    destruct Hin as [<- | [<- | [<- | []]]]; vm_compute; reflexivity. }
  destruct (T Hown) as [[_ [_ G]] [_ [_ L]]]. split.
  - rewrite G. vm_compute. reflexivity.
  - rewrite L. vm_compute. reflexivity.
Defined.

(** C5, as stated, fails on the lists page: two anchors that carry the
    same handler key under different labels are both listed; of two lists
    whose labels differ in case only, the second is never listed; and a
    list labelled with the name of an inherited property is not listed at
    all. *)
Lemma enumeration_by_key_counterexample :
  map l_href (@enumerate_lists example_runtime
                [list_anchor "Alpha" "/contacts/lists/1/5";
                 list_anchor "Beta" "/contacts/lists/1/5"])
  = [js "/contacts/lists/1/5"; js "/contacts/lists/1/5"]
  /\ map l_href (@enumerate_lists example_runtime
                   [list_anchor "VIP" "/contacts/lists/1/5";
                    list_anchor "vip" "/contacts/lists/1/6"])
     = [js "/contacts/lists/1/5"]
  /\ @enumerate_lists example_runtime
       [list_anchor "constructor" "/contacts/lists/1/7"] = [].
Proof. repeat split; vm_compute; reflexivity. Qed.

(** ** List filtering *)

Section ListFilter.
Context {RT : Runtime}.

Lemma list_matches_spec filters l :
  list_matches filters l = true <->
  exists f, In f filters /\
            exists a b, toLowerCase (l_name l) = a ++ f ++ b.
Proof.
  unfold list_matches. rewrite existsb_exists.
  split; intros [f [Hin Hs]]; exists f; split; auto; now apply includes_spec.
Qed.

Lemma target_lists_cases listFilters allLists :
  let matching := filter (list_matches (list_filters listFilters)) allLists in
  target_lists listFilters allLists =
  match matching with [] => allLists | _ => matching end.
Proof.
  simpl. unfold target_lists.
  destruct (filter (list_matches (list_filters listFilters)) allLists); reflexivity.
Qed.

End ListFilter.

(** C6.  The lists kept are exactly those whose lower-cased name has a
    lower-cased keyword as a substring, in their order; when there is none,
    all lists are kept.  With the names "В работе", "Отказ", "Случайное",
    the keyword "отказ" keeps "Отказ" alone and the keyword "нет такого"
    keeps all three. *)
Theorem target_lists_filter {RT : Runtime}
        (listFilters : option (list jsstring)) (allLists : list ListItem) :
  let filters := list_filters listFilters in
  let matching := filter (list_matches filters) allLists in
  (forall keywords, keywords <> [] ->
     list_filters (Some keywords) = map toLowerCase keywords)
  /\ (forall l, In l matching <->
                In l allLists /\
                exists f, In f filters /\
                          exists a b, toLowerCase (l_name l) = a ++ f ++ b)
  /\ (matching <> [] -> target_lists listFilters allLists = matching)
  /\ (matching = [] -> target_lists listFilters allLists = allLists)
  /\ (toLowerCase (js "В работе") = js "в работе" ->
      toLowerCase (js "Отказ") = js "отказ" ->
      toLowerCase (js "Случайное") = js "случайное" ->
      toLowerCase (js "отказ") = js "отказ" ->
      toLowerCase (js "нет такого") = js "нет такого" ->
      forall h1 h2 h3,
        let three := [list_named "В работе" h1; list_named "Отказ" h2;
                      list_named "Случайное" h3] in
        target_lists (Some [js "отказ"]) three = [list_named "Отказ" h2]
        /\ target_lists (Some [js "нет такого"]) three = three).
Proof.
  intros filters matching. subst filters matching.
  split; [|split; [|split; [|split]]].
  - intros [|k ks] Hne; [contradiction | reflexivity].
  - intros l. rewrite filter_In, list_matches_spec. reflexivity.
  - intros Hne. rewrite target_lists_cases.
    destruct (filter _ allLists); [contradiction | reflexivity].
  - intros He. rewrite target_lists_cases. now rewrite He.
  - intros L1 L2 L3 K1 K2 h1 h2 h3. simpl.
    unfold target_lists, list_filters, list_matches. simpl.
    rewrite L1, L2, L3, K1, K2. split; reflexivity.
Qed.

Lemma target_lists_filter_witness :
  let three := [list_named "В работе" (js "/contacts/lists/1/5");
                list_named "Отказ" (js "/contacts/lists/1/6");
                list_named "Случайное" (js "/contacts/lists/1/7")] in
  @target_lists example_runtime (Some [js "отказ"]) three
  = [list_named "Отказ" (js "/contacts/lists/1/6")]
  /\ @target_lists example_runtime (Some [js "нет такого"]) three = three.
Proof.
  destruct (@target_lists_filter example_runtime None []) as [_ [_ [_ [_ T]]]].
  apply T; reflexivity.
Defined.

(** ** Slugs and artifact names *)

Lemma Forall_trim_start (Q : N -> Prop) s : Forall Q s -> Forall Q (trim_start s).
Proof.
  induction 1 as [|c s Hc Hs IH]; simpl; auto.
  destruct (is_space c); auto.
Qed.

Lemma Forall_trim (Q : N -> Prop) s : Forall Q s -> Forall Q (trim s).
Proof.
  intros F. unfold trim, trim_end.
  apply Forall_rev, Forall_trim_start, Forall_rev, Forall_trim_start, F.
Qed.

Lemma Forall_take (Q : N -> Prop) n s : Forall Q s -> Forall Q (firstn n s).
Proof.
  intros F. revert n. induction F as [|c s Hc Hs IH]; intros [|n]; simpl; auto.
Qed.

Lemma slug_unit_not_space c : slug_unit c = true -> is_space c = false.
Proof.
  unfold slug_unit, is_space. intros U.
  repeat rewrite orb_true_iff in U. repeat rewrite andb_true_iff in U.
  repeat rewrite N.leb_le in U. repeat rewrite N.eqb_eq in U.
  repeat rewrite orb_false_iff. repeat rewrite andb_false_iff.
  repeat rewrite N.leb_gt. repeat rewrite N.eqb_neq.
  lia.
Qed.

Lemma Forall_collapse b s :
  Forall (fun c => slug_keeps c = true) s ->
  Forall (fun c => slug_unit c = true) (collapse_from b s).
Proof.
  intros F. revert b. induction F as [|c s Hc Hs IH]; intros b; simpl; auto.
  destruct (is_space c) eqn:Sp.
  - destruct b; auto.
  - constructor; auto. unfold slug_keeps in Hc. now rewrite Sp, orb_false_r in Hc.
Qed.



Section Names.
Context {RT : Runtime}.

Lemma slugify_units v : Forall (fun c => slug_unit c = true) (slugify v 40).
Proof.
  unfold slugify, or_else.
  match goal with |- context [truthy ?x] => destruct (truthy x) eqn:T end.
  - unfold slice. simpl skipn. apply Forall_take, Forall_collapse, Forall_trim.
    apply Forall_forall. intros c Hin. now apply filter_In in Hin.
  - vm_compute. repeat constructor.
Qed.

Lemma slugify_length v : (1 <= List.length (slugify v 40) <= 40)%nat.
Proof.
  unfold slugify, or_else.
  match goal with |- context [truthy ?x] => destruct (truthy x) eqn:T end.
  - split.
    + destruct (slice 0 40 _); [discriminate | simpl; lia].
    + unfold slice. rewrite length_firstn. lia.
  - vm_compute. lia.
Qed.

End Names.

Lemma pad_length n : (n < 100)%N -> List.length (pad n) = 2%nat.
Proof.
  intros Hn.
  assert (Hall : forallb (fun k => Nat.eqb (List.length (pad (N.of_nat k))) 2)
                         (seq 0 100) = true) by (vm_compute; reflexivity).
  rewrite forallb_forall in Hall.
  specialize (Hall (N.to_nat n)). rewrite N2Nat.id in Hall.
  apply Nat.eqb_eq, Hall, in_seq. lia.
Qed.

Lemma year_length y :
  (1000 <= y <= 9999)%Z -> List.length (string_of_Z y) = 4%nat.
Proof.
  intros Hy.
  assert (Hall : forallb (fun k => Nat.eqb (List.length (string_of_Z (Z.of_nat k))) 4)
                         (seq 1000 (90 * 100)) = true) by (vm_compute; reflexivity).
  rewrite forallb_forall in Hall.
  specialize (Hall (Z.to_nat y)). rewrite Z2Nat.id in Hall by lia.
  apply Nat.eqb_eq, Hall, in_seq. lia.
Qed.



Lemma app_same_length_inv {A} (a b c d : list A) :
  List.length a = List.length b -> a ++ c = b ++ d -> a = b /\ c = d.
Proof.
  revert b; induction a as [|x a IH]; intros [|y b] L E; simpl in *;
    try discriminate; auto.
  injection E as -> E. injection L as L.
  destruct (IH b L E) as [-> ->]. auto.
Qed.




(** ** The two files of saveResults *)




(** ** Runs of the engine *)

Lemma probes_quiet evs :
  Forall (fun e => is_probe e = true) evs ->
  pages_processed evs = 0%nat /\ readiness_results evs = []
  /\ triggers evs = 0%nat /\ writes evs = [].
Proof.
  induction 1 as [|e evs He Hevs IH]; [repeat split|].
  destruct IH as [I1 [I2 [I3 I4]]].
  unfold pages_processed, readiness_results, triggers, writes in *.
  destruct e; try discriminate; simpl; rewrite ?I2, ?I4; auto.
Qed.

Lemma pages_processed_app a b :
  pages_processed (a ++ b) = (pages_processed a + pages_processed b)%nat.
Proof. unfold pages_processed. now rewrite filter_app, length_app. Qed.

Lemma triggers_app a b : triggers (a ++ b) = (triggers a + triggers b)%nat.
Proof. unfold triggers. now rewrite filter_app, length_app. Qed.

Lemma readiness_results_app a b :
  readiness_results (a ++ b) = readiness_results a ++ readiness_results b.
Proof. apply flat_map_app. Qed.

Lemma extracted_app a b : extracted (a ++ b) = extracted a ++ extracted b.
Proof. apply flat_map_app. Qed.

Ltac close_steady :=
  simpl; rewrite <- ?app_assoc; repeat split; simpl; auto;
  repeat (constructor; auto).

Section EngineFacts.
Context {W : Type} (H : Host W) (P : Parser) (Hopen : page_open P = true).
Local Open Scope Z_scope.

Local Notation "x <- m ;; k" := (bind m (fun x => k))
  (at level 61, m at next level, right associativity).
Local Notation "m ;;; k" := (bind m (fun _ => k))
  (at level 61, right associativity).

Lemma steady_refl (s : St W) : steady s s [].
Proof. unfold steady. now rewrite app_nil_r. Qed.

Lemma steady_trans (s1 s2 s3 : St W) e1 e2 :
  steady s1 s2 e1 -> steady s2 s3 e2 -> steady s1 s3 (e1 ++ e2).
Proof.
  intros [T1 [U1 F1]] [T2 [U2 F2]]. unfold steady.
  rewrite T2, T1, U2, U1, F2, F1, app_assoc. auto.
Qed.

(** *** One sample of the poller *)

(** The [try] block with its [catch]: it always yields, never throws, and
    takes no time. *)
Lemma sample_caught allow minStable requireMin ps s :
  exists r s' evs,
    try_catch (sample H P allow minStable requireMin ps) (ret (false, ps)) s
    = (Ret r, s')
    /\ steady s s' evs /\ Forall (fun e => is_probe e = true) evs
    /\ now s' = now s.
Proof.
  unfold try_catch, sample, query, extractUserIds, on_page, bind, host, emit,
    date_now, ret, throw, steady.
  rewrite Hopen. destruct allow; simpl.
  - destruct (h_query H SelPagination (world s)) as [[[|]|] w] eqn:Q; simpl.
    + do 3 eexists. split; [reflexivity|]. close_steady.
    + destruct (h_extract H w) as [[raw|] w'] eqn:X; simpl.
      * match goal with |- context [if ?c then _ else _] => destruct c end;
          do 3 eexists; (split; [reflexivity|]); close_steady.
      * do 3 eexists. split; [reflexivity|]. close_steady.
    + do 3 eexists. split; [reflexivity|]. close_steady.
  - destruct (h_extract H (world s)) as [[raw|] w'] eqn:X; simpl.
    + match goal with |- context [if ?c then _ else _] => destruct c end;
        do 3 eexists; (split; [reflexivity|]); close_steady.
    + do 3 eexists. split; [reflexivity|]. close_steady.
Qed.

Lemma steady_slept ms (s : St W) : steady s (slept H ms s) [EvSleep ms].
Proof. unfold steady. auto. Qed.

(** *** The loop of the poller *)

Lemma wait_loop_unfold fuel maxWaitMs start allow minStable requireMin ps s :
  wait_loop H P (S fuel) maxWaitMs start allow minStable requireMin ps s =
  if now s - start <? maxWaitMs then
    match try_catch (sample H P allow minStable requireMin ps) (ret (false, ps)) s with
    | (Ret r, s1) =>
        if fst r then (Ret true, s1)
        else wait_loop H P fuel maxWaitMs start allow minStable requireMin (snd r)
                       (slept H 500 s1)
    | (Throw, s1) => (Throw, s1)
    | (OutOfFuel, s1) => (OutOfFuel, s1)
    end
  else (Ret false, s).
Proof.
  cbn [wait_loop]. unfold bind at 1. unfold date_now at 1.
  destruct (now s - start <? maxWaitMs); [|reflexivity].
  unfold bind at 1.
  destruct (try_catch _ _ s) as [[r| |] s1]; try reflexivity.
  destruct (fst r); [reflexivity|].
  unfold bind, waitForTimeout, on_page, timer. now rewrite Hopen.
Qed.

(** The loop never throws, changes nothing but the page and the clock,
    and returns once the wait has elapsed: a fuel of one round per 500 ms
    that remain, and one more, is enough. *)
Lemma wait_loop_spec fuel : forall maxWaitMs start allow minStable requireMin ps s,
  exists o s' evs,
    wait_loop H P fuel maxWaitMs start allow minStable requireMin ps s = (o, s')
    /\ steady s s' evs /\ Forall (fun e => is_probe e = true) evs
    /\ o <> Throw
    /\ (Z.max (maxWaitMs - (now s - start)) 0 + 500 <= 500 * Z.of_nat fuel ->
        o <> OutOfFuel).
Proof.
  induction fuel as [|fuel IH]; intros maxWaitMs start allow minStable requireMin ps s.
  - exists OutOfFuel, s, []. split; [reflexivity|].
    split; [apply steady_refl|]. split; [constructor|].
    split; [discriminate|]. simpl. lia.
  - rewrite wait_loop_unfold.
    destruct (Z.ltb_spec (now s - start) maxWaitMs) as [Hlt|Hge].
    + destruct (sample_caught allow minStable requireMin ps s)
        as [r [s1 [evs1 [E1 [S1 [F1 N1]]]]]].
      rewrite E1. destruct (fst r).
      * exists (Ret true), s1, evs1. repeat split; auto; try apply S1; discriminate.
      * destruct (IH maxWaitMs start allow minStable requireMin (snd r) (slept H 500 s1))
          as [o [s' [evs2 [E2 [S2 [F2 [NT NF]]]]]]].
        exists o, s', (evs1 ++ [EvSleep 500] ++ evs2).
        split; [exact E2|]. split.
        { eapply steady_trans; [exact S1|].
          eapply steady_trans; [apply steady_slept | exact S2]. }
        split.
        { apply Forall_app. split; auto. constructor; auto. }
        split; auto.
        intros Hf. apply NF. cbn [now slept]. rewrite N1. lia.
    + exists (Ret false), s, []. split; [reflexivity|].
      split; [apply steady_refl|]. split; [constructor|].
      split; discriminate.
Qed.

Lemma poll_fuel_enough ms fuel :
  (poll_fuel ms <= fuel)%nat -> Z.max (ms - 0) 0 + 500 <= 500 * Z.of_nat fuel.
Proof.
  unfold poll_fuel. intros Hf.
  destruct (Z.le_gt_cases 0 ms) as [Hms|Hms].
  - assert (Z.of_nat (Z.to_nat (ms / 500)) = ms / 500)
      by (apply Z2Nat.id; apply Z.div_pos; lia).
    pose proof (Z.mul_succ_div_gt ms 500 ltac:(lia)). lia.
  - lia.
Qed.

(** *** The poller *)

Lemma waitForAnyUsers_spec fuel maxWaitMs opts s :
  exists o s' evs,
    waitForAnyUsers H P fuel maxWaitMs opts s = (o, s')
    /\ Forall (fun e => is_probe e = true) evs
    /\ match o with
       | Ret ok => steady s s' (evs ++ [EvReadiness ok])
       | Throw => False
       | OutOfFuel => steady s s' evs /\ (fuel < poll_fuel maxWaitMs)%nat
       end.
Proof.
  unfold waitForAnyUsers.
  set (minStable := nullish _ 2000). set (allow := nullish _ true).
  set (requireMin := nullish _ 1).
  unfold bind at 1. unfold date_now at 1. unfold bind at 1. unfold date_now at 1.
  unfold bind at 1.
  destruct (wait_loop_spec fuel maxWaitMs (now s) allow minStable requireMin
              {| lastCount := -1; lastChangeTs := now s |} s)
    as [o [s1 [evs [E [S1 [F [NT NF]]]]]]].
  rewrite E. destruct o as [ok| |].
  - eexists. eexists. exists evs. split; [reflexivity|]. split; auto.
    eapply steady_trans; [exact S1|]. unfold steady. auto.
  - contradiction.
  - exists OutOfFuel, s1, evs. split; [reflexivity|]. split; auto. split; auto.
    destruct (Nat.lt_ge_cases fuel (poll_fuel maxWaitMs)) as [|Hge]; auto.
    elim NF; auto. replace (now s - now s) with 0 by lia.
    now apply poll_fuel_enough.
Qed.




End EngineFacts.



(** ** The stability window of the poller *)

Section Stability.
Context {W : Type} (H : Host W) (P : Parser) (Hopen : page_open P = true).
Local Open Scope Z_scope.

(** A sample that does not throw, without the shortcut: the locals it
    leaves and whether it ends the wait. *)
Lemma sample_counts minStable requireMin ps s raw w :
  h_extract H (world s) = (Some raw, w) ->
  let count := Z.of_nat (List.length (JsSet.of_array raw)) in
  let ps' := if negb (count =? lastCount ps)
             then {| lastCount := count; lastChangeTs := now s |} else ps in
  sample H P false minStable requireMin ps s
  = (Ret ((requireMin <=? count) && (minStable <=? now s - lastChangeTs ps'), ps'),
     {| world := w; now := now s; userIds := userIds s; files := files s;
        trace := trace s ++ [EvExtract (Some (JsSet.of_array raw))] |}).
Proof.
  intros X count ps'. subst count ps'.
  unfold sample, extractUserIds, bind, host, emit, date_now, ret.
  rewrite Hopen. simpl. rewrite X. simpl.
  unfold JsSet.to_array. destruct (_ && _)%bool; reflexivity.
Qed.

End Stability.

(** C1 (as amended).  A sample whose value differs from the last one
    resets lastChangeTs to the time of the sample, a sample with the same
    value leaves it, and the sample ends the wait exactly when the value is
    at least requireMinCount and lastChangeTs is minStableMs or more in the
    past.  With one sample per tick and a window of three ticks that is
    the fourth consecutive sample of a value: on 0,0,3,3,3,5,5,5,5 the
    poller returns true at the fourth 5, the ninth sample; had 3 been
    sampled a fourth time it would return there; and after a regression to
    0 the count starts again. *)
Theorem poller_stability_window :
  (forall (W : Type) (H : Host W) (P : Parser) minStable requireMin ps (s : St W) raw w,
      page_open P = true ->
      h_extract H (world s) = (Some raw, w) ->
      exists ok ps' s',
        sample H P false minStable requireMin ps s = (Ret (ok, ps'), s')
        /\ let count := Z.of_nat (List.length (JsSet.of_array raw)) in
           (count <> lastCount ps ->
            lastCount ps' = count /\ lastChangeTs ps' = now s)
           /\ (count = lastCount ps -> ps' = ps)
           /\ (ok = true <->
               (requireMin <= count /\ minStable <= now s - lastChangeTs ps')%Z))
  /\ (exists s',
        waitForAnyUsers timeline_host default_parser 50 20000 (Some three_tick_opts)
          (timeline_start 0 probe_sequence (frame_count 5))
        = (Ret true, s')
        /\ sampled_counts (trace s') = [0; 0; 3; 3; 3; 5; 5; 5; 5]%nat
        /\ now s' = 4000%Z)
  /\ (exists s',
        waitForAnyUsers timeline_host default_parser 50 20000 (Some three_tick_opts)
          (timeline_start 0 (map frame_count [0; 0; 3; 3; 3; 3; 5; 5; 5]%nat)
                          (frame_count 5))
        = (Ret true, s')
        /\ sampled_counts (trace s') = [0; 0; 3; 3; 3; 3]%nat)
  /\ (exists s',
        waitForAnyUsers timeline_host default_parser 50 20000 (Some three_tick_opts)
          (timeline_start 0 (map frame_count [3; 3; 3; 0; 3; 3; 3; 3; 3]%nat)
                          (frame_count 3))
        = (Ret true, s')
        /\ sampled_counts (trace s') = [3; 3; 3; 0; 3; 3; 3; 3]%nat).
Proof.
  split; [|split; [|split]].
  - intros W H P minStable requireMin ps s raw w Hopen X.
    do 3 eexists. split; [apply (sample_counts H P Hopen _ _ _ _ X)|].
    cbv zeta. split; [|split].
    + intros Hne. apply Z.eqb_neq in Hne. rewrite Hne. simpl. auto.
    + intros He. apply Z.eqb_eq in He. rewrite He. reflexivity.
    + rewrite andb_true_iff, !Z.leb_le. reflexivity.
  - eexists. split; [vm_compute; reflexivity|]. split; vm_compute; reflexivity.
  - eexists. split; [vm_compute; reflexivity|]. vm_compute; reflexivity.
  - eexists. split; [vm_compute; reflexivity|]. vm_compute; reflexivity.
Qed.

Lemma poller_stability_window_witness :
  exists ok ps' s',
    sample timeline_host default_parser false 1500 1
           {| lastCount := 0; lastChangeTs := 0 |}
           (timeline_start 0 [frame_count 3] (frame_count 3))
    = (Ret (ok, ps'), s')
    /\ lastChangeTs ps' = 0%Z.
Proof.
  destruct (proj1 poller_stability_window Timeline timeline_host default_parser
                  1500%Z 1%Z {| lastCount := 0; lastChangeTs := 0 |}
                  (timeline_start 0 [frame_count 3] (frame_count 3))
                  (ids_upto 3)
                  {| tl_time := 0; tl_frames := [frame_count 3];
                     tl_rest := frame_count 3 |})
    as [ok [ps' [s' [E [R _]]]]].
  - reflexivity.
  - reflexivity.
  - exists ok, ps', s'. split; [exact E|]. apply R. vm_compute. discriminate.
Defined.

(** C1, as stated, fails: on 0,0,3,3,3,5,5,5,5 the poller is still
    waiting after the third sample of 3, which is two ticks after the first;
    it goes on to sample 5 and returns at the ninth sample. *)
Lemma poller_third_sample_counterexample :
  exists s',
    waitForAnyUsers timeline_host default_parser 50 20000 (Some three_tick_opts)
      (timeline_start 0 probe_sequence (frame_count 5))
    = (Ret true, s')
    /\ sampled_counts (trace s') = [0; 0; 3; 3; 3; 5; 5; 5; 5]%nat
    /\ sampled_counts (trace s') <> [0; 0; 3; 3; 3]%nat
    /\ samples_taken (trace s') = 9%nat.
Proof.
  eexists. split; [vm_compute; reflexivity|].
  split; [vm_compute; reflexivity|].
  split; [vm_compute; discriminate | vm_compute; reflexivity].
Qed.

(** ** The wait for the next button *)

Lemma idle_quiet evs :
  Forall (fun e => is_idle e = true) evs ->
  pages_processed evs = 0%nat /\ extracted evs = [] /\ writes evs = []
  /\ readiness_results evs = [].
Proof.
  induction 1 as [|e evs He Hevs IH]; [repeat split|].
  destruct IH as [I1 [I2 [I3 I4]]].
  unfold pages_processed, extracted, writes, readiness_results in *.
  destruct e as [| | | | | | |m|]; try discriminate; simpl; auto.
  destruct m; try discriminate; simpl; auto.
Qed.

Lemma enabled_counts_app a b :
  enabled_counts (a ++ b) = enabled_counts a ++ enabled_counts b.
Proof. apply flat_map_app. Qed.

Lemma JsSet_add_all_In xs : forall u id,
  In id (JsSet.add_all xs u) -> In id u \/ In id xs.
Proof.
  unfold JsSet.add_all.
  induction xs as [|x xs IH]; intros u id Hin; simpl in *; auto.
  apply IH in Hin as [Hin | Hin]; auto.
  unfold JsSet.add in Hin. destruct (JsSet.has x u); auto.
  apply in_app_or in Hin as [Hin | [<- | []]]; auto.
Qed.

Section Traversal.
Context {W : Type} (H : Host W) (P : Parser) (Hopen : page_open P = true).
Local Open Scope Z_scope.

Local Notation "m ;;; k" := (bind m (fun _ => k))
  (at level 61, right associativity).

Lemma steady_observed e w (s : St W) : steady s (observed e w s) [e].
Proof. unfold steady. auto. Qed.

Lemma count_run sel s :
  count H P sel s =
  (Ret (fst (h_count H sel (world s))),
   observed (EvCount sel (fst (h_count H sel (world s))))
            (snd (h_count H sel (world s))) s).
Proof.
  unfold count, on_page, bind, host, emit, ret. rewrite Hopen.
  destruct (h_count H sel (world s)) as [n w]. reflexivity.
Qed.

(** One round of the loop: an enabled button ends it; otherwise, whether a
    disabled button is there or none at all, it sleeps 500 ms and polls
    again. *)
Lemma next_button_loop_unfold fuel timeoutMs start s :
  next_button_loop H P (S fuel) timeoutMs start s =
  if lt_num (now s - start) timeoutMs then
    let n := fst (h_count H SelNextEnabled (world s)) in
    let s1 := observed (EvCount SelNextEnabled n)
                       (snd (h_count H SelNextEnabled (world s))) s in
    if negb (Nat.eqb n 0) then (Ret (Some SelNextEnabled), s1)
    else
      let m := fst (h_count H SelNextAny (world s1)) in
      let s2 := observed (EvCount SelNextAny m)
                         (snd (h_count H SelNextAny (world s1))) s1 in
      next_button_loop H P fuel timeoutMs start (slept H 500 s2)
  else (Ret None, s).
Proof.
  cbn [next_button_loop]. unfold bind at 1. unfold date_now at 1.
  destruct (lt_num (now s - start) timeoutMs); [|reflexivity].
  unfold bind at 1. rewrite count_run. cbv zeta.
  destruct (negb (Nat.eqb (fst (h_count H SelNextEnabled (world s))) 0));
    [reflexivity|].
  unfold bind at 1. rewrite count_run.
  destruct (negb (Nat.eqb _ 0));
    unfold bind, waitForTimeout, on_page, timer; rewrite Hopen; reflexivity.
Qed.

Lemma next_button_loop_spec fuel : forall timeoutMs start s,
  exists o s' evs,
    next_button_loop H P fuel timeoutMs start s = (o, s')
    /\ steady s s' evs
    /\ Forall (fun e => is_idle e = true) evs
    /\ match o with
       | Ret (Some sel) =>
           sel = SelNextEnabled
           /\ exists evs0 n, evs = evs0 ++ [EvCount SelNextEnabled n]
                             /\ n <> 0%nat
                             /\ Forall (fun k => k = 0%nat) (enabled_counts evs0)
       | Ret None =>
           Forall (fun k => k = 0%nat) (enabled_counts evs)
           /\ lt_num (now s' - start) timeoutMs = false
       | Throw => False
       | OutOfFuel =>
           500 * Z.of_nat fuel < remaining timeoutMs (now s - start) + 500
       end.
Proof.
  induction fuel as [|fuel IH]; intros timeoutMs start s.
  - exists OutOfFuel, s, []. split; [reflexivity|].
    split; [apply steady_refl|]. split; [constructor|].
    unfold remaining. destruct timeoutMs; simpl; lia.
  - rewrite next_button_loop_unfold.
    destruct (lt_num (now s - start) timeoutMs) eqn:Hlt.
    + cbv zeta.
      set (n := fst (h_count H SelNextEnabled (world s))).
      set (s1 := observed (EvCount SelNextEnabled n) _ s).
      destruct (Nat.eqb_spec n 0) as [Hn|Hn]; simpl negb; cbv iota.
      * set (m := fst (h_count H SelNextAny (world s1))).
        set (s2 := observed (EvCount SelNextAny m) _ s1).
        destruct (IH timeoutMs start (slept H 500 s2))
          as [o [s' [evs [E [St [Fi Ho]]]]]].
        exists o, s', ([EvCount SelNextEnabled n; EvCount SelNextAny m; EvSleep 500] ++ evs).
        split; [exact E|]. split.
        { destruct St as [T [U F]]. unfold steady. rewrite T, U, F. simpl.
          rewrite <- !app_assoc. auto. }
        split; [repeat (constructor; auto)|].
        destruct o as [[sel|]| |].
        { destruct Ho as [-> [evs0 [k [-> [Hk F0]]]]]. split; auto.
          exists ([EvCount SelNextEnabled n; EvCount SelNextAny m; EvSleep 500] ++ evs0), k.
          split; [now rewrite <- app_assoc|]. split; auto.
          simpl. constructor; auto. }
        { destruct Ho as [F0 Hend]. split; auto. simpl. constructor; auto. }
        { exact Ho. }
        { revert Ho. unfold remaining. subst s2 s1. cbn [now slept observed].
          destruct timeoutMs as [t|]; simpl in Hlt; [|discriminate].
          apply Z.ltb_lt in Hlt. lia. }
      * exists (Ret (Some SelNextEnabled)), s1, [EvCount SelNextEnabled n].
        split; [reflexivity|]. split; [apply steady_observed|].
        split; [repeat constructor|]. split; auto.
        exists [], n. repeat split; auto.
    + exists (Ret None), s, []. split; [reflexivity|].
      split; [apply steady_refl|]. split; [constructor|].
      split; [constructor | exact Hlt].
Qed.

Lemma next_fuel_enough timeoutMs fuel :
  (next_fuel timeoutMs <= fuel)%nat ->
  remaining timeoutMs 0 + 500 <= 500 * Z.of_nat fuel.
Proof.
  unfold next_fuel, remaining. destruct timeoutMs as [t|]; intros Hf.
  - now apply poll_fuel_enough.
  - lia.
Qed.

Lemma waitForNextPageButton_spec fuel timeoutMs s :
  exists o s' evs,
    waitForNextPageButton H P fuel timeoutMs s = (o, s')
    /\ steady s s' evs
    /\ Forall (fun e => is_idle e = true) evs
    /\ match o with
       | Ret (Some sel) =>
           sel = SelNextEnabled
           /\ exists evs0 n, evs = evs0 ++ [EvCount SelNextEnabled n]
                             /\ n <> 0%nat
                             /\ Forall (fun k => k = 0%nat) (enabled_counts evs0)
       | Ret None =>
           Forall (fun k => k = 0%nat) (enabled_counts evs)
           /\ lt_num (now s' - now s) timeoutMs = false
       | Throw => False
       | OutOfFuel => (fuel < next_fuel timeoutMs)%nat
       end.
Proof.
  unfold waitForNextPageButton. rewrite Hopen.
  unfold bind at 1. unfold date_now at 1.
  destruct (next_button_loop_spec fuel timeoutMs (now s) s)
    as [o [s' [evs [E [St [Fi Ho]]]]]].
  exists o, s', evs. split; [exact E|]. split; auto. split; auto.
  destruct o as [[sel|]| |]; auto.
  destruct (Nat.lt_ge_cases fuel (next_fuel timeoutMs)) as [|Hge]; auto.
  apply next_fuel_enough in Hge.
  replace (now s - now s) with 0 in Ho by lia. lia.
Qed.

(** *** The traversal loop *)

Lemma extractUserIds_run s :
  extractUserIds H P s =
  match h_extract H (world s) with
  | (Some raw, w) =>
      (Ret (JsSet.of_array raw), observed (EvExtract (Some (JsSet.of_array raw))) w s)
  | (None, w) => (Throw, observed (EvExtract None) w s)
  end.
Proof.
  unfold extractUserIds, bind, host, emit, ret, throw. rewrite Hopen.
  destruct (h_extract H (world s)) as [[raw|] w]; reflexivity.
Qed.

Lemma advanced_run loc s :
  (host (fun w => (tt, h_scroll H loc w)) ;;;
   click H loc ;;;
   waitForLoadState_caught H P ;;;
   delay H 6000 8000) s = (Ret tt, advanced H P loc s)
  /\ exists evs, steady s (advanced H P loc s) evs
                 /\ Forall (fun e => is_idle e = true) evs.
Proof.
  unfold advanced.
  cbv [bind host click waitForLoadState_caught on_page delay timer emit ret].
  rewrite Hopen. cbv beta iota. cbn [world now userIds files trace].
  destruct (h_click H loc (h_scroll H loc (world s))) as [ok w2].
  cbv beta iota. cbn [world now userIds files trace].
  destruct (h_loadState H w2) as [st w3].
  cbv beta iota. cbn [world now userIds files trace].
  destruct (h_randomBelow H (8000 - 6000 + 1) w3) as [k w4].
  cbv beta iota. cbn [world now userIds files trace snd].
  split; [reflexivity|].
  exists [EvClick loc ok; EvSleep (k + 6000)]. unfold steady, slept.
  cbn [world now userIds files trace]. rewrite <- app_assoc.
  split; [split; [reflexivity | auto]|]. repeat constructor.
Qed.

(** One round of the traversal: the page is extracted and merged; then
    a next button that is enabled within its wait advances the
    traversal, and [null] ends it. *)
Lemma collect_loop_unfold fuel currentPage s :
  collect_loop H P (S fuel) currentPage s =
  if currentPage <=? max_pages P then
    match extractUserIds H P (observed (EvLog (LogPage currentPage)) (world s) s) with
    | (Ret pageIds, s1) =>
        match waitForNextPageButton H P fuel (NEXT_ENABLE_WAIT_MS P)
                                    (merged pageIds s1) with
        | (Ret None, s2) => (Ret tt, observed (EvLog LogNoNextButton) (world s2) s2)
        | (Ret (Some loc), s2) =>
            collect_loop H P fuel (currentPage + 1) (advanced H P loc s2)
        | (Throw, s2) => (Throw, s2)
        | (OutOfFuel, s2) => (OutOfFuel, s2)
        end
    | (Throw, s1) => (Throw, s1)
    | (OutOfFuel, s1) => (OutOfFuel, s1)
    end
  else (Ret tt, s).
Proof.
  cbn [collect_loop].
  destruct (currentPage <=? max_pages P); [|reflexivity].
  unfold bind at 1. unfold emit at 1. fold (observed (EvLog (LogPage currentPage)) (world s) s).
  unfold bind at 1.
  destruct (extractUserIds H P _) as [[pageIds| |] s1]; try reflexivity.
  unfold bind at 1. unfold emit at 1. unfold bind at 1. unfold get_userIds at 1.
  unfold bind at 1. unfold set_userIds at 1. cbn [userIds world now files trace].
  fold (merged pageIds s1).
  unfold bind at 1.
  destruct (waitForNextPageButton H P fuel _ _) as [[[loc|]| |] s2]; try reflexivity.
  destruct (advanced_run loc s2) as [R _].
  revert R. unfold bind. 
  destruct (host _ s2) as [[[]| |] s3]; try discriminate.
  destruct (click H loc s3) as [[ok| |] s4]; try discriminate.
  destruct (waitForLoadState_caught H P s4) as [[[]| |] s5]; try discriminate.
  destruct (delay H 6000 8000 s5) as [[[]| |] s6]; try discriminate.
  intros R. injection R as <-. reflexivity.
Qed.

Lemma collect_loop_spec fuel : forall currentPage s,
  exists o s' evs,
    collect_loop H P fuel currentPage s = (o, s')
    /\ trace s' = trace s ++ evs /\ files s' = files s
    /\ (pages_processed evs <= Z.to_nat (max_pages P - currentPage + 1))%nat
    /\ (forall id, In id (userIds s') -> In id (userIds s) \/ In id (extracted evs))
    /\ ((Z.to_nat (max_pages P - currentPage + 1)
         + next_fuel (NEXT_ENABLE_WAIT_MS P) + 1 <= fuel)%nat -> o <> OutOfFuel)
    /\ ((forall w, fst (h_extract H w) <> None) -> o <> Throw).
Proof.
  induction fuel as [|fuel IH]; intros currentPage s.
  - exists OutOfFuel, s, []. split; [reflexivity|].
    rewrite app_nil_r. split; auto. split; auto.
    split; [change (pages_processed []) with 0%nat; lia|]. split; [auto|].
    split; [intros; lia | discriminate].
  - rewrite collect_loop_unfold.
    destruct (Z.leb_spec currentPage (max_pages P)) as [Hle|Hgt].
    + rewrite extractUserIds_run. cbn [world observed].
      pose proof (fun Hx : forall w, fst (h_extract H w) <> None => Hx (world s)) as Hxs.
      destruct (h_extract H (world s)) as [[raw|] w1].
      * set (s1 := observed (EvExtract (Some (JsSet.of_array raw))) w1 _).
        destruct (waitForNextPageButton_spec fuel (NEXT_ENABLE_WAIT_MS P)
                    (merged (JsSet.of_array raw) s1))
          as [o2 [s2 [evs2 [E2 [[T2 [U2 F2]] [I2 Ho2]]]]]].
        rewrite E2.
        destruct (idle_quiet I2) as [Q1 [Q2 _]].
        destruct o2 as [[loc|]| |].
        { destruct (advanced_run loc s2) as [_ [evs3 [[T3 [U3 F3]] I3]]].
          destruct (idle_quiet I3) as [R1 [R2 _]].
          destruct (IH (currentPage + 1) (advanced H P loc s2))
            as [o [s' [evs [E [T [F [Pg [Ids [NF NT]]]]]]]]].
          exists o, s',
            ([EvLog (LogPage currentPage); EvExtract (Some (JsSet.of_array raw));
              EvLog (LogFound (List.length (JsSet.of_array raw)))]
               ++ evs2 ++ evs3 ++ evs).
          split; [exact E|]. split.
          { rewrite T, T3, T2. subst s1. simpl. now rewrite <- !app_assoc. }
          split.
          { rewrite F, F3, F2. reflexivity. }
          split.
          { rewrite !pages_processed_app, Q1, R1.
            change (pages_processed [_; _; _]) with 1%nat. lia. }
          split.
          { intros id Hin. apply Ids in Hin as [Hin | Hin].
            - rewrite U3, U2 in Hin. cbn [userIds merged] in Hin.
              apply JsSet_add_all_In in Hin as [Hin | Hin].
              + left. exact Hin.
              + right. rewrite extracted_app. apply in_or_app. left.
                simpl. now rewrite app_nil_r.
            - right. rewrite !extracted_app, Q2, R2. simpl.
              apply in_or_app. now right. }
          split.
          { intros Hf. apply NF. lia. }
          { intros Hx. now apply NT. } }
        { exists (Ret tt), (observed (EvLog LogNoNextButton) (world s2) s2),
            ([EvLog (LogPage currentPage); EvExtract (Some (JsSet.of_array raw));
              EvLog (LogFound (List.length (JsSet.of_array raw)))]
               ++ evs2 ++ [EvLog LogNoNextButton]).
          split; [reflexivity|]. split.
          { cbn [trace observed]. rewrite T2. subst s1. simpl.
            now rewrite <- !app_assoc. }
          split; [cbn [files observed]; now rewrite F2|].
          split.
          { rewrite !pages_processed_app, Q1.
            change (pages_processed [_; _; _]) with 1%nat.
            change (pages_processed [_]) with 0%nat. lia. }
          split.
          { intros id Hin. cbn [userIds observed] in Hin. rewrite U2 in Hin.
            cbn [userIds merged] in Hin.
            apply JsSet_add_all_In in Hin as [Hin | Hin].
            - left. exact Hin.
            - right. rewrite extracted_app. apply in_or_app. left.
              simpl. now rewrite app_nil_r. }
          split; discriminate. }
        { contradiction. }
        { exists OutOfFuel, s2,
            ([EvLog (LogPage currentPage); EvExtract (Some (JsSet.of_array raw));
              EvLog (LogFound (List.length (JsSet.of_array raw)))] ++ evs2).
          split; [reflexivity|]. split.
          { rewrite T2. subst s1. simpl. now rewrite <- !app_assoc. }
          split; [now rewrite F2|].
          split.
          { rewrite !pages_processed_app, Q1.
            change (pages_processed [_; _; _]) with 1%nat. lia. }
          split.
          { intros id Hin. rewrite U2 in Hin. cbn [userIds merged] in Hin.
            apply JsSet_add_all_In in Hin as [Hin | Hin].
            - left. exact Hin.
            - right. rewrite extracted_app. apply in_or_app. left.
              simpl. now rewrite app_nil_r. }
          split; [lia | discriminate]. }
      * exists Throw, (observed (EvExtract None) w1
                        (observed (EvLog (LogPage currentPage)) (world s) s)),
          [EvLog (LogPage currentPage); EvExtract None].
        split; [reflexivity|]. split; [simpl; now rewrite <- app_assoc|].
        split; [reflexivity|].
        split; [change (pages_processed [_; _]) with 1%nat; lia|].
        split; [auto|]. split; [discriminate|].
        intros Hx. elim (Hxs Hx). reflexivity.
    + exists (Ret tt), s, []. split; [reflexivity|].
      rewrite app_nil_r. split; auto. split; auto.
      split; [change (pages_processed []) with 0%nat; lia|]. split; [auto|]. split; discriminate.
Qed.

(** *** The traversal *)

Lemma loadState_run s :
  exists s1, waitForLoadState_caught H P s = (Ret tt, s1) /\ steady s s1 [].
Proof.
  unfold waitForLoadState_caught, on_page, bind, host, ret. rewrite Hopen.
  destruct (h_loadState H (world s)) as [ok w]. eexists. split; [reflexivity|].
  unfold steady. simpl. now rewrite app_nil_r.
Qed.

(** The state with another accumulator. *)
Lemma collectAllContactIds_clears fuel s u :
  collectAllContactIds H P fuel
    {| world := world s; now := now s; userIds := u; files := files s;
       trace := trace s |}
  = collectAllContactIds H P fuel
    {| world := world s; now := now s; userIds := []; files := files s;
       trace := trace s |}.
Proof. unfold collectAllContactIds. rewrite Hopen. reflexivity. Qed.

Lemma probes_no_page evs :
  Forall (fun e => is_probe e = true) evs -> pages_processed evs = 0%nat.
Proof. intros F. now destruct (probes_quiet F). Qed.

Lemma collectAllContactIds_spec fuel s :
  exists o s' evs,
    collectAllContactIds H P fuel s = (o, s')
    /\ trace s' = trace s ++ evs /\ files s' = files s
    /\ (pages_processed evs <= Z.to_nat (max_pages P))%nat
    /\ (forall id, In id (userIds s') -> In id (extracted evs))
    /\ (forall ids, o = Ret ids -> ids = userIds s')
    /\ ((traversal_fuel P <= fuel)%nat -> o <> OutOfFuel)
    /\ ((forall w, fst (h_extract H w) <> None) -> o <> Throw).
Proof.
  unfold collectAllContactIds. rewrite Hopen.
  unfold bind at 1. unfold set_userIds at 1.
  set (s0 := {| world := world s; now := now s; userIds := JsSet.empty;
                files := files s; trace := trace s |}).
  unfold bind at 1.
  destruct (loadState_run s0) as [s1 [E1 [T1 [U1 F1]]]]. rewrite E1.
  unfold bind at 1.
  destruct (waitForAnyUsers_spec H P Hopen fuel 20000 None s1)
    as [o2 [s2 [evs2 [E2 [Pr2 Ho2]]]]].
  rewrite E2. rewrite app_nil_r in T1.
  destruct o2 as [ok| |]; [| contradiction |].
  - destruct Ho2 as [T2 [U2 F2]].
    assert (exists s3 evs3,
               (if ok then ret tt
                else emit (EvLog LogNotLoadedYet) ;;; waitForTimeout H P 1500) s2
               = (Ret tt, s3)
               /\ steady s2 s3 evs3 /\ Forall (fun e => is_idle e = true) evs3)
      as [s3 [evs3 [E3 [[T3 [U3 F3]] I3]]]].
    { destruct ok.
      - exists s2, []. split; [reflexivity|]. split; [apply steady_refl | constructor].
      - unfold bind, emit, waitForTimeout, on_page, timer. rewrite Hopen.
        eexists. exists [EvLog LogNotLoadedYet; EvSleep 1500].
        split; [reflexivity|]. unfold steady, slept. simpl.
        rewrite <- app_assoc. split; auto; repeat constructor. }
    unfold bind at 1. rewrite E3. unfold bind at 1.
    destruct (collect_loop_spec fuel 1 s3)
      as [o4 [s4 [evs4 [E4 [T4 [F4 [Pg4 [Ids4 [NF4 NT4]]]]]]]]].
    rewrite E4.
    destruct (idle_quiet I3) as [Q1 [Q2 _]].
    assert (Ht : trace s4 = trace s ++ (evs2 ++ [EvReadiness ok]) ++ evs3 ++ evs4).
    { rewrite T4, T3, T2, T1. subst s0. simpl. now rewrite <- !app_assoc. }
    assert (Hf : files s4 = files s).
    { rewrite F4, F3, F2, F1. reflexivity. }
    assert (Hp : (pages_processed ((evs2 ++ [EvReadiness ok]) ++ evs3 ++ evs4)
                  <= Z.to_nat (max_pages P))%nat).
    { rewrite !pages_processed_app, (probes_no_page Pr2), Q1.
      change (pages_processed [_]) with 0%nat.
      replace (max_pages P - 1 + 1) with (max_pages P) in Pg4 by lia. lia. }
    assert (Hi : forall id, In id (userIds s4) ->
                            In id (extracted ((evs2 ++ [EvReadiness ok]) ++ evs3 ++ evs4))).
    { intros id Hin. apply Ids4 in Hin as [Hin | Hin].
      - rewrite U3, U2, U1 in Hin. subst s0. simpl in Hin. contradiction.
      - rewrite !extracted_app. apply in_or_app. right.
        apply in_or_app. now right. }
    assert (Hnf : (traversal_fuel P <= fuel)%nat -> o4 <> OutOfFuel).
    { intros Hfu. apply NF4. unfold traversal_fuel in Hfu.
      replace (max_pages P - 1 + 1) with (max_pages P) by lia.
      unfold poll_fuel in Hfu. lia. }
    destruct o4 as [[]| |].
    + exists (Ret (JsSet.to_array (userIds s4))), s4,
        ((evs2 ++ [EvReadiness ok]) ++ evs3 ++ evs4).
      split; [reflexivity|]. split; auto. split; auto. split; auto. split; auto.
      split; [intros ids E; now injection E as <-|]. split; discriminate.
    + exists Throw, s4, ((evs2 ++ [EvReadiness ok]) ++ evs3 ++ evs4).
      split; [reflexivity|]. split; auto. split; auto. split; auto. split; auto.
      split; [discriminate|]. split; [discriminate|].
      intros Hx. now elim (NT4 Hx).
    + exists OutOfFuel, s4, ((evs2 ++ [EvReadiness ok]) ++ evs3 ++ evs4).
      split; [reflexivity|]. split; auto. split; auto. split; auto. split; auto.
      split; [discriminate|]. split; [|discriminate].
      intros Hfu. now elim (Hnf Hfu).
  - destruct Ho2 as [[T2 [U2 F2]] Hlow].
    exists OutOfFuel, s2, evs2. split; [reflexivity|].
    split; [rewrite T2, T1; subst s0; reflexivity|].
    split; [rewrite F2, F1; reflexivity|].
    split; [rewrite (probes_no_page Pr2); lia|].
    split; [intros id Hin; rewrite U2, U1 in Hin; subst s0; simpl in Hin; contradiction|].
    split; [discriminate|].
    split; [|discriminate].
    intros Hfu. unfold traversal_fuel in Hfu. lia.
Qed.

End Traversal.

(** ** The earlier traversal (bothunter-vk-simple.ts) *)

Section SimpleTraversal.
Context {W : Type} (H : Host W) (P : Parser) (Hopen : page_open P = true).
Local Open Scope Z_scope.

Local Notation "x <- m ;; k" := (bind m (fun x => k))
  (at level 61, m at next level, right associativity).
Local Notation "m ;;; k" := (bind m (fun _ => k))
  (at level 61, right associativity).

Lemma collect_loop_simple_unfold fuel currentPage :
  collect_loop_simple H P (S fuel) currentPage =
  if currentPage <=? max_pages P then
    emit (EvLog (LogPage currentPage)) ;;;
    pageIds <- extractUserIds H P ;;
    emit (EvLog (LogFound (List.length pageIds))) ;;;
    u <- get_userIds ;;
    set_userIds (JsSet.add_all pageIds u) ;;;
    nextButton <- query H P SelNextSimple ;;
    if nextButton then
      r <- host (h_isDisabled H SelNextSimple) ;;
      match r with
      | None => throw
      | Some isDisabled =>
          if isDisabled then emit (EvLog LogLastPage) ;;; ret tt
          else
            clicked <- click H SelNextSimple ;;
            if negb clicked then throw
            else
              settled <- on_page P (host (h_loadState H)) ;;
              if negb settled then throw
              else
                delay H 1000 2000 ;;;
                collect_loop_simple H P fuel (currentPage + 1)
      end
    else emit (EvLog LogNoNextButton) ;;; ret tt
  else ret tt.
Proof. reflexivity. Qed.

Ltac count_pages :=
  rewrite ?pages_processed_app; unfold pages_processed in *; simpl; lia.

Ltac in_extracted :=
  unfold extracted in *; simpl; unfold JsSet.to_array in *;
  rewrite ?app_nil_r; try apply in_or_app; auto.

Ltac finish_round IH :=
  match goal with
  | |- context [collect_loop_simple H P ?f ?p ?st] =>
      destruct (IH p st) as [o [s' [evs [E [T [F [Pg [Ids NF]]]]]]]];
      exists o, s'; eexists; split; [exact E|];
      unfold slept in T, F, Ids; cbn [trace files userIds] in T, F, Ids;
      split; [rewrite T; rewrite <- !app_assoc; reflexivity|];
      split; [rewrite F; reflexivity|]
  | |- _ =>
      do 3 eexists; split; [reflexivity|];
      split; [cbn [trace]; rewrite <- !app_assoc; reflexivity|];
      split; [reflexivity|]
  end.

Lemma collect_loop_simple_spec fuel : forall currentPage s,
  exists o s' evs,
    collect_loop_simple H P fuel currentPage s = (o, s')
    /\ trace s' = trace s ++ evs /\ files s' = files s
    /\ (pages_processed evs <= Z.to_nat (max_pages P - currentPage + 1))%nat
    /\ (forall id, In id (userIds s') -> In id (userIds s) \/ In id (extracted evs))
    /\ ((Z.to_nat (max_pages P - currentPage + 1) + 1 <= fuel)%nat -> o <> OutOfFuel).
Proof.
  induction fuel as [|fuel IH]; intros currentPage s.
  - exists OutOfFuel, s, []. split; [reflexivity|].
    rewrite app_nil_r. split; auto. split; auto.
    split; [change (pages_processed []) with 0%nat; lia|]. split; [auto|].
    intros; lia.
  - rewrite collect_loop_simple_unfold.
    destruct (Z.leb_spec currentPage (max_pages P)) as [Hle|Hgt].
    + cbv [bind emit extractUserIds host get_userIds set_userIds query on_page
             click delay timer ret throw].
      rewrite Hopen. cbv beta iota. cbn [world now userIds files trace].
      destruct (h_extract H (world s)) as [[raw|] w1];
        cbv beta iota; cbn [world now userIds files trace].
      * destruct (h_query H SelNextSimple w1) as [[[|]|] w2];
          cbv beta iota; cbn [world now userIds files trace].
        { destruct (h_isDisabled H SelNextSimple w2) as [[[|]|] w3];
            cbv beta iota; cbn [world now userIds files trace].
          - finish_round IH. split.
            + count_pages.
            + split; [|discriminate]. intros id Hin. cbn [userIds] in Hin.
              apply JsSet_add_all_In in Hin as [Hin | Hin]; auto.
              right. in_extracted.
          - destruct (h_click H SelNextSimple w3) as [[|] w4];
              cbv beta iota; cbn [world now userIds files trace negb].
            + destruct (h_loadState H w4) as [[|] w5];
                cbv beta iota; cbn [world now userIds files trace negb].
              * destruct (h_randomBelow H (2000 - 1000 + 1) w5) as [k w6];
                  cbv beta iota; cbn [world now userIds files trace slept].
                finish_round IH. split.
                { count_pages. }
                split.
                { intros id Hin. apply Ids in Hin as [Hin | Hin].
                  - cbn [userIds] in Hin.
                    apply JsSet_add_all_In in Hin as [Hin | Hin]; auto.
                    right. in_extracted.
                  - right. in_extracted. }
                { intros Hf. apply NF. lia. }
              * finish_round IH. split.
                { count_pages. }
                split; [|discriminate]. intros id Hin. cbn [userIds] in Hin.
                apply JsSet_add_all_In in Hin as [Hin | Hin]; auto.
                right. in_extracted.
            + finish_round IH. split.
              { count_pages. }
              split; [|discriminate]. intros id Hin. cbn [userIds] in Hin.
              apply JsSet_add_all_In in Hin as [Hin | Hin]; auto.
              right. in_extracted.
          - finish_round IH. split.
            + count_pages.
            + split; [|discriminate]. intros id Hin. cbn [userIds] in Hin.
              apply JsSet_add_all_In in Hin as [Hin | Hin]; auto.
              right. in_extracted. }
        { finish_round IH. split.
          - count_pages.
          - split; [|discriminate]. intros id Hin. cbn [userIds] in Hin.
            apply JsSet_add_all_In in Hin as [Hin | Hin]; auto.
            right. in_extracted. }
        { finish_round IH. split.
          - count_pages.
          - split; [|discriminate]. intros id Hin. cbn [userIds] in Hin.
            apply JsSet_add_all_In in Hin as [Hin | Hin]; auto.
            right. in_extracted. }
      * finish_round IH. split.
        { count_pages. }
        split; [auto | discriminate].
    + exists (Ret tt), s, []. split; [reflexivity|].
      rewrite app_nil_r. split; auto. split; auto.
      split; [change (pages_processed []) with 0%nat; lia|]. split; [auto|].
      discriminate.
Qed.

Lemma collectAllContactIds_simple_clears fuel s u :
  collectAllContactIds_simple H P fuel
    {| world := world s; now := now s; userIds := u; files := files s;
       trace := trace s |}
  = collectAllContactIds_simple H P fuel
    {| world := world s; now := now s; userIds := []; files := files s;
       trace := trace s |}.
Proof. unfold collectAllContactIds_simple. rewrite Hopen. reflexivity. Qed.

Lemma collectAllContactIds_simple_spec fuel s :
  exists o s' evs,
    collectAllContactIds_simple H P fuel s = (o, s')
    /\ trace s' = trace s ++ evs /\ files s' = files s
    /\ (pages_processed evs <= Z.to_nat (max_pages P))%nat
    /\ (forall id, In id (userIds s') -> In id (extracted evs))
    /\ (forall ids, o = Ret ids -> ids = userIds s')
    /\ ((Z.to_nat (max_pages P) + 1 <= fuel)%nat -> o <> OutOfFuel).
Proof.
  unfold collectAllContactIds_simple. rewrite Hopen.
  unfold bind at 1. unfold set_userIds at 1. unfold bind at 1.
  destruct (collect_loop_simple_spec fuel 1
              {| world := world s; now := now s; userIds := JsSet.empty;
                 files := files s; trace := trace s |})
    as [o [s' [evs [E [T [F [Pg [Ids NF]]]]]]]].
  rewrite E. replace (max_pages P - 1 + 1) with (max_pages P) in * by lia.
  assert (Hi : forall id, In id (userIds s') -> In id (extracted evs)).
  { intros id Hin. apply Ids in Hin as [[] | Hin]. exact Hin. }
  destruct o as [[]| |].
  - exists (Ret (JsSet.to_array (userIds s'))), s', evs.
    split; [reflexivity|]. repeat (split; auto).
    + intros ids Er. now injection Er as <-.
    + discriminate.
  - exists Throw, s', evs. split; [reflexivity|]. repeat (split; auto);
      discriminate.
  - exists OutOfFuel, s', evs. split; [reflexivity|]. repeat (split; auto).
    + discriminate.
    + intros Hf. now elim (NF Hf).
Qed.

End SimpleTraversal.

(** ** Termination under the page ceiling, and the accumulator *)

Section AlwaysEnabled.
Context {W : Type} (H : Host W) (P : Parser) (Hopen : page_open P = true).
Context (Henabled : forall w, fst (h_count H SelNextEnabled w) <> 0%nat).
Context (Hextract : forall w, fst (h_extract H w) <> None).
Context (timeoutMs : Z) (Hwait : NEXT_ENABLE_WAIT_MS P = Some timeoutMs)
        (Hpositive : (0 < timeoutMs)%Z).
Local Open Scope Z_scope.



End AlwaysEnabled.



Lemma St_eta {W : Type} (s : St W) :
  {| world := world s; now := now s; userIds := userIds s; files := files s;
     trace := trace s |} = s.
Proof. now destruct s. Qed.

(** C3.  A traversal that returns hands back its accumulator, and every
    identifier in it was extracted during this traversal: the run is the
    same whatever the accumulator held before, so no identifier of an
    earlier target is in the output of a later one.  This holds from any
    state, hence for every sequence of traversals, and for both versions
    of the traversal. *)
Theorem traversal_output_is_its_own
        {W : Type} (H : Host W) (P : Parser) (Hopen : page_open P = true) :
  (forall fuel (s : St W) ids s',
      collectAllContactIds H P fuel s = (Ret ids, s') ->
      ids = userIds s'
      /\ (exists evs, trace s' = trace s ++ evs
                      /\ forall id, In id ids -> In id (extracted evs))
      /\ (forall before,
            collectAllContactIds H P fuel
              {| world := world s; now := now s; userIds := before;
                 files := files s; trace := trace s |}
            = (Ret ids, s')))
  /\ (forall fuel (s : St W) ids s',
      collectAllContactIds_simple H P fuel s = (Ret ids, s') ->
      ids = userIds s'
      /\ (exists evs, trace s' = trace s ++ evs
                      /\ forall id, In id ids -> In id (extracted evs))
      /\ (forall before,
            collectAllContactIds_simple H P fuel
              {| world := world s; now := now s; userIds := before;
                 files := files s; trace := trace s |}
            = (Ret ids, s'))).
Proof.
  split; intros fuel s ids s' Hrun.
  - destruct (collectAllContactIds_spec H P Hopen fuel s)
      as [o [s1 [evs [E [T [_ [_ [Ids [R _]]]]]]]]].
    rewrite Hrun in E. injection E as <- <-.
    specialize (R ids eq_refl). split; [exact R|]. split.
    + exists evs. split; auto. intros id Hin. apply Ids. now rewrite <- R.
    + intros before. rewrite (collectAllContactIds_clears H P Hopen).
      rewrite <- (collectAllContactIds_clears H P Hopen fuel s (userIds s)).
      now rewrite St_eta.
  - destruct (collectAllContactIds_simple_spec H P Hopen fuel s)
      as [o [s1 [evs [E [T [_ [_ [Ids [R _]]]]]]]]].
    rewrite Hrun in E. injection E as <- <-.
    specialize (R ids eq_refl). split; [exact R|]. split.
    + exists evs. split; auto. intros id Hin. apply Ids. now rewrite <- R.
    + intros before. rewrite (collectAllContactIds_simple_clears H P Hopen).
      rewrite <- (collectAllContactIds_simple_clears H P Hopen fuel s (userIds s)).
      now rewrite St_eta.
Qed.

Lemma traversal_output_is_its_own_witness :
  exists s',
    collectAllContactIds site_host default_parser 30 after_community_A
    = (Ret [js "9"], s')
    /\ userIds s' = [js "9"].
Proof.
  destruct (collectAllContactIds site_host default_parser 30 after_community_A)
    as [o s'] eqn:E.
  assert (Ho : o = Ret [js "9"]).
  { revert E. vm_compute. intros E. now injection E as <- _. }
  subst o. exists s'. split; [reflexivity|].
  destruct (proj1 (@traversal_output_is_its_own Site site_host default_parser eq_refl)
                  30%nat after_community_A [js "9"] s' E) as [R _].
  now rewrite <- R.
Defined.

(** The end-to-end scenario of the specification: communities A (two
    pages, "1","2" then "2","3") and B (one page, "9") yield one file
    each, with A's three identifiers and with B's one. *)
Example two_communities_two_files :
  exists s',
    @parseGroupsMode example_runtime Site site_host default_parser 30
                     (site_start two_communities)
    = (Ret tt, s')
    /\ writes (trace s')
       = [ (js "bothunter_ids_06112025225301_group_Alpha_ab12cd.txt",
            js "1" ++ newline ++ js "2" ++ newline ++ js "3");
           (js "bothunter_ids_06112025225301_group_Beta_ab12cd.txt", js "9") ].
Proof. eexists. split; vm_compute; reflexivity. Qed.

(** The filter scenario run through parseListsMode: with the keyword
    "отказ" one file is written, for the list "Отказ"; with a keyword that
    matches no list, one file for each of the three lists (the slug of
    the third has lost the breve of its й). *)
Example three_lists_filtered :
  (exists s',
      @parseListsMode example_runtime Site site_host (parser_filtering "отказ") 30
                      (site_start three_lists)
      = (Ret tt, s')
      /\ writes (trace s')
         = [ (js "bothunter_ids_06112025225301_list_Отказ_ab12cd.txt", js "21") ])
  /\ (exists s',
        @parseListsMode example_runtime Site site_host (parser_filtering "нет такого") 30
                        (site_start three_lists)
        = (Ret tt, s')
        /\ map fst (writes (trace s'))
           = [ js "bothunter_ids_06112025225301_list_В_работе_ab12cd.txt";
               js "bothunter_ids_06112025225301_list_Отказ_ab12cd.txt";
               js "bothunter_ids_06112025225301_list_Случаиное_ab12cd.txt" ]).
Proof.
  split; eexists; (split; [vm_compute; reflexivity|]); vm_compute; reflexivity.
Qed.

(** ** The three outcomes of the wait for the next button *)

(** C7 (as amended).  While its wait lasts, a round of the seek that sees
    an enabled next button returns its locator, and a round that sees none
    sleeps 500 ms and polls again, whether a disabled button is present or
    no button at all.  The seek therefore returns the enabled button as
    soon as a poll sees one, and returns null only once its wait has
    elapsed without that.  In the traversal, a locator leads on to the
    next page and null ends the traversal. *)
Theorem advance_seek_outcomes
        {W : Type} (H : Host W) (P : Parser) (Hopen : page_open P = true) :
  (forall fuel timeoutMs start (s : St W),
      lt_num (now s - start) timeoutMs = true ->
      let n := fst (h_count H SelNextEnabled (world s)) in
      let s1 := observed (EvCount SelNextEnabled n)
                         (snd (h_count H SelNextEnabled (world s))) s in
      let m := fst (h_count H SelNextAny (world s1)) in
      let s2 := observed (EvCount SelNextAny m)
                         (snd (h_count H SelNextAny (world s1))) s1 in
      (n <> 0%nat ->
       next_button_loop H P (S fuel) timeoutMs start s
       = (Ret (Some SelNextEnabled), s1))
      /\ (n = 0%nat ->
          next_button_loop H P (S fuel) timeoutMs start s
          = next_button_loop H P fuel timeoutMs start (slept H 500 s2)))
  /\ (forall fuel timeoutMs (s : St W),
        (next_fuel timeoutMs <= fuel)%nat ->
        exists r s' evs,
          waitForNextPageButton H P fuel timeoutMs s = (Ret r, s')
          /\ steady s s' evs
          /\ match r with
             | Some loc =>
                 loc = SelNextEnabled
                 /\ exists evs0 n, evs = evs0 ++ [EvCount SelNextEnabled n]
                                   /\ n <> 0%nat
                                   /\ Forall (fun k => k = 0%nat) (enabled_counts evs0)
             | None =>
                 Forall (fun k => k = 0%nat) (enabled_counts evs)
                 /\ lt_num (now s' - now s) timeoutMs = false
             end)
  /\ (forall fuel currentPage (s : St W) pageIds s1 r s2,
        (currentPage <= max_pages P)%Z ->
        extractUserIds H P (observed (EvLog (LogPage currentPage)) (world s) s)
        = (Ret pageIds, s1) ->
        waitForNextPageButton H P fuel (NEXT_ENABLE_WAIT_MS P) (merged pageIds s1)
        = (Ret r, s2) ->
        collect_loop H P (S fuel) currentPage s =
        match r with
        | Some loc => collect_loop H P fuel (currentPage + 1) (advanced H P loc s2)
        | None => (Ret tt, observed (EvLog LogNoNextButton) (world s2) s2)
        end).
Proof.
  split; [|split].
  - intros fuel timeoutMs start s Hlt n s1 m s2.
    rewrite (next_button_loop_unfold H P Hopen), Hlt. fold n s1 m s2. cbv zeta.
    split; intros Hn.
    + apply Nat.eqb_neq in Hn. now rewrite Hn.
    + apply Nat.eqb_eq in Hn. now rewrite Hn.
  - intros fuel timeoutMs s Hfuel.
    destruct (waitForNextPageButton_spec H P Hopen fuel timeoutMs s)
      as [o [s' [evs [E [St [_ Ho]]]]]].
    destruct o as [r| |]; [| contradiction | lia].
    exists r, s', evs. split; [exact E|]. split; [exact St|]. exact Ho.
  - intros fuel currentPage s pageIds s1 r s2 Hle X Wn.
    rewrite (collect_loop_unfold H P Hopen).
    apply Z.leb_le in Hle. rewrite Hle, X, Wn. destruct r; reflexivity.
Qed.

Lemma advance_seek_outcomes_witness :
  exists s',
    waitForNextPageButton timeline_host default_parser 10 (Some 2500%Z)
      (timeline_start 0 [frame_next Disabled; frame_next Absent] (frame_next Enabled))
    = (Ret (Some SelNextEnabled), s')
    /\ enabled_counts (trace s') = [0; 0; 1]%nat.
Proof.
  destruct (proj1 (proj2 (@advance_seek_outcomes Timeline timeline_host
                            default_parser eq_refl))
                  10%nat (Some 2500%Z)
                  (timeline_start 0 [frame_next Disabled; frame_next Absent]
                                  (frame_next Enabled)))
    as [r [s' [evs [E _]]]].
  - vm_compute. lia.
  - exists s'. revert E. vm_compute. intros E. injection E as <- <-.
    split; reflexivity.
Defined.

(** C7, as stated, fails: a next button that is entirely absent does not
    end the traversal.  With no button at the first poll and an enabled
    one at the second, the seek polls on and returns the button, and the
    traversal goes on to a second page; and with no button at all the seek
    polls until its wait has elapsed, exactly as it does for a button
    that stays disabled. *)
Lemma absent_button_counterexample :
  (exists s',
      waitForNextPageButton timeline_host default_parser 10 (Some 2500%Z)
        (timeline_start 0 [frame_next Absent] (frame_next Enabled))
      = (Ret (Some SelNextEnabled), s')
      /\ trace s' = [EvCount SelNextEnabled 0; EvCount SelNextAny 0; EvSleep 500;
                     EvCount SelNextEnabled 1])
  /\ (exists ids s',
        collectAllContactIds timeline_host default_parser 60
          (timeline_start 0 [frame_next Absent; frame_next Enabled] (frame_next Absent))
        = (Ret ids, s')
        /\ pages_processed (trace s') = 2%nat)
  /\ (exists s' s'',
        waitForNextPageButton timeline_host default_parser 10 (Some 2500%Z)
          (timeline_start 0 [] (frame_next Absent))
        = (Ret None, s')
        /\ waitForNextPageButton timeline_host default_parser 10 (Some 2500%Z)
             (timeline_start 0 [] (frame_next Disabled))
           = (Ret None, s'')
        /\ now s' = 2500%Z /\ now s'' = 2500%Z
        /\ enabled_counts (trace s') = [0; 0; 0; 0; 0]%nat
        /\ enabled_counts (trace s'') = [0; 0; 0; 0; 0]%nat).
Proof.
  split; [|split].
  - eexists. split; vm_compute; reflexivity.
  - do 2 eexists. split; vm_compute; reflexivity.
  - do 2 eexists. split; [vm_compute; reflexivity|].
    split; [vm_compute; reflexivity|].
    split; [vm_compute; reflexivity|].
    split; [vm_compute; reflexivity|].
    split; vm_compute; reflexivity.
Qed.

(** ** The retry controller *)

Section Retry.
Context {W : Type} (H : Host W) (P : Parser) (Hopen : page_open P = true).
Local Open Scope Z_scope.

Local Notation "x <- m ;; k" := (bind m (fun x => k))
  (at level 61, m at next level, right associativity).
Local Notation "m ;;; k" := (bind m (fun _ => k))
  (at level 61, right associativity).

Lemma retry_loop_unfold fuel attempt retries waitMs waitOpts postReadyDelayMs :
  retry_loop H P (S fuel) attempt retries waitMs waitOpts postReadyDelayMs =
  if attempt <=? retries then
    visible <- on_page P (host (h_waitVisible H SelShow)) ;;
    emit (EvWaitVisible SelShow visible) ;;;
    if negb visible then throw
    else
      clicked <- click H SelShow ;;
      if negb clicked then throw
      else
        waitForTimeout H P 150 ;;;
        waitForLoadState_caught H P ;;;
        ok <- waitForAnyUsers H P fuel waitMs waitOpts ;;
        if ok then
          waitForTimeout H P (nullish postReadyDelayMs 500) ;;;
          ret true
        else
          emit (EvLog (LogRetry attempt retries)) ;;;
          retry_loop H P fuel (attempt + 1) retries waitMs waitOpts postReadyDelayMs
  else ret false.
Proof. reflexivity. Qed.

Lemma probes_no_trigger evs :
  Forall (fun e => is_probe e = true) evs ->
  readiness_results evs = [] /\ triggers evs = 0%nat.
Proof. intros F. destruct (probes_quiet F) as [_ [R [T _]]]. auto. Qed.

Ltac count_events :=
  rewrite ?readiness_results_app, ?triggers_app;
  unfold readiness_results, triggers in *; simpl.

Lemma retry_loop_spec fuel : forall attempt retries waitMs waitOpts postReadyDelayMs s,
  exists o s' evs,
    retry_loop H P fuel attempt retries waitMs waitOpts postReadyDelayMs s = (o, s')
    /\ trace s' = trace s ++ evs
    /\ let n := Z.to_nat (retries - attempt + 1) in
       match o with
       | Ret true =>
           exists k, (1 <= k <= n)%nat
                     /\ readiness_results evs = repeat false (k - 1) ++ [true]
                     /\ triggers evs = k
                     /\ exists evs0,
                          evs = evs0 ++ [EvReadiness true;
                                         EvSleep (nullish postReadyDelayMs 500)]
       | Ret false => readiness_results evs = repeat false n /\ triggers evs = n
       | Throw =>
           exists j, (j < n)%nat /\ readiness_results evs = repeat false j
                     /\ triggers evs = S j
       | OutOfFuel => (fuel < n + poll_fuel waitMs)%nat
       end.
Proof.
  induction fuel as [|fuel IH];
    intros attempt retries waitMs waitOpts postReadyDelayMs s.
  - exists OutOfFuel, s, []. split; [reflexivity|]. rewrite app_nil_r.
    split; auto. cbv zeta. unfold poll_fuel. lia.
  - rewrite retry_loop_unfold.
    destruct (Z.leb_spec attempt retries) as [Hle|Hgt].
    + assert (Hn : Z.to_nat (retries - attempt + 1)
                   = S (Z.to_nat (retries - (attempt + 1) + 1))) by lia.
      cbv zeta. rewrite Hn.
      cbv [bind emit host click on_page waitForTimeout timer ret throw
             waitForLoadState_caught slept].
      rewrite Hopen. cbv beta iota. cbn [world now userIds files trace].
      destruct (h_waitVisible H SelShow (world s)) as [[|] w1];
        cbv beta iota; cbn [world now userIds files trace negb].
      * destruct (h_click H SelShow w1) as [[|] w2];
          cbv beta iota; cbn [world now userIds files trace negb].
        { destruct (h_loadState H (h_timer H 150 w2)) as [st w3];
            cbv beta iota; cbn [world now userIds files trace].
          match goal with
          | |- context [waitForAnyUsers H P fuel waitMs waitOpts ?st] =>
              destruct (waitForAnyUsers_spec H P Hopen fuel waitMs waitOpts st)
                as [o2 [s2 [evs2 [E2 [Pr2 Ho2]]]]]; rewrite E2
          end.
          destruct (probes_no_trigger Pr2) as [R2 T2].
          destruct o2 as [[|]| |]; [| | contradiction |].
          - destruct Ho2 as [Tr2 _]. cbn [trace] in Tr2.
            eexists. eexists. eexists. split; [reflexivity|].
            split.
            { cbn [trace]. rewrite Tr2, <- !app_assoc. reflexivity. }
            exists 1%nat. split; [lia|]. split.
            { count_events. rewrite R2. reflexivity. }
            split.
            { count_events. rewrite T2. reflexivity. }
            { eexists. rewrite !app_assoc.
              rewrite <- (app_assoc _ [EvReadiness true] [_]). reflexivity. }
          - destruct Ho2 as [Tr2 _]. cbn [trace] in Tr2.
            match goal with
            | |- context [retry_loop H P fuel ?a ?r ?w ?o ?p ?st] =>
                destruct (IH a r w o p st) as [o3 [s3 [evs3 [E3 [Tr3 Ho3]]]]]
            end.
            cbv zeta in Ho3. cbn [trace] in Tr3.
            exists o3, s3. eexists. split; [exact E3|]. split.
            { rewrite Tr3, Tr2, <- !app_assoc. reflexivity. }
            destruct o3 as [[|]| |].
            + destruct Ho3 as [k [Hk [Rk [Tk [evs0 Ek]]]]].
              exists (S k). split; [lia|]. split.
              { count_events. rewrite R2. simpl.
                unfold readiness_results in Rk. rewrite Rk.
                replace (k - 0)%nat with (S (k - 1)) by lia. reflexivity. }
              split.
              { count_events. rewrite T2. simpl.
                unfold triggers in Tk. now rewrite Tk. }
              { rewrite Ek. eexists. rewrite !app_assoc. reflexivity. }
            + destruct Ho3 as [Rk Tk]. split.
              { count_events. rewrite R2. simpl.
                unfold readiness_results in Rk. now rewrite Rk. }
              { count_events. rewrite T2. simpl.
                unfold triggers in Tk. now rewrite Tk. }
            + destruct Ho3 as [j [Hj [Rj Tj]]].
              exists (S j). split; [lia|]. split.
              { count_events. rewrite R2. simpl.
                unfold readiness_results in Rj. now rewrite Rj. }
              { count_events. rewrite T2. simpl.
                unfold triggers in Tj. now rewrite Tj. }
            + lia.
          - destruct Ho2 as [[Tr2 _] Hlow]. cbn [trace] in Tr2.
            eexists. eexists. eexists. split; [reflexivity|]. split.
            { rewrite Tr2, <- !app_assoc. reflexivity. }
            lia. }
        { eexists. eexists. eexists. split; [reflexivity|]. split.
          { cbn [trace]. rewrite <- !app_assoc. reflexivity. }
          exists 0%nat. split; [lia|]. split; reflexivity. }
      * eexists. eexists. eexists. split; [reflexivity|]. split.
        { cbn [trace]. reflexivity. }
        exists 0%nat. split; [lia|]. split; reflexivity.
    + exists (Ret false), s, []. split; [reflexivity|]. rewrite app_nil_r.
      split; auto. cbv zeta.
      replace (Z.to_nat (retries - attempt + 1)) with 0%nat by lia.
      split; reflexivity.
Qed.

End Retry.

Lemma repeat_false_not_true k n : repeat false k ++ [true] <> repeat false n.
Proof.
  intros E. assert (Hin : In true (repeat false n)).
  { rewrite <- E. apply in_or_app. right. now left. }
  apply repeat_spec in Hin. discriminate.
Qed.

(** C4.  With the page open and fuel for its waits, the retry controller
    ends in one of three ways.  It returns false after exactly [retries]
    readiness checks, all failed, each after one trigger.  It returns true
    when the check of some attempt k <= retries succeeds, after k triggers,
    k - 1 failed checks and the successful one, and its last step is the
    sleep of the post-ready delay, 500 ms when none is passed; attempt
    k + 1 is not invoked.  It throws only when a trigger itself fails, with
    fewer than [retries] checks made.  So once [retries] checks have
    failed the result is false, not an error, and the trigger and the
    check are never invoked more than [retries] times. *)
Theorem retry_controller_bounds
        {W : Type} (H : Host W) (P : Parser) (Hopen : page_open P = true)
        (retries waitMs : Z) (Hretries : (0 <= retries)%Z)
        (waitOpts : option WaitOpts) (postReadyDelayMs : option Z)
        (fuel : nat) (Hfuel : (Z.to_nat retries + poll_fuel waitMs <= fuel)%nat)
        (s : St W) :
  exists o s' evs,
    clickShowAndWaitWithRetries H P fuel (Some retries) (Some waitMs) waitOpts
                                postReadyDelayMs s = (o, s')
    /\ trace s' = trace s ++ evs
    /\ (triggers evs <= Z.to_nat retries)%nat
    /\ (List.length (readiness_results evs) <= Z.to_nat retries)%nat
    /\ match o with
       | Ret true =>
           exists k, (1 <= k <= Z.to_nat retries)%nat
                     /\ readiness_results evs = repeat false (k - 1) ++ [true]
                     /\ triggers evs = k
                     /\ exists evs0,
                          evs = evs0 ++ [EvReadiness true;
                                         EvSleep (nullish postReadyDelayMs 500%Z)]
       | Ret false =>
           readiness_results evs = repeat false (Z.to_nat retries)
           /\ triggers evs = Z.to_nat retries
       | Throw =>
           exists j, (j < Z.to_nat retries)%nat
                     /\ readiness_results evs = repeat false j
                     /\ triggers evs = S j
       | OutOfFuel => False
       end
    /\ (readiness_results evs = repeat false (Z.to_nat retries) -> o = Ret false)
    /\ nullish (@None Z) 500%Z = 500%Z.
Proof.
  unfold clickShowAndWaitWithRetries. cbn [nullish].
  destruct (retry_loop_spec H P Hopen fuel 1 retries waitMs waitOpts
                            postReadyDelayMs s)
    as [o [s' [evs [E [T Ho]]]]].
  cbv zeta in Ho. replace (retries - 1 + 1)%Z with retries in Ho by lia.
  exists o, s', evs. split; [exact E|]. split; [exact T|].
  destruct o as [[|]| |].
  - destruct Ho as [k [Hk [Rk [Tk Ek]]]].
    split; [lia|]. split.
    { rewrite Rk, length_app, repeat_length. simpl. lia. }
    split; [exists k; auto|]. split; [|reflexivity].
    intros Hall. rewrite Rk in Hall. now apply repeat_false_not_true in Hall.
  - destruct Ho as [Rk Tk].
    split; [lia|]. split; [rewrite Rk, repeat_length; lia|].
    split; [auto|]. split; auto.
  - destruct Ho as [j [Hj [Rj Tj]]].
    split; [lia|]. split; [rewrite Rj, repeat_length; lia|].
    split; [exists j; auto|]. split; [|reflexivity].
    intros Hall. rewrite Rj in Hall.
    apply (f_equal (@List.length bool)) in Hall.
    rewrite !repeat_length in Hall. lia.
  - lia.
Qed.

(** Readiness never comes: three attempts, three failed checks, false. *)
Lemma retry_controller_bounds_witness :
  exists s',
    clickShowAndWaitWithRetries timeline_host default_parser 20 (Some 3%Z)
      (Some 1000%Z) (Some three_tick_opts) None
      (timeline_start 0 [] (frame_count 0))
    = (Ret false, s')
    /\ readiness_results (trace s') = [false; false; false]
    /\ triggers (trace s') = 3%nat.
Proof.
  destruct (@retry_controller_bounds Timeline timeline_host default_parser eq_refl
              3%Z 1000%Z ltac:(lia) (Some three_tick_opts) None 20%nat
              ltac:(vm_compute; lia) (timeline_start 0 [] (frame_count 0)))
    as [o [s' [evs [E _]]]].
  exists s'. revert E. vm_compute. intros E. injection E as <- <-.
  repeat split.
Defined.

(** Readiness comes during the second attempt: two triggers, the sleep of
    500 ms, true, and no third attempt. *)
Example retry_succeeds_on_second_attempt :
  exists s',
    clickShowAndWaitWithRetries timeline_host default_parser 20 (Some 5%Z)
      (Some 2000%Z)
      (Some {| minStableMs := Some 500%Z; allowPaginationShortcut := Some false;
               requireMinCount := Some 1%Z |})
      None
      (timeline_start 0 (repeat (frame_count 0) 5) (frame_count 4))
    = (Ret true, s')
    /\ readiness_results (trace s') = [false; true]
    /\ triggers (trace s') = 2%nat
    /\ last (trace s') (EvSleep 0%Z) = EvSleep 500%Z.
Proof.
  eexists. split; [vm_compute; reflexivity|].
  split; [vm_compute; reflexivity|].
  split; vm_compute; reflexivity.
Qed.

(* ================================================================== *)
(** * Further properties *)

(** ** Sets of strings *)

Lemma JsSet_add_In x u id : In id (JsSet.add x u) <-> In id u \/ id = x.
Proof.
  unfold JsSet.add. destruct (JsSet.has x u) eqn:E.
  - apply JsSet_has_In in E. split; auto. intros [Hin | ->]; auto.
  - rewrite in_app_iff. simpl. intuition (subst; auto).
Qed.

Lemma JsSet_add_all_In_iff xs : forall u id,
  In id (JsSet.add_all xs u) <-> In id u \/ In id xs.
Proof.
  unfold JsSet.add_all.
  induction xs as [|x xs IH]; intros u id; simpl.
  - split; auto. intros [Hin | []]. exact Hin.
  - rewrite IH, JsSet_add_In. split.
    + intros [[Hin | ->] | Hin]; auto.
    + intros [Hin | [<- | Hin]]; auto.
Qed.

Lemma JsSet_of_array_In xs id : In id (JsSet.of_array xs) <-> In id xs.
Proof.
  unfold JsSet.of_array. rewrite JsSet_add_all_In_iff. unfold JsSet.empty.
  simpl. split; auto. intros [[] | Hin]. exact Hin.
Qed.

Lemma JsSet_add_NoDup x u : NoDup u -> NoDup (JsSet.add x u).
Proof.
  intros N. unfold JsSet.add. destruct (JsSet.has x u) eqn:E; auto.
  apply NoDup_app; auto.
  - repeat constructor. simpl. tauto.
  - intros y Hy [<- | []].
    apply JsSet_has_In in Hy. congruence.
Qed.

Lemma JsSet_add_all_NoDup xs : forall u, NoDup u -> NoDup (JsSet.add_all xs u).
Proof.
  unfold JsSet.add_all.
  induction xs as [|x xs IH]; intros u N; simpl; auto.
  apply IH. now apply JsSet_add_NoDup.
Qed.

Lemma JsSet_of_array_NoDup xs : NoDup (JsSet.of_array xs).
Proof. apply JsSet_add_all_NoDup. constructor. Qed.

(** Adding what is already there changes nothing. *)
Lemma JsSet_add_all_absorb xs : forall u,
  (forall x, In x xs -> In x u) -> JsSet.add_all xs u = u.
Proof.
  unfold JsSet.add_all.
  induction xs as [|x xs IH]; intros u Hin; simpl; auto.
  assert (E : JsSet.add x u = u).
  { unfold JsSet.add. replace (JsSet.has x u) with true; auto.
    symmetry. apply JsSet_has_In. apply Hin. now left. }
  rewrite E. apply IH. intros y Hy. apply Hin. now right.
Qed.

Lemma JsSet_add_all_first_by xs : forall u,
  JsSet.add_all xs u =
  u ++ first_by (fun k => k) (filter (fun x => negb (JsSet.has x u)) xs).
Proof.
  unfold JsSet.add_all.
  induction xs as [|x xs IH]; intros u; simpl.
  - now rewrite app_nil_r.
  - unfold JsSet.add at 2. destruct (JsSet.has x u) eqn:E; simpl.
    + apply IH.
    + rewrite IH, <- app_assoc. simpl. do 2 f_equal.
      rewrite <- first_by_filter by (intros y z Hyz; now rewrite Hyz).
      f_equal. clear. induction xs as [|b l IHl]; simpl; auto.
      unfold JsSet.has at 1. rewrite existsb_app. simpl.
      rewrite orb_false_r, negb_orb.
      fold (JsSet.has b u).
      destruct (JsSet.has b u); simpl; auto.
      destruct (str_eqb b x); simpl; auto.
      now rewrite IHl.
Qed.

Lemma JsSet_of_array_first_by xs :
  JsSet.of_array xs = first_by (fun k => k) xs.
Proof.
  unfold JsSet.of_array. rewrite JsSet_add_all_first_by. simpl.
  f_equal. induction xs; simpl; auto. now f_equal.
Qed.


(** ** White space *)

Lemma trim_start_split s :
  exists ws, s = ws ++ trim_start s /\ Forall (fun c => is_space c = true) ws.
Proof.
  induction s as [|c s [ws [E F]]]; simpl.
  - exists []. auto.
  - destruct (is_space c) eqn:Sp.
    + exists (c :: ws). simpl. split; [now f_equal | now constructor].
    + exists []. auto.
Qed.

Lemma trim_start_head s c r : trim_start s = c :: r -> is_space c = false.
Proof.
  induction s as [|x s IH]; simpl; [discriminate|].
  destruct (is_space x) eqn:Sp; auto.
  intros E. injection E as -> _. exact Sp.
Qed.

Lemma trim_start_fixed s :
  match s with [] => True | c :: _ => is_space c = false end ->
  trim_start s = s.
Proof. destruct s as [|c s]; simpl; auto. now intros ->. Qed.

Lemma trim_start_idem s : trim_start (trim_start s) = trim_start s.
Proof.
  apply trim_start_fixed. destruct (trim_start s) as [|c r] eqn:E; auto.
  eapply trim_start_head; eauto.
Qed.

(** Nothing is left to trim off a trimmed string. *)
Lemma trim_idem s : trim (trim s) = trim s.
Proof.
  unfold trim, trim_end.
  set (y := trim_start s). set (z := trim_start (rev y)).
  assert (Hz : trim_start z = z) by apply trim_start_idem.
  assert (Hy : trim_start (rev z) = rev z).
  { apply trim_start_fixed.
    destruct (rev z) as [|c r] eqn:R; auto.
    destruct (trim_start_split (rev y)) as [ws [E F]]. fold z in E.
    assert (Ey : y = (c :: r) ++ rev ws).
    { rewrite <- (rev_involutive y), E, rev_app_distr, R. reflexivity. }
    eapply trim_start_head. exact Ey. }
  rewrite Hy, rev_involutive, Hz. reflexivity.
Qed.

Lemma trim_no_space s :
  Forall (fun c => is_space c = false) s -> trim s = s.
Proof.
  intros F. unfold trim, trim_end.
  assert (T : forall x, Forall (fun c => is_space c = false) x -> trim_start x = x).
  { intros x Fx. apply trim_start_fixed. destruct Fx; auto. }
  rewrite (T s F), (T (rev s)) by now apply Forall_rev.
  apply rev_involutive.
Qed.

(** ** Splitting and joining *)




(** No piece of a split holds the separator. *)
Lemma split_at_aux_pieces sep s : forall cur,
  Forall (fun c => c <> sep) cur ->
  Forall (Forall (fun c => c <> sep)) (split_at_aux sep cur s).
Proof.
  induction s as [|c s IH]; intros cur F; simpl.
  - constructor; auto. now apply Forall_rev.
  - destruct (N.eqb_spec c sep) as [E|E].
    + constructor; [now apply Forall_rev | apply IH; constructor].
    + apply IH. now constructor.
Qed.

Lemma split_at_pieces sep s :
  Forall (Forall (fun c => c <> sep)) (split_at sep s).
Proof. apply split_at_aux_pieces. constructor. Qed.

(** ** Decimal numerals *)

Lemma is_digit_spec c : is_digit c = true <-> (48 <= c <= 57)%N.
Proof. unfold is_digit. rewrite andb_true_iff, !N.leb_le. tauto. Qed.

Lemma digits_value_snoc s d :
  digits_value (s ++ [d]) = (10 * digits_value s + (d - 48))%N.
Proof. unfold digits_value. now rewrite fold_left_app. Qed.

Lemma digits_of_spec fuel : forall n acc,
  (n < 10 ^ N.of_nat fuel)%N ->
  exists ds, digits_of fuel n acc = ds ++ acc
             /\ Forall (fun c => is_digit c = true) ds
             /\ digits_value ds = n
             /\ (fuel <> 0%nat -> ds <> []).
Proof.
  induction fuel as [|fuel IH]; intros n acc Hn.
  - exists []. simpl in *. repeat split; auto. unfold digits_value. simpl. lia.
  - rewrite Nat2N.inj_succ, N.pow_succ_r' in Hn.
    cbn [digits_of]. cbv zeta.
    assert (Hd : is_digit (48 + n mod 10) = true).
    { apply is_digit_spec. pose proof (N.mod_upper_bound n 10 ltac:(lia)).
      remember (n mod 10)%N as m. lia. }
    destruct (N.ltb_spec n 10) as [Hlt|Hge].
    + exists [(48 + n mod 10)%N]. split; [reflexivity|].
      split; [repeat constructor; exact Hd|].
      split; [|discriminate].
      unfold digits_value. cbn [fold_left].
      rewrite N.mod_small by assumption. clear - Hlt. lia.
    + destruct (IH (n / 10)%N ((48 + n mod 10)%N :: acc)) as [ds [E [F [V _]]]].
      { apply N.Div0.div_lt_upper_bound. lia. }
      exists (ds ++ [(48 + n mod 10)%N]). split.
      { rewrite E, <- app_assoc. reflexivity. }
      split; [apply Forall_app; split; auto|].
      split.
      { rewrite digits_value_snoc, V.
        pose proof (N.div_mod n 10 ltac:(lia)).
        remember (n mod 10)%N as m. remember (n / 10)%N as q. lia. }
      { intros _ C. destruct ds; discriminate. }
Qed.

(** [String(n)] is a decimal numeral of [n]. *)
Lemma string_of_N_spec n :
  Forall (fun c => is_digit c = true) (string_of_N n)
  /\ digits_value (string_of_N n) = n
  /\ string_of_N n <> [].
Proof.
  unfold string_of_N.
  destruct (@digits_of_spec (S (N.to_nat (N.log2 n))) n [])
    as [ds [E [F [V Hne]]]].
  - rewrite Nat2N.inj_succ, N2Nat.id.
    destruct (N.eq_dec n 0) as [->|Hpos]; [reflexivity|].
    destruct (N.log2_spec n ltac:(lia)) as [_ Hlt].
    eapply N.lt_le_trans; [exact Hlt|].
    apply N.pow_le_mono_l. lia.
  - rewrite app_nil_r in E. rewrite E. auto.
Qed.

Lemma digits_value_zero s : digits_value (48%N :: s) = digits_value s.
Proof. reflexivity. Qed.

Lemma pad_value n : digits_value (pad n) = n.
Proof.
  destruct (string_of_N_spec n) as [_ [V _]]. unfold pad, padStart2.
  destruct (string_of_N n) as [|a [|b r]]; exact V.
Qed.

Lemma pad_digits n : Forall (fun c => is_digit c = true) (pad n).
Proof.
  destruct (string_of_N_spec n) as [F _]. unfold pad, padStart2.
  destruct (string_of_N n) as [|a [|b r]]; auto; repeat constructor;
    now inversion F.
Qed.

Lemma year_spec y :
  (0 <= y)%Z ->
  Forall (fun c => is_digit c = true) (string_of_Z y)
  /\ digits_value (string_of_Z y) = Z.to_N y.
Proof.
  intros Hy. unfold string_of_Z.
  destruct (Z.ltb_spec y 0); [lia|].
  destruct (string_of_N_spec (Z.to_N y)) as [F [V _]]. auto.
Qed.

(** ** The identifiers file of saveResults *)

Lemma replace_first_unfold pat rep s :
  replace_first pat rep s =
  if starts_with pat s then rep ++ skipn (List.length pat) s
  else match s with
       | [] => []
       | c :: s' => c :: replace_first pat rep s'
       end.
Proof. destruct s; reflexivity. Qed.

Lemma starts_with_app_long p : forall x y,
  (List.length p <= List.length x)%nat ->
  starts_with p (x ++ y) = starts_with p x.
Proof.
  induction p as [|c p IH]; intros [|d x] y L; simpl in *; auto; try lia.
  rewrite IH by lia. reflexivity.
Qed.

(** The occurrence that is replaced is the leftmost one. *)
Lemma replace_first_leftmost pat rep a b :
  pat <> [] ->
  includes (a ++ removelast pat) pat = false ->
  replace_first pat rep (a ++ pat ++ b) = a ++ rep ++ b.
Proof.
  intros Hne. induction a as [|c a IH]; intros Hno.
  - simpl app. rewrite replace_first_unfold.
    replace (starts_with pat (pat ++ b)) with true
      by (symmetry; apply starts_with_spec; eauto).
    now rewrite skipn_app, skipn_all, Nat.sub_diag.
  - simpl in Hno. apply orb_false_iff in Hno as [Hhere Hlater].
    simpl app. rewrite replace_first_unfold.
    assert (Hs : starts_with pat (c :: a ++ pat ++ b) = false).
    { rewrite (app_removelast_last 0%N Hne) at 2.
      rewrite <- app_assoc, app_assoc.
      change (c :: (a ++ removelast pat) ++ [last pat 0%N] ++ b)
        with ((c :: a ++ removelast pat) ++ [last pat 0%N] ++ b).
      rewrite starts_with_app_long; [exact Hhere|].
      simpl. rewrite length_app.
      rewrite (app_removelast_last 0%N Hne) at 1.
      rewrite length_app. simpl. lia. }
    rewrite Hs. f_equal. now apply IH.
Qed.

(** X1.  saveResults rewrites the leftmost [.json] of the output path,
    wherever it stands: when the first [.json] is followed by more text
    (a directory named [run.json.d], a second extension), that text is
    kept behind [_ids.txt]. *)
Theorem ids_file_of_leftmost (a b : jsstring)
        (Hfirst : includes (a ++ js ".jso") (js ".json") = false) :
  ids_file_of (a ++ js ".json" ++ b) = a ++ js "_ids.txt" ++ b.
Proof.
  unfold ids_file_of. apply replace_first_leftmost; [discriminate|].
  exact Hfirst.
Qed.

Lemma ids_file_of_leftmost_witness :
  ids_file_of (js "run.json.d/results.json") = js "run_ids.txt.d/results.json".
Proof.
  apply (@ids_file_of_leftmost (js "run") (js ".d/results.json")).
  vm_compute. reflexivity.
Defined.

(** ** Slugs *)

Lemma filter_all {A} (f : A -> bool) l :
  Forall (fun x => f x = true) l -> filter f l = l.
Proof.
  induction 1 as [|x l Hx Hl IH]; simpl; auto. now rewrite Hx, IH.
Qed.

Lemma trim_all_space s :
  Forall (fun c => is_space c = true) s -> trim s = [].
Proof.
  intros F. unfold trim, trim_end.
  assert (E : trim_start s = []).
  { induction F as [|c s Hc Hs IH]; simpl; auto. now rewrite Hc. }
  rewrite E. reflexivity.
Qed.

Lemma collapse_no_space b s :
  Forall (fun c => is_space c = false) s -> collapse_from b s = s.
Proof.
  intros F. revert b. induction F as [|c s Hc Hs IH]; intros b; simpl; auto.
  now rewrite Hc, IH.
Qed.

Lemma slug_unit_not_mark c :
  slug_unit c = true -> negb (is_combining_mark c) = true.
Proof.
  unfold slug_unit, is_combining_mark. intros U.
  repeat rewrite orb_true_iff in U. repeat rewrite andb_true_iff in U.
  repeat rewrite N.leb_le in U. repeat rewrite N.eqb_eq in U.
  apply negb_true_iff, andb_false_iff. rewrite !N.leb_gt. lia.
Qed.

Section Slugs.
Context {RT : Runtime}.

(** X2.  A label none of whose units, once decomposed, is a letter, a
    digit, an underscore or a hyphen has the slug [item]. *)
Theorem slugify_without_slug_units (v : jsstring)
        (Hnone : Forall (fun c => slug_unit c = false)
                        (normalizeNFKD (or_else v (js "item")))) :
  slugify v 40 = js "item".
Proof.
  unfold slugify.
  set (t := filter slug_keeps
              (filter (fun c => negb (is_combining_mark c))
                      (normalizeNFKD (or_else v (js "item"))))).
  assert (Hsp : Forall (fun c => is_space c = true) t).
  { apply Forall_forall. intros c Hin. unfold t in Hin.
    apply filter_In in Hin as [Hin K]. apply filter_In in Hin as [Hin _].
    rewrite Forall_forall in Hnone. unfold slug_keeps in K.
    now rewrite (Hnone c Hin) in K. }
  rewrite (trim_all_space Hsp). reflexivity.
Qed.

(** X3.  A slug is stable: when the decomposition leaves the slug of a
    label as it is, the slug of that slug is the slug itself. *)
Theorem slugify_stable (v : jsstring)
        (Hnormal : normalizeNFKD (slugify v 40) = slugify v 40) :
  slugify (slugify v 40) 40 = slugify v 40.
Proof.
  pose proof (slugify_units v) as U. pose proof (slugify_length v) as L.
  set (s := slugify v 40) in *.
  assert (Hns : Forall (fun c => is_space c = false) s).
  { eapply Forall_impl; [|exact U]. apply slug_unit_not_space. }
  assert (Ht : truthy s = true) by (destruct s; [simpl in L; lia | reflexivity]).
  unfold slugify at 1. unfold or_else at 2. rewrite Ht, Hnormal.
  rewrite (filter_all (fun c => negb (is_combining_mark c)))
    by (eapply Forall_impl; [|exact U]; apply slug_unit_not_mark).
  rewrite (filter_all slug_keeps)
    by (eapply Forall_impl; [|exact U]; intros c Hc; unfold slug_keeps;
        now rewrite Hc).
  rewrite trim_no_space by exact Hns.
  unfold collapse_spaces. rewrite collapse_no_space by exact Hns.
  unfold slice. simpl skipn. rewrite firstn_all2 by lia.
  unfold or_else. now rewrite Ht.
Qed.

End Slugs.

Lemma slugify_without_slug_units_witness :
  @slugify example_runtime (js "!!! (?) ...") 40 = js "item".
Proof.
  apply (@slugify_without_slug_units example_runtime (js "!!! (?) ...")).
  vm_compute. repeat constructor.
Defined.

Lemma slugify_stable_witness :
  @slugify example_runtime (@slugify example_runtime (js "group_Птичка Наличка") 40) 40
  = js "group_Птичка_Наличка".
Proof.
  change (js "group_Птичка_Наличка")
    with (@slugify example_runtime (js "group_Птичка Наличка") 40).
  apply (@slugify_stable example_runtime (js "group_Птичка Наличка")).
  vm_compute. reflexivity.
Defined.

(** ** Timestamps and dates *)

(** X4.  The timestamp of a file name tells the second: two calendar
    dates with the same timestamp have the same day, month, year, hour,
    minute and second. *)
Theorem timestamp_injective (d1 d2 : DateFields)
        (H1 : calendar d1) (H2 : calendar d2)
        (Hsame : formatTimestampForFilename d1 = formatTimestampForFilename d2) :
  d1 = d2.
Proof.
  destruct H1 as [D1 [M1 [Y1 [Hh1 [Mi1 S1]]]]].
  destruct H2 as [D2 [M2 [Y2 [Hh2 [Mi2 S2]]]]].
  unfold formatTimestampForFilename in Hsame.
  apply app_same_length_inv in Hsame as [Ed Hsame];
    [|rewrite !pad_length by lia; reflexivity].
  apply app_same_length_inv in Hsame as [Em Hsame];
    [|rewrite !pad_length by lia; reflexivity].
  apply app_same_length_inv in Hsame as [Ey Hsame];
    [|rewrite !year_length by lia; reflexivity].
  apply app_same_length_inv in Hsame as [Eh Hsame];
    [|rewrite !pad_length by lia; reflexivity].
  apply app_same_length_inv in Hsame as [Ei Es];
    [|rewrite !pad_length by lia; reflexivity].
  apply (f_equal digits_value) in Ed, Em, Eh, Ei, Es, Ey.
  rewrite !pad_value in Ed, Em, Eh, Ei, Es.
  destruct (@year_spec (getFullYear d1)) as [_ V1]; [lia|].
  destruct (@year_spec (getFullYear d2)) as [_ V2]; [lia|].
  rewrite V1, V2 in Ey.
  destruct d1, d2; simpl in *. f_equal; lia.
Qed.

Lemma timestamp_injective_witness :
  example_date =
  {| getDate := 6; getMonth := 10; getFullYear := 2025;
     getHours := 22; getMinutes := 53; getSeconds := 1 |}.
Proof.
  apply timestamp_injective;
    [unfold calendar; simpl; lia | unfold calendar; simpl; lia
     | vm_compute; reflexivity].
Defined.

(** X5.  The date typed into the filter has the layout dd.MM.yyyy: two
    digits, a dot, two digits, a dot, four digits, and the three numerals
    are the day, the month counted from one, and the year. *)
Theorem formatDateDDMMYYYY_layout (d : DateFields) (Hd : calendar d) :
  exists dd mm yyyy,
    formatDateDDMMYYYY d = dd ++ js "." ++ mm ++ js "." ++ yyyy
    /\ List.length dd = 2%nat /\ List.length mm = 2%nat
    /\ List.length yyyy = 4%nat
    /\ Forall (fun c => is_digit c = true) (dd ++ mm ++ yyyy)
    /\ digits_value dd = getDate d
    /\ digits_value mm = (getMonth d + 1)%N
    /\ Z.of_N (digits_value yyyy) = getFullYear d.
Proof.
  destruct Hd as [D [M [Y _]]].
  exists (pad (getDate d)), (pad (getMonth d + 1)), (string_of_Z (getFullYear d)).
  destruct (@year_spec (getFullYear d)) as [Fy Vy]; [lia|].
  split; [reflexivity|].
  split; [apply pad_length; lia|]. split; [apply pad_length; lia|].
  split; [apply year_length; lia|].
  split; [repeat (apply Forall_app; split); auto using pad_digits|].
  split; [apply pad_value|]. split; [apply pad_value|].
  rewrite Vy. lia.
Qed.

Lemma formatDateDDMMYYYY_layout_witness :
  exists dd mm yyyy,
    formatDateDDMMYYYY example_date = dd ++ js "." ++ mm ++ js "." ++ yyyy
    /\ List.length dd = 2%nat /\ List.length mm = 2%nat
    /\ List.length yyyy = 4%nat
    /\ Forall (fun c => is_digit c = true) (dd ++ mm ++ yyyy)
    /\ digits_value dd = getDate example_date
    /\ digits_value mm = (getMonth example_date + 1)%N
    /\ Z.of_N (digits_value yyyy) = getFullYear example_date.
Proof.
  apply (@formatDateDDMMYYYY_layout example_date).
  unfold calendar. simpl. lia.
Defined.

Example formatDateDDMMYYYY_example :
  formatDateDDMMYYYY example_date = js "06.11.2025".
Proof. vm_compute. reflexivity. Qed.

(** ** The list filters of the environment *)

(** X6.  The keywords read from LISTS_FILTER are the non-blank pieces
    between commas: none is empty, none holds a comma, and none begins or
    ends with white space.  An unset or empty variable gives no list. *)
Theorem env_listFilters_clean (v : option jsstring) :
  match env_listFilters v with
  | Some keywords =>
      Forall (fun k => k <> [] /\ ~ In comma k /\ trim k = k) keywords
  | None => v = None \/ v = Some []
  end.
Proof.
  destruct v as [[|c s]|]; simpl; auto.
  apply Forall_forall. intros k Hin.
  apply filter_In in Hin as [Hin T].
  apply in_map_iff in Hin as [piece [<- Hin]].
  split; [intros E; rewrite E in T; discriminate|].
  split; [|apply trim_idem].
  pose proof (split_at_pieces comma (c :: s)) as Fp.
  rewrite Forall_forall in Fp. specialize (Fp piece Hin).
  apply (@Forall_trim (fun u => u <> comma)) in Fp.
  rewrite Forall_forall in Fp. intros Hc. now apply (Fp comma Hc).
Qed.

Section EnvFilters.
Context {RT : Runtime}.

(** X7.  A LISTS_FILTER made of commas and white space only selects the
    default keywords, as an unset one does. *)
Theorem env_listFilters_blank (v : jsstring)
        (Hblank : forall piece, In piece (split_at comma v) -> trim piece = []) :
  list_filters (env_listFilters (Some v)) = defaultKeywords
  /\ list_filters (env_listFilters None) = defaultKeywords.
Proof.
  split; [|reflexivity].
  unfold env_listFilters. destruct (truthy v); [|reflexivity].
  assert (E : filter truthy (map trim (split_at comma v)) = []).
  { induction (split_at comma v) as [|p l IH]; simpl; auto.
    rewrite (Hblank p) by now left. simpl. apply IH.
    intros q Hq. apply Hblank. now right. }
  rewrite E. reflexivity.
Qed.

End EnvFilters.

Lemma env_listFilters_blank_witness :
  @list_filters example_runtime (env_listFilters (Some (js " , ,")))
  = defaultKeywords
  /\ @list_filters example_runtime (env_listFilters None) = defaultKeywords.
Proof.
  apply (@env_listFilters_blank example_runtime (js " , ,")).
  intros piece Hin. vm_compute in Hin.
  destruct Hin as [<- | [<- | [<- | []]]]; reflexivity.
Defined.

Example env_listFilters_example :
  env_listFilters (Some (js " Отказ, ,В работе ,"))
  = Some [js "Отказ"; js "В работе"].
Proof. vm_compute. reflexivity. Qed.

(** ** The scan of the page text *)

Lemma span_spec f s :
  s = fst (span f s) ++ snd (span f s)
  /\ Forall (fun c => f c = true) (fst (span f s))
  /\ match snd (span f s) with [] => True | c :: _ => f c = false end.
Proof.
  induction s as [|c s [E [F R]]]; simpl; auto.
  destruct (f c) eqn:Fc.
  - destruct (span f s) as [run rest]. simpl in *.
    split; [now f_equal|]. split; auto.
  - simpl. auto.
Qed.

Lemma span_stop f s :
  match s with [] => True | c :: _ => f c = false end -> span f s = ([], s).
Proof. destruct s as [|c s]; simpl; auto. now intros ->. Qed.

Lemma span_run f run : forall rest,
  Forall (fun c => f c = true) run ->
  match rest with [] => True | c :: _ => f c = false end ->
  span f (run ++ rest) = (run, rest).
Proof.
  induction run as [|c run IH]; intros rest F R.
  - now apply span_stop.
  - inversion F; subst. simpl. rewrite H1, IH; auto.
Qed.

Lemma starts_with_ci_split p : forall s,
  starts_with_ci p s = true ->
  exists lit, s = lit ++ skipn (List.length p) s
              /\ List.length lit = List.length p
              /\ starts_with_ci p lit = true.
Proof.
  induction p as [|x p IH]; intros s E.
  - exists []. auto.
  - destruct s as [|y s]; [discriminate|]. simpl in E.
    apply andb_true_iff in E as [E1 E2].
    destruct (IH s E2) as [lit [Es [L S]]].
    exists (y :: lit). simpl. split; [now f_equal|].
    split; [now f_equal|]. now rewrite E1.
Qed.

Lemma starts_with_ci_app p : forall lit r,
  List.length lit = List.length p ->
  starts_with_ci p lit = true ->
  starts_with_ci p (lit ++ r) = true /\ skipn (List.length p) (lit ++ r) = r.
Proof.
  induction p as [|x p IH]; intros [|y lit] r L S; try discriminate; auto.
  simpl in *. apply andb_true_iff in S as [S1 S2].
  injection L as L. destruct (IH lit r L S2) as [A B].
  now rewrite S1, A, B.
Qed.

(** What a match at the head of a text is made of. *)
Lemma id_match_at_inv p s digits len :
  id_match_at p s = Some (digits, len) ->
  exists lit seps rest,
    s = lit ++ seps ++ digits ++ rest
    /\ List.length lit = List.length (ip_literal p)
    /\ starts_with_ci (ip_literal p) lit = true
    /\ Forall (fun c => is_sep c = true) seps
    /\ (ip_separators p = false -> seps = [])
    /\ Forall (fun c => is_digit c = true) digits
    /\ digits <> []
    /\ match rest with [] => True | c :: _ => is_digit c = false end
    /\ len = (List.length lit + List.length seps + List.length digits)%nat.
Proof.
  unfold id_match_at.
  destruct (starts_with_ci (ip_literal p) s) eqn:S; [|discriminate].
  destruct (starts_with_ci_split _ _ S) as [lit [Es [L Sl]]].
  set (r1 := skipn (List.length (ip_literal p)) s) in *.
  assert (exists seps r2,
             (if ip_separators p then span is_sep r1 else ([], r1)) = (seps, r2)
             /\ r1 = seps ++ r2
             /\ Forall (fun c => is_sep c = true) seps
             /\ (ip_separators p = false -> seps = []))
    as [seps [r2 [Esp [Er1 [Fs Hs]]]]].
  { destruct (ip_separators p).
    - destruct (span_spec is_sep r1) as [E [F _]].
      exists (fst (span is_sep r1)), (snd (span is_sep r1)).
      split; [now destruct (span is_sep r1)|]. split; auto. split; auto.
      discriminate.
    - exists [], r1. repeat split; auto. }
  rewrite Esp.
  destruct (span_spec is_digit r2) as [Ed [Fd Rd]].
  destruct (span is_digit r2) as [ds rest]. simpl in *.
  destruct (truthy ds) eqn:T; [|discriminate].
  intros E. injection E as <- <-.
  exists lit, seps, rest. split; [now rewrite Es, Er1, Ed at 1|].
  split; [exact L|]. split; [exact Sl|]. split; [exact Fs|].
  split; [exact Hs|]. split; [exact Fd|].
  split; [intros C; rewrite C in T; discriminate|].
  split; [exact Rd|]. now rewrite L.
Qed.

Lemma is_sep_not_digit c : is_digit c = true -> is_sep c = false.
Proof.
  rewrite is_digit_spec. intros D. unfold is_sep, is_space.
  repeat rewrite orb_false_iff. repeat rewrite andb_false_iff.
  repeat rewrite N.leb_gt. repeat rewrite N.eqb_neq. lia.
Qed.

(** A text of that make is a match. *)
Lemma id_match_at_intro p lit seps digits rest :
  List.length lit = List.length (ip_literal p) ->
  starts_with_ci (ip_literal p) lit = true ->
  Forall (fun c => is_sep c = true) seps ->
  (ip_separators p = false -> seps = []) ->
  Forall (fun c => is_digit c = true) digits ->
  digits <> [] ->
  match rest with [] => True | c :: _ => is_digit c = false end ->
  id_match_at p (lit ++ seps ++ digits ++ rest)
  = Some (digits, (List.length lit + List.length seps + List.length digits)%nat).
Proof.
  intros L S Fs Hs Fd Hne R. unfold id_match_at.
  destruct (starts_with_ci_app _ _ (seps ++ digits ++ rest) L S) as [A B].
  rewrite A, B.
  assert (Hd : match digits ++ rest with [] => True | c :: _ => is_sep c = false end).
  { destruct digits as [|c ds]; [contradiction|]. simpl.
    inversion Fd; subst. now apply is_sep_not_digit. }
  replace (if ip_separators p then span is_sep (seps ++ digits ++ rest)
           else ([], seps ++ digits ++ rest))
    with (seps, digits ++ rest).
  - rewrite (span_run is_digit rest Fd R).
    destruct digits; [contradiction|]. simpl. now rewrite L.
  - destruct (ip_separators p).
    + symmetry. now apply span_run.
    + rewrite Hs by reflexivity. reflexivity.
Qed.

Lemma match_all_captures p s : forall inside digits,
  In digits (match_all p inside s) ->
  digits <> [] /\ Forall (fun c => is_digit c = true) digits.
Proof.
  induction s as [|c s IH]; intros inside digits Hin; [contradiction|].
  simpl in Hin. destruct inside as [|k]; [|eauto].
  destruct (id_match_at p (c :: s)) as [[ds len]|] eqn:E; [|eauto].
  destruct Hin as [<- | Hin]; [|eauto].
  destruct (id_match_at_inv _ _ E)
    as [lit [seps [rest [_ [_ [_ [_ [_ [F [Hne _]]]]]]]]]].
  auto.
Qed.

Lemma text_matches_captures text digits :
  In digits (text_matches text) ->
  digits <> [] /\ Forall (fun c => is_digit c = true) digits.
Proof.
  unfold text_matches. rewrite in_flat_map. intros [p [_ Hin]].
  apply filter_In in Hin as [Hin _]. eapply match_all_captures; eauto.
Qed.

Lemma page_matches_In elements pageText id :
  In id (page_matches elements pageText) <->
  (exists t, In t elements /\ In id (text_matches t))
  \/ In id (text_matches pageText).
Proof.
  unfold page_matches. rewrite in_app_iff, in_flat_map.
  assert (E : forall t, or_else t [] = t) by (intros [|c t]; reflexivity).
  split; intros [[t [Ht Hin]] | Hin]; auto; left; exists t;
    (split; [exact Ht|]); rewrite (E t) in *; exact Hin.
Qed.

(** X8.  Every identifier that extractUserIds reads off a page is a
    non-empty run of decimal digits, whatever the page shows, and no
    identifier is returned twice. *)
Theorem page_ids_digit_runs (elements : list jsstring) (pageText : jsstring) :
  Forall (fun id => id <> [] /\ Forall (fun c => is_digit c = true) id)
         (page_ids elements pageText)
  /\ NoDup (page_ids elements pageText).
Proof.
  unfold page_ids, JsSet.to_array. split; [|apply JsSet_of_array_NoDup].
  apply Forall_forall. intros id Hin.
  apply JsSet_of_array_In, page_matches_In in Hin.
  destruct Hin as [[t [_ Hin]] | Hin]; eapply text_matches_captures; eauto.
Qed.

Example page_ids_example :
  page_ids [js "ID: 123"; js "user id456"]
           (js "ID: 123 Anna, id456 @ID789 ID 123 id: x7")
  = [js "123"; js "456"; js "789"].
Proof. vm_compute. reflexivity. Qed.

(** *** The second and third pattern find nothing new *)

Lemma unit_matches_ci_spec p c :
  unit_matches_ci p c = true <->
  (c = p \/ (65 <= p <= 90 /\ c = p + 32) \/ (97 <= p <= 122 /\ c = p - 32))%N.
Proof.
  unfold unit_matches_ci.
  rewrite !orb_true_iff, !andb_true_iff, !N.leb_le, !N.eqb_eq. tauto.
Qed.

Lemma sep_or_digit_range c :
  is_sep c = true \/ is_digit c = true -> (c < 64 \/ 122 < c)%N.
Proof.
  intros [S | D].
  - unfold is_sep, is_space in S.
    repeat rewrite orb_true_iff in S. repeat rewrite andb_true_iff in S.
    repeat rewrite N.leb_le in S. repeat rewrite N.eqb_eq in S. lia.
  - apply is_digit_spec in D. lia.
Qed.

Lemma opens_false p c s : opens p c = false -> id_match_at p (c :: s) = None.
Proof.
  unfold opens, id_match_at. destruct (ip_literal p) as [|h L]; simpl.
  - discriminate.
  - rewrite andb_true_r. now intros ->.
Qed.

(** Where the matches of a pattern cannot overlap, [matchAll] finds a
    match at every position that has one. *)
Lemma match_all_anywhere p :
  (forall s digits len,
      id_match_at p s = Some (digits, len) ->
      Forall (fun c => opens p c = false) (firstn (len - 1) (tl s))) ->
  forall s inside,
    Forall (fun c => opens p c = false) (firstn inside s) ->
    match_all p inside s = matches_anywhere p s.
Proof.
  intros Hinner. induction s as [|c s IH]; intros inside F.
  - reflexivity.
  - destruct inside as [|k]; simpl.
    + destruct (id_match_at p (c :: s)) as [[ds len]|] eqn:E.
      * f_equal. apply IH. exact (Hinner _ _ _ E).
      * apply IH. constructor.
    + simpl in F. inversion F; subst.
      rewrite (opens_false p c s) by assumption. now apply IH.
Qed.

Lemma firstn_prefix {A} (a b : list A) n :
  n = List.length a -> firstn n (a ++ b) = a.
Proof.
  intros ->. rewrite firstn_app, Nat.sub_diag, firstn_all. simpl.
  apply app_nil_r.
Qed.

(** The units of a match behind its first one: none of them can open a
    match of the same pattern. *)
Lemma inner_units p s digits len :
  In p idPatterns ->
  id_match_at p s = Some (digits, len) ->
  Forall (fun c => opens p c = false) (firstn (len - 1) (tl s)).
Proof.
  intros Hp E.
  destruct (id_match_at_inv _ _ E)
    as [lit [seps [rest [-> [L [S [Fs [_ [Fd [_ [_ ->]]]]]]]]]]].
  assert (Hclass : forall h, (64 <= h <= 122)%N ->
            Forall (fun c => unit_matches_ci h c = false) (seps ++ digits)).
  { intros h Hh. apply Forall_app. split.
    - eapply Forall_impl; [|exact Fs]. intros c Hc. cbv beta in Hc.
      pose proof (@sep_or_digit_range c (or_introl Hc)) as R.
      destruct (unit_matches_ci h c) eqn:U; auto.
      apply unit_matches_ci_spec in U. lia.
    - eapply Forall_impl; [|exact Fd]. intros c Hc. cbv beta in Hc.
      pose proof (@sep_or_digit_range c (or_intror Hc)) as R.
      destruct (unit_matches_ci h c) eqn:U; auto.
      apply unit_matches_ci_spec in U. lia. }
  assert (Hopens : forall c, opens p c = unit_matches_ci (hd 0%N (ip_literal p)) c).
  { intros c. unfold opens.
    destruct Hp as [<- | [<- | [<- | []]]]; simpl; apply andb_true_r. }
  assert (exists c0 inner,
             lit = c0 :: inner
             /\ Forall (fun c => opens p c = false) inner
             /\ (64 <= hd 0%N (ip_literal p) <= 122)%N)
    as [c0 [inner [-> [Fi Hh]]]].
  { destruct Hp as [<- | [<- | [<- | []]]];
      change (ip_literal pattern_labelled) with [73; 68]%N in *;
      change (ip_literal pattern_plain) with [73; 68]%N in *;
      change (ip_literal pattern_mention) with [64; 105; 100]%N in *.
    - destruct lit as [|a [|b [|c lit]]]; try discriminate.
      exists a, [b]. split; auto. simpl in S.
      rewrite !andb_true_iff in S. destruct S as [_ [Sb _]].
      apply unit_matches_ci_spec in Sb.
      split; [|simpl; lia]. constructor; auto. rewrite Hopens. simpl.
      destruct (unit_matches_ci 73 b) eqn:U; auto.
      apply unit_matches_ci_spec in U. lia.
    - destruct lit as [|a [|b [|c lit]]]; try discriminate.
      exists a, [b]. split; auto. simpl in S.
      rewrite !andb_true_iff in S. destruct S as [_ [Sb _]].
      apply unit_matches_ci_spec in Sb.
      split; [|simpl; lia]. constructor; auto. rewrite Hopens. simpl.
      destruct (unit_matches_ci 73 b) eqn:U; auto.
      apply unit_matches_ci_spec in U. lia.
    - destruct lit as [|a [|b [|c [|e lit]]]]; try discriminate.
      exists a, [b; c]. split; auto. simpl in S.
      rewrite !andb_true_iff in S. destruct S as [_ [Sb [Sc _]]].
      apply unit_matches_ci_spec in Sb, Sc.
      split; [|simpl; lia].
      repeat constructor; rewrite Hopens; simpl.
      + destruct (unit_matches_ci 64 b) eqn:U; auto.
        apply unit_matches_ci_spec in U. lia.
      + destruct (unit_matches_ci 64 c) eqn:U; auto.
        apply unit_matches_ci_spec in U. lia. }
  simpl tl.
  replace (firstn _ _) with (inner ++ seps ++ digits).
  - apply Forall_app. split; auto.
    eapply Forall_impl; [|exact (Hclass _ Hh)].
    intros c Hc. cbv beta in Hc. now rewrite Hopens.
  - symmetry. rewrite !app_assoc. rewrite <- (app_assoc inner).
    apply firstn_prefix. simpl. rewrite !length_app. lia.
Qed.

Lemma match_all_is_anywhere p s :
  In p idPatterns -> match_all p 0 s = matches_anywhere p s.
Proof.
  intros Hp. apply match_all_anywhere; [|constructor].
  intros s' ds len E. eapply inner_units; eauto.
Qed.

Lemma matches_anywhere_here p s digits len :
  id_match_at p s = Some (digits, len) -> In digits (matches_anywhere p s).
Proof.
  destruct s as [|c s]; simpl.
  - unfold id_match_at. destruct (ip_literal p) as [|h L]; simpl.
    + destruct (ip_separators p); discriminate.
    + discriminate.
  - intros ->. now left.
Qed.

Lemma matches_anywhere_later p c s digits :
  In digits (matches_anywhere p s) -> In digits (matches_anywhere p (c :: s)).
Proof.
  intros Hin. simpl. destruct (id_match_at p (c :: s)) as [[ds len]|]; auto.
  now right.
Qed.

(** A match of [ID(\d+)] is a match of [ID\s*[:\s]*(\d+)] with no
    separator. *)
Lemma plain_is_labelled s digits len :
  id_match_at pattern_plain s = Some (digits, len) ->
  id_match_at pattern_labelled s = Some (digits, len).
Proof.
  intros E.
  destruct (id_match_at_inv _ _ E)
    as [lit [seps [rest [-> [L [S [_ [Hs [Fd [Hne [R ->]]]]]]]]]]].
  rewrite Hs by reflexivity.
  apply id_match_at_intro; auto.
Qed.

(** A match of [@id(\d+)] holds a match of [ID(\d+)] behind the at sign. *)
Lemma mention_holds_plain c s digits len :
  id_match_at pattern_mention (c :: s) = Some (digits, len) ->
  id_match_at pattern_plain s = Some (digits, (len - 1)%nat).
Proof.
  intros E.
  destruct (id_match_at_inv _ _ E)
    as [lit [seps [rest [Es [L [S [_ [Hs [Fd [Hne [R ->]]]]]]]]]]].
  rewrite Hs in * by reflexivity.
  change (ip_literal pattern_mention) with [64; 105; 100]%N in *.
  destruct lit as [|a [|b [|d [|e lit]]]]; try discriminate.
  simpl in S. rewrite !andb_true_iff in S. destruct S as [_ [Sb [Sd _]]].
  apply unit_matches_ci_spec in Sb, Sd.
  injection Es as _ ->.
  replace (List.length [a; b; d] + List.length (@nil N) + List.length digits - 1)%nat
    with (List.length [b; d] + List.length (@nil N) + List.length digits)%nat
    by (simpl; lia).
  apply (@id_match_at_intro pattern_plain [b; d] [] digits rest); auto.
  change (ip_literal pattern_plain) with [73; 68]%N. simpl.
  rewrite !andb_true_iff. split; [|split; auto]; apply unit_matches_ci_spec; lia.
Qed.

Lemma plain_in_labelled s digits :
  In digits (matches_anywhere pattern_plain s) ->
  In digits (matches_anywhere pattern_labelled s).
Proof.
  induction s as [|c s IH]; simpl; auto.
  destruct (id_match_at pattern_plain (c :: s)) as [[ds len]|] eqn:E.
  - rewrite (plain_is_labelled _ E). intros [<- | Hin]; [now left | right; auto].
  - intros Hin. apply IH in Hin.
    destruct (id_match_at pattern_labelled (c :: s)) as [[ds len]|]; auto.
    now right.
Qed.

Lemma mention_in_plain s digits :
  In digits (matches_anywhere pattern_mention s) ->
  In digits (matches_anywhere pattern_plain s).
Proof.
  induction s as [|c s IH]; simpl; auto.
  destruct (id_match_at pattern_mention (c :: s)) as [[ds len]|] eqn:E.
  - intros [<- | Hin].
    + apply mention_holds_plain in E.
      apply (@matches_anywhere_later pattern_plain c).
      eapply matches_anywhere_here; eauto.
    + apply (@matches_anywhere_later pattern_plain c). auto.
  - intros Hin. apply (@matches_anywhere_later pattern_plain c). auto.
Qed.

Lemma text_matches_labelled text id :
  In id (text_matches text) <-> In id (match_all pattern_labelled 0 text).
Proof.
  split.
  - unfold text_matches, idPatterns. simpl. rewrite !in_app_iff.
    intros [Hin | [Hin | [Hin | []]]];
      apply filter_In in Hin as [Hin _]; auto;
      rewrite match_all_is_anywhere in * by (simpl; auto).
    + now apply plain_in_labelled.
    + now apply plain_in_labelled, mention_in_plain.
  - intros Hin. unfold text_matches, idPatterns. simpl.
    apply in_or_app. left. apply filter_In. split; auto.
    destruct (match_all_captures _ _ _ _ Hin) as [Hne _].
    destruct id; [contradiction | reflexivity].
Qed.

(** X9.  The patterns [ID(\d+)] and [@id(\d+)] add nothing: the
    identifiers of a page are those that the first pattern,
    [ID\s*[:\s]*(\d+)], finds in the user elements and in the body. *)
Theorem page_ids_first_pattern (elements : list jsstring) (pageText id : jsstring) :
  In id (page_ids elements pageText) <->
  In id (flat_map (fun t => match_all pattern_labelled 0 t) elements
         ++ match_all pattern_labelled 0 pageText).
Proof.
  unfold page_ids, JsSet.to_array.
  rewrite JsSet_of_array_In, page_matches_In, in_app_iff, in_flat_map.
  rewrite text_matches_labelled.
  split; intros [[t [Ht Hin]] | Hin]; auto; left; exists t; split; auto;
    now apply text_matches_labelled.
Qed.

(** ** The keys and names read off the anchors *)

Lemma take_not_quote_spec s :
  s = fst (take_not_quote s) ++ snd (take_not_quote s)
  /\ Forall (fun c => c <> quote) (fst (take_not_quote s)).
Proof.
  induction s as [|c s [E F]]; simpl; auto.
  destruct (N.eqb_spec c quote) as [Hq|Hq]; simpl; auto.
  destruct (take_not_quote s) as [run rest]. simpl in *.
  split; [now f_equal | now constructor].
Qed.

Lemma take_not_quote_run run : forall rest,
  Forall (fun c => c <> quote) run ->
  take_not_quote (run ++ quote :: rest) = (run, quote :: rest).
Proof.
  induction run as [|c run IH]; intros rest F; simpl.
  - reflexivity.
  - inversion F; subst.
    destruct (N.eqb_spec c quote) as [Hq|Hq]; [contradiction|].
    now rewrite IH.
Qed.

Lemma match_quoted_unfold pre post s :
  match_quoted pre post s =
  match match_at pre post s with
  | Some run => Some run
  | None => match s with
            | [] => None
            | _ :: s' => match_quoted pre post s'
            end
  end.
Proof. destruct s; reflexivity. Qed.

(** What is captured is never empty and holds no quote. *)
Lemma match_quoted_some pre post s run :
  match_quoted pre post s = Some run ->
  run <> [] /\ Forall (fun c => c <> quote) run.
Proof.
  induction s as [|c s IH]; rewrite match_quoted_unfold; unfold match_at.
  - destruct (starts_with pre []); [|discriminate].
    pose proof (take_not_quote_spec (skipn (List.length pre) [])) as [_ F].
    destruct (take_not_quote _) as [r rest]. simpl in F.
    destruct (truthy r && starts_with post rest) eqn:T; [|discriminate].
    intros E. injection E as <-. split; auto.
    intros ->. discriminate.
  - destruct (starts_with pre (c :: s)); [|exact IH].
    pose proof (take_not_quote_spec (skipn (List.length pre) (c :: s))) as [_ F].
    destruct (take_not_quote _) as [r rest]. simpl fst in F.
    destruct (truthy r && starts_with post rest) eqn:T; [|exact IH].
    intros E. injection E as <-. split; auto.
    intros ->. discriminate.
Qed.

Lemma match_at_here pre post key tail :
  key <> [] ->
  Forall (fun c => c <> quote) key ->
  starts_with post (quote :: tail) = true ->
  match_at pre post (pre ++ key ++ quote :: tail) = Some key.
Proof.
  intros Hne Fk Hpost. unfold match_at.
  replace (starts_with pre (pre ++ key ++ quote :: tail)) with true
    by (symmetry; apply starts_with_spec; eauto).
  rewrite skipn_app, skipn_all, Nat.sub_diag. cbn [skipn app].
  rewrite (take_not_quote_run tail Fk), Hpost.
  destruct key; [contradiction | reflexivity].
Qed.

(** The handler [... open-call ' key ' ...]: behind a text without a
    quote, the first quoted argument of the call is what is captured. *)
Lemma match_quoted_found body post before key tail :
  Forall (fun c => c <> quote) body ->
  Forall (fun c => c <> quote) before ->
  key <> [] ->
  Forall (fun c => c <> quote) key ->
  starts_with post (quote :: tail) = true ->
  match_quoted (body ++ [quote]) post
               (before ++ (body ++ [quote]) ++ key ++ quote :: tail)
  = Some key.
Proof.
  intros Fb Fp Hne Fk Hpost.
  induction Fp as [|c before Hc Fp IH]; rewrite match_quoted_unfold.
  - rewrite app_nil_l. now rewrite match_at_here.
  - assert (Hno : match_at (body ++ [quote]) post
                    ((c :: before) ++ (body ++ [quote]) ++ key ++ quote :: tail)
                  = None).
    { unfold match_at.
      destruct (starts_with (body ++ [quote]) _) eqn:S; [|reflexivity].
      exfalso. apply starts_with_spec in S as [r S].
      assert (T1 := take_not_quote_run r Fb).
      assert (T2 : take_not_quote
                     (((c :: before) ++ body) ++ quote :: key ++ quote :: tail)
                   = ((c :: before) ++ body, quote :: key ++ quote :: tail)).
      { apply take_not_quote_run. apply Forall_app. split; auto. }
      rewrite <- !app_assoc in S. simpl app in S at 3 6.
      rewrite <- !app_assoc in T2. simpl app in T2 at 3.
      rewrite S in T2. simpl app in T2 at 1. rewrite T1 in T2.
      injection T2 as T2 _.
      apply (f_equal (@List.length N)) in T2. simpl in T2.
      rewrite length_app in T2. lia. }
    rewrite Hno. simpl app. exact IH.
Qed.

(** X10.  The key of a community is the first quoted argument of
    [change_group_with_channel] in the inline handler of its anchor. *)
Theorem group_key_of_handler (a : GroupAnchor) (before key after : jsstring)
        (Hhandler : ga_onclick a
                    = Some (before ++ js "change_group_with_channel('"
                                   ++ key ++ js "'" ++ after))
        (Hbefore : Forall (fun c => c <> quote) before)
        (Hkey : key <> [])
        (Hplain : Forall (fun c => c <> quote) key) :
  group_key a = key.
Proof.
  unfold group_key. rewrite Hhandler.
  assert (Ho : opt_or (Some (before ++ js "change_group_with_channel('"
                                    ++ key ++ js "'" ++ after)) []
               = before ++ (js "change_group_with_channel(" ++ [quote])
                        ++ key ++ quote :: after).
  { unfold opt_or, or_else.
    destruct (truthy _) eqn:T; [reflexivity|].
    destruct before; [discriminate | discriminate]. }
  rewrite Ho.
  change (js "change_group_with_channel('")
    with (js "change_group_with_channel(" ++ [quote]).
  rewrite (@match_quoted_found (js "change_group_with_channel(") (js "'")
             before key after); auto.
  - destruct key; [contradiction | reflexivity].
  - vm_compute. repeat constructor; discriminate.
Qed.

Lemma group_key_of_handler_witness :
  group_key (anchor_of "62871" "Alpha") = js "62871".
Proof.
  apply (@group_key_of_handler (anchor_of "62871" "Alpha")
           (js "smm.") (js "62871") (js ", 'VK')")).
  - reflexivity.
  - vm_compute. repeat constructor; discriminate.
  - discriminate.
  - vm_compute. repeat constructor; discriminate.
Defined.

(** X11.  The address of a list is the quoted argument of [nav] in the
    inline handler of its anchor. *)
Theorem list_href_of_handler (a : ListAnchor) (before href after : jsstring)
        (Hhandler : la_onclick a
                    = Some (before ++ js "nav('" ++ href ++ js "')" ++ after))
        (Hbefore : Forall (fun c => c <> quote) before)
        (Hhref : href <> [])
        (Hplain : Forall (fun c => c <> quote) href) :
  list_href a = href.
Proof.
  unfold list_href. rewrite Hhandler.
  assert (Ho : opt_or (Some (before ++ js "nav('" ++ href ++ js "')" ++ after)) []
               = before ++ (js "nav(" ++ [quote])
                        ++ href ++ quote :: 41%N :: after).
  { unfold opt_or, or_else.
    destruct (truthy _) eqn:T; [reflexivity|].
    destruct before; [discriminate | discriminate]. }
  rewrite Ho.
  change (js "nav('") with (js "nav(" ++ [quote]).
  rewrite (@match_quoted_found (js "nav(") (js "')")
             before href (41%N :: after)); auto.
  - destruct href; [contradiction | reflexivity].
  - vm_compute. repeat constructor; discriminate.
Qed.

Lemma list_href_of_handler_witness :
  list_href (list_anchor "Отказ" "/contacts/lists/1/6") = js "/contacts/lists/1/6".
Proof.
  apply (@list_href_of_handler (list_anchor "Отказ" "/contacts/lists/1/6")
           [] (js "/contacts/lists/1/6") []).
  - reflexivity.
  - constructor.
  - discriminate.
  - vm_compute. repeat constructor; discriminate.
Defined.

(** X12.  Every community that is enumerated has a key that is not empty
    and holds no quote, and so a label [g.name || g.id] that is not
    empty. *)
Theorem enumerated_groups_wellformed (anchors : list GroupAnchor) :
  Forall (fun g => g_id g <> []
                   /\ Forall (fun c => c <> quote) (g_id g)
                   /\ or_else (g_name g) (g_id g) <> [])
         (enumerate_groups anchors).
Proof.
  rewrite enumerate_groups_first_by. apply Forall_forall. intros g Hin.
  apply first_by_incl, in_map_iff in Hin as [a [<- Hin]].
  apply filter_In in Hin as [_ Hk]. unfold has_group_key in Hk.
  cbn [g_id g_name group_item].
  assert (Hne : group_key a <> []) by (intros E; rewrite E in Hk; discriminate).
  split; [exact Hne|]. split.
  - unfold group_key in *.
    destruct (match_quoted _ _ _) as [run|] eqn:M; [|now elim Hne].
    destruct (match_quoted_some _ _ _ M) as [_ F].
    unfold opt_or, or_else. destruct (truthy run); auto.
  - unfold or_else. destruct (truthy (group_name a)) eqn:T; auto.
    intros E. rewrite E in T. discriminate.
Qed.

Lemma text_lines_trimmed text l :
  In l (text_lines text) -> l <> [] /\ trim l = l.
Proof.
  unfold text_lines. intros Hin. apply filter_In in Hin as [Hin T].
  apply in_map_iff in Hin as [x [<- _]]. split; [|apply trim_idem].
  intros E. rewrite E in T. discriminate.
Qed.

(** X13.  The name taken from the text of a card is one of its non-blank
    lines, trimmed, and it is a line that begins with [#] only when every
    such line does; a text without a non-blank line gives the empty name. *)
Theorem pick_group_name_plain (text : jsstring) :
  (In (pick_group_name text) (text_lines text)
   \/ (text_lines text = [] /\ pick_group_name text = []))
  /\ (starts_hash (pick_group_name text) = true ->
      Forall (fun l => starts_hash l = true) (text_lines text)).
Proof.
  unfold pick_group_name.
  destruct (find (fun s => negb (starts_hash s)) (text_lines text)) as [l|] eqn:F.
  - apply find_some in F as [Hin Hl].
    destruct (text_lines_trimmed _ _ Hin) as [Hne Ht].
    assert (E : trim (opt_or (Some l) (opt_or (hd_error (text_lines text)) [])) = l).
    { unfold opt_or at 1. unfold or_else.
      destruct l; [contradiction|]. exact Ht. }
    rewrite E. split; [now left|].
    intros Hh. rewrite Hh in Hl. discriminate.
  - assert (Hall : Forall (fun l => starts_hash l = true) (text_lines text)).
    { apply Forall_forall. intros l Hin.
      pose proof (find_none _ _ F l Hin) as N. now apply negb_false_iff in N. }
    split; [|auto].
    unfold opt_or at 1.
    destruct (text_lines text) as [|l0 rest] eqn:L.
    + right. split; reflexivity.
    + left. cbn [hd_error opt_or].
      assert (Hin : In l0 (text_lines text)) by (rewrite L; now left).
      destruct (text_lines_trimmed _ _ Hin) as [Hne Ht].
      unfold or_else. destruct l0; [contradiction|].
      cbn [truthy]. rewrite Ht. now left.
Qed.

(** ** The lists of a community *)

Section ListTargets.
Context {RT : Runtime}.

Lemma get_truthy_grows k k' seen :
  JsObject.get_truthy k (JsObject.set_true k' seen) = false ->
  JsObject.get_truthy k seen = false.
Proof.
  unfold JsObject.get_truthy, JsObject.set_true.
  destruct (str_eqb k' (js "__proto__")); auto.
  destruct (existsb (str_eqb k') seen); auto.
  rewrite existsb_app, !orb_false_iff. tauto.
Qed.

Lemma get_truthy_set k seen :
  JsObject.get_truthy k seen = false ->
  JsObject.get_truthy k (JsObject.set_true k seen) = true.
Proof.
  unfold JsObject.get_truthy, JsObject.set_true. intros E.
  apply orb_false_iff in E as [E1 E2].
  destruct (str_eqb k (js "__proto__")) eqn:Pr.
  - apply str_eqb_spec in Pr. subst k. discriminate.
  - rewrite E1, existsb_app, E1. simpl. now rewrite str_eqb_refl.
Qed.

(** The lists that are kept have pairwise different keys, whatever the
    names are. *)
Lemma dedupe_lists_keys items : forall seen,
  NoDup (map list_dedupe_key (dedupe_lists seen items))
  /\ forall it, In it (dedupe_lists seen items) ->
                JsObject.get_truthy (list_dedupe_key it) seen = false.
Proof.
  induction items as [|a items IH]; intros seen; simpl.
  - split; [constructor | contradiction].
  - destruct (JsObject.get_truthy (list_dedupe_key a) seen) eqn:G; [apply IH|].
    destruct (IH (JsObject.set_true (list_dedupe_key a) seen)) as [N Hout].
    split.
    + simpl. constructor; auto.
      intros Hin. apply in_map_iff in Hin as [it [Ek Hin]].
      specialize (Hout it Hin). rewrite Ek in Hout.
      rewrite get_truthy_set in Hout by assumption. discriminate.
    + intros it [<- | Hin]; auto.
      eapply get_truthy_grows. eauto.
Qed.

Lemma find_by_name (l : list ListItem) : forall t,
  NoDup (map list_dedupe_key l) -> In t l ->
  find (fun x => str_eqb (l_name x) (l_name t)) l = Some t.
Proof.
  induction l as [|a l IH]; intros t N Hin; [contradiction|].
  inversion N as [|k ks Hk N']; subst. simpl.
  destruct (str_eqb (l_name a) (l_name t)) eqn:E.
  - destruct Hin as [-> | Hin]; auto.
    apply str_eqb_spec in E. elim Hk.
    apply in_map_iff. exists t. split; auto.
    unfold list_dedupe_key. now rewrite E.
  - destruct Hin as [-> | Hin]; [now rewrite str_eqb_refl in E|].
    now apply IH.
Qed.

Lemma target_lists_incl listFilters allLists t :
  In t (target_lists listFilters allLists) -> In t allLists.
Proof.
  rewrite target_lists_cases. cbv zeta.
  destruct (filter _ allLists) as [|x r] eqn:F; auto.
  rewrite <- F. intros Hin. now apply filter_In in Hin.
Qed.

(** X14.  In parseListsMode the link of a target list is always found,
    and it is the target itself: the branch that skips a list whose link
    is missing is never taken. *)
Theorem list_target_found (anchors : list ListAnchor)
        (listFilters : option (list jsstring)) (t : ListItem)
        (Htarget : In t (target_lists listFilters (enumerate_lists anchors))) :
  find (fun l => str_eqb (l_name l) (l_name t)) (enumerate_lists anchors)
  = Some t.
Proof.
  apply find_by_name.
  - apply dedupe_lists_keys.
  - eapply target_lists_incl; eauto.
Qed.

(** X15.  Of the default keywords, [клик по офферу] and [клик по оффер]
    select nothing that [клик] does not select. *)
Theorem default_keywords_redundant (l : ListItem) :
  list_matches defaultKeywords l
  = list_matches (map js ["в работе"; "отказ"; "одобрен"; "клик"]%string) l.
Proof.
  unfold list_matches, defaultKeywords.
  set (low := toLowerCase (l_name l)). cbn [map existsb].
  assert (Sub : forall rest,
             includes low (js "клик" ++ rest) = true ->
             includes low (js "клик") = true).
  { intros rest Hi. apply includes_spec in Hi as [a [b E]].
    apply includes_spec. exists a, (rest ++ b). rewrite E.
    now rewrite <- !app_assoc. }
  destruct (includes low (js "клик по офферу")) eqn:K1.
  { rewrite (Sub (js " по офферу") K1). cbn [orb]. now rewrite !orb_true_r. }
  destruct (includes low (js "клик по оффер")) eqn:K2.
  { rewrite (Sub (js " по оффер") K2). cbn [orb]. now rewrite !orb_true_r. }
  reflexivity.
Qed.

End ListTargets.

Lemma list_target_found_witness :
  find (fun l => str_eqb (l_name l) (js "Отказ"))
       (@enumerate_lists example_runtime (s_listAnchors three_lists))
  = Some (list_named "Отказ" (js "/contacts/lists/1/6")).
Proof.
  apply (@list_target_found example_runtime (s_listAnchors three_lists)
           (Some [js "отказ"]) (list_named "Отказ" (js "/contacts/lists/1/6"))).
  vm_compute. left. reflexivity.
Defined.

(** ** Time spent waiting *)

Section Durations.
Context {W : Type} (H : Host W) (P : Parser) (Hopen : page_open P = true).
Local Open Scope Z_scope.

(** The poller's loop ends within one tick of its deadline; it says yes
    only before the deadline and no only from the deadline on. *)
Lemma wait_loop_time fuel : forall maxWaitMs start allow minStable requireMin ps s o s',
  wait_loop H P fuel maxWaitMs start allow minStable requireMin ps s = (o, s') ->
  now s <= now s'
  /\ now s' - start < Z.max (maxWaitMs + 500) (now s - start + 1)
  /\ (o = Ret true -> now s' - start < maxWaitMs)
  /\ (o = Ret false -> maxWaitMs <= now s' - start).
Proof.
  induction fuel as [|fuel IH];
    intros maxWaitMs start allow minStable requireMin ps s o s' E.
  - simpl in E. unfold out_of_fuel in E. injection E as <- <-.
    repeat split; try lia; discriminate.
  - rewrite (wait_loop_unfold H P Hopen) in E.
    destruct (Z.ltb_spec (now s - start) maxWaitMs) as [Hlt|Hge].
    + destruct (sample_caught H P Hopen allow minStable requireMin ps s)
        as [r [s1 [evs1 [E1 [_ [_ N1]]]]]].
      rewrite E1 in E. destruct (fst r).
      * injection E as <- <-. rewrite N1.
        repeat split; try lia; discriminate.
      * apply IH in E. cbn [now slept] in E. rewrite N1 in E.
        destruct E as [A [B [C D]]]. repeat split; auto; lia.
    + injection E as <- <-. repeat split; try lia; discriminate.
Qed.

Lemma waitForAnyUsers_time fuel maxWaitMs opts s o s' :
  waitForAnyUsers H P fuel maxWaitMs opts s = (o, s') ->
  now s <= now s'
  /\ (o = Ret true -> now s' - now s < maxWaitMs)
  /\ (o = Ret false ->
      Z.max maxWaitMs 0 <= now s' - now s < Z.max maxWaitMs 0 + 500)
  /\ now s' - now s < Z.max maxWaitMs 0 + 500.
Proof.
  unfold waitForAnyUsers.
  set (minStable := nullish _ 2000). set (allow := nullish _ true).
  set (requireMin := nullish _ 1).
  unfold bind at 1. unfold date_now at 1. unfold bind at 1. unfold date_now at 1.
  unfold bind at 1.
  destruct (wait_loop H P fuel maxWaitMs (now s) allow minStable requireMin _ s)
    as [o1 s1] eqn:E1.
  apply wait_loop_time in E1 as [A [B [C D]]].
  destruct o1 as [ok| |]; unfold bind, emit, ret; intros E;
    injection E as <- <-; cbn [now].
  - split; [exact A|]. split; [|split; [|lia]]; intros Hok; injection Hok as ->.
    + now apply C.
    + specialize (D eq_refl). lia.
  - split; [exact A|]. split; [discriminate|]. split; [discriminate | lia].
  - split; [exact A|]. split; [discriminate|]. split; [discriminate | lia].
Qed.

(** The wait for the next button: the same, with a bound that may be
    NaN, in which case no round is made. *)
Lemma next_button_loop_time fuel : forall timeoutMs start s o s',
  next_button_loop H P fuel timeoutMs start s = (o, s') ->
  now s <= now s'
  /\ match timeoutMs with
     | Some t => now s' - start < Z.max (t + 500) (now s - start + 1)
     | None => now s' = now s
     end
  /\ match o with
     | Ret (Some _) => lt_num (now s' - start) timeoutMs = true
     | Ret None => lt_num (now s' - start) timeoutMs = false
     | _ => True
     end.
Proof.
  induction fuel as [|fuel IH]; intros timeoutMs start s o s' E.
  - simpl in E. unfold out_of_fuel in E. injection E as <- <-.
    split; [lia|]. split; [destruct timeoutMs; lia | exact I].
  - rewrite (next_button_loop_unfold H P Hopen) in E.
    destruct (lt_num (now s - start) timeoutMs) eqn:Hlt.
    + cbv zeta in E.
      destruct (negb (Nat.eqb (fst (h_count H SelNextEnabled (world s))) 0)).
      * injection E as <- <-. cbn [now observed].
        split; [lia|]. split; [|exact Hlt].
        destruct timeoutMs; [lia | reflexivity].
      * apply IH in E. cbn [now slept observed] in E.
        destruct E as [A [B C]]. split; [lia|]. split; [|exact C].
        destruct timeoutMs as [t|]; [|discriminate].
        simpl in Hlt. apply Z.ltb_lt in Hlt. lia.
    + injection E as <- <-. split; [lia|]. split; [|exact Hlt].
      destruct timeoutMs; [lia | reflexivity].
Qed.

Lemma waitForNextPageButton_time fuel timeoutMs s o s' :
  waitForNextPageButton H P fuel timeoutMs s = (o, s') ->
  now s <= now s'
  /\ match o, timeoutMs with
     | Ret (Some _), Some t => now s' - now s < t
     | Ret (Some _), None => False
     | Ret None, Some t =>
         Z.max t 0 <= now s' - now s < Z.max t 0 + 500
     | Ret None, None => now s' = now s
     | _, _ => True
     end.
Proof.
  unfold waitForNextPageButton. rewrite Hopen.
  unfold bind at 1. unfold date_now at 1. intros E.
  apply next_button_loop_time in E as [A [B C]].
  split; [exact A|].
  destruct o as [[loc|]| |]; auto; destruct timeoutMs as [t|]; simpl in C;
    try discriminate; auto.
  - now apply Z.ltb_lt in C.
  - apply Z.ltb_ge in C. lia.
Qed.

End Durations.

(** X16.  A call of waitForAnyUsers that answers yes returns before
    maxWaitMs has passed; one that answers no returns when maxWaitMs has
    passed and less than one tick of 500 ms later; with a bound that is
    zero or negative it answers no at once. *)
Theorem poller_duration
        {W : Type} (H : Host W) (P : Parser) (Hopen : page_open P = true)
        (fuel : nat) (maxWaitMs : Z) (opts : option WaitOpts)
        (s s' : St W) (ok : bool)
        (Hrun : waitForAnyUsers H P fuel maxWaitMs opts s = (Ret ok, s')) :
  if ok then (0 <= now s' - now s < maxWaitMs)%Z
  else (Z.max maxWaitMs 0 <= now s' - now s < Z.max maxWaitMs 0 + 500)%Z.
Proof.
  destruct (waitForAnyUsers_time H P Hopen _ _ _ _ Hrun) as [A [B [C _]]].
  destruct ok.
  - specialize (B eq_refl). lia.
  - exact (C eq_refl).
Qed.

Lemma poller_duration_witness :
  let s' := snd (waitForAnyUsers timeline_host default_parser 20 2000
                   (Some three_tick_opts)
                   (timeline_start 0 [] (frame_count 0))) in
  (Z.max 2000 0 <= now s' - 0 < Z.max 2000 0 + 500)%Z.
Proof.
  intros s'.
  apply (@poller_duration Timeline timeline_host default_parser eq_refl
           20%nat 2000%Z (Some three_tick_opts)
           (timeline_start 0 [] (frame_count 0)) s' false).
  vm_compute. reflexivity.
Defined.

(** X17.  A call of waitForNextPageButton that returns a button returns
    before its timeout has passed; one that returns null returns when the
    timeout has passed and less than 500 ms later; with a timeout that is
    NaN it returns null at once and never a button. *)
Theorem next_button_duration
        {W : Type} (H : Host W) (P : Parser) (Hopen : page_open P = true)
        (fuel : nat) (timeoutMs : option Z) (s s' : St W)
        (found : option selector)
        (Hrun : waitForNextPageButton H P fuel timeoutMs s = (Ret found, s')) :
  match found, timeoutMs with
  | Some _, Some t => (0 <= now s' - now s < t)%Z
  | Some _, None => False
  | None, Some t => (Z.max t 0 <= now s' - now s < Z.max t 0 + 500)%Z
  | None, None => now s' = now s
  end.
Proof.
  destruct (waitForNextPageButton_time H P Hopen _ _ _ Hrun) as [A B].
  destruct found as [loc|], timeoutMs as [t|]; auto. lia.
Qed.

Lemma next_button_duration_witness :
  let s' := snd (waitForNextPageButton timeline_host default_parser 20
                   (Some 4000%Z)
                   (timeline_start 0 [] (frame_next Disabled))) in
  (Z.max 4000 0 <= now s' - 0 < Z.max 4000 0 + 500)%Z.
Proof.
  intros s'.
  apply (@next_button_duration Timeline timeline_host default_parser eq_refl
           20%nat (Some 4000%Z)
           (timeline_start 0 [] (frame_next Disabled)) s' None).
  vm_compute. reflexivity.
Defined.

(** X18.  With the shortcut allowed, as it is by default, a pagination
    region that is on the page at the first look makes waitForAnyUsers
    answer yes at once: no identifier is extracted and no time passes. *)
Theorem pagination_shortcut
        {W : Type} (H : Host W) (P : Parser) (Hopen : page_open P = true)
        (fuel : nat) (maxWaitMs : Z) (opts : option WaitOpts)
        (s : St W) (w : W)
        (Hallow : match opts with
                  | Some o => allowPaginationShortcut o
                  | None => None
                  end <> Some false)
        (Hwait : (0 < maxWaitMs)%Z)
        (Hthere : h_query H SelPagination (world s) = (Some true, w)) :
  waitForAnyUsers H P (S fuel) maxWaitMs opts s
  = (Ret true,
     {| world := w; now := now s; userIds := userIds s; files := files s;
        trace := trace s ++ [EvQuery SelPagination (Some true);
                             EvReadiness true] |}).
Proof.
  unfold waitForAnyUsers.
  assert (Ha : nullish match opts with
                       | Some o => allowPaginationShortcut o
                       | None => None
                       end true = true).
  { destruct (match opts with Some o => allowPaginationShortcut o | None => None end)
      as [[|]|]; auto; now elim Hallow. }
  rewrite Ha. cbn [wait_loop].
  cbv [bind date_now try_catch sample query on_page host emit ret].
  rewrite Hopen. cbn [now world userIds files trace].
  replace (now s - now s <? maxWaitMs)%Z with true
    by (symmetry; apply Z.ltb_lt; lia).
  rewrite Hthere. cbn [fst snd now world userIds files trace].
  now rewrite <- app_assoc.
Qed.

Lemma pagination_shortcut_witness :
  fst (waitForAnyUsers timeline_host default_parser 1 20000 None
         (timeline_start 0 [] (frame_next Absent)))
  = Ret true.
Proof.
  rewrite (@pagination_shortcut Timeline timeline_host default_parser eq_refl
             0%nat 20000%Z None (timeline_start 0 [] (frame_next Absent))
             {| tl_time := 0; tl_frames := []; tl_rest := frame_next Absent |});
    [reflexivity | discriminate | lia | reflexivity].
Defined.

(** ** What a traversal collects, and how long it takes *)

Section TraversalRuns.
Context {W : Type} (H : Host W) (P : Parser) (Hopen : page_open P = true).
Local Open Scope Z_scope.

Local Notation "m ;;; k" := (bind m (fun _ => k))
  (at level 61, right associativity).

(** The pause after a click lasts 6000 ms and what [Math.random] adds. *)
Lemma advanced_now loc (s : St W) :
  exists w, now (advanced H P loc s)
            = now s + (fst (h_randomBelow H (8000 - 6000 + 1) w) + 6000).
Proof.
  unfold advanced.
  cbv [bind host click waitForLoadState_caught on_page delay timer emit ret].
  rewrite Hopen. cbv beta iota. cbn [world now userIds files trace].
  destruct (h_click H loc (h_scroll H loc (world s))) as [ok w2].
  cbv beta iota. cbn [world now userIds files trace].
  destruct (h_loadState H w2) as [st w3].
  cbv beta iota. cbn [world now userIds files trace].
  exists w3.
  destruct (h_randomBelow H (8000 - 6000 + 1) w3) as [k w4].
  cbv beta iota. cbn [world now userIds files trace snd fst slept]. reflexivity.
Qed.

Lemma loadState_now (s : St W) :
  exists s1, waitForLoadState_caught H P s = (Ret tt, s1)
             /\ steady s s1 [] /\ now s1 = now s.
Proof.
  unfold waitForLoadState_caught, on_page, bind, host, ret. rewrite Hopen.
  destruct (h_loadState H (world s)) as [ok w]. eexists. split; [reflexivity|].
  unfold steady. simpl. now rewrite app_nil_r.
Qed.

(** A run of the loop: the accumulator gains exactly what the rounds
    extract and stays free of duplicates; the loop throws only when an
    extraction does, and right then; and each advance costs 6000 ms at
    least. *)
Lemma collect_loop_run fuel : forall currentPage s,
  exists o s' evs,
    collect_loop H P fuel currentPage s = (o, s')
    /\ trace s' = trace s ++ evs
    /\ readiness_results evs = []
    /\ (NoDup (userIds s) -> NoDup (userIds s'))
    /\ (forall id, In id (userIds s') <->
                   In id (userIds s) \/ In id (extracted evs))
    /\ (o = Throw -> exists evs0, evs = evs0 ++ [EvExtract None])
    /\ (fuel <> 0%nat -> max_pages P < currentPage ->
        o = Ret tt /\ evs = [] /\ s' = s)
    /\ ((forall n w, 0 <= fst (h_randomBelow H n w)) ->
        now s <= now s'
        /\ 6000 * (Z.of_nat (pages_processed evs) - 1) <= now s' - now s).
Proof.
  induction fuel as [|fuel IH]; intros currentPage s.
  - exists OutOfFuel, s, []. split; [reflexivity|].
    rewrite app_nil_r. split; [reflexivity|]. split; [reflexivity|].
    split; [auto|]. split; [simpl; tauto|]. split; [discriminate|].
    split; [intros C; now elim C|].
    intros _. change (pages_processed []) with 0%nat. lia.
  - rewrite (collect_loop_unfold H P Hopen).
    destruct (Z.leb_spec currentPage (max_pages P)) as [Hle|Hgt].
    + rewrite (extractUserIds_run H P Hopen). cbn [world observed].
      destruct (h_extract H (world s)) as [[raw|] w1].
      * set (ids := JsSet.of_array raw).
        set (s1 := observed (EvExtract (Some ids)) w1 _).
        destruct (waitForNextPageButton_spec H P Hopen fuel (NEXT_ENABLE_WAIT_MS P)
                    (merged ids s1))
          as [o2 [s2 [evs2 [E2 [[T2 [U2 F2]] [I2 Ho2]]]]]].
        rewrite E2.
        destruct (waitForNextPageButton_time H P Hopen _ _ _ E2) as [N2 _].
        cbn [now merged] in N2. subst s1. cbn [now observed] in N2.
        destruct (idle_quiet I2) as [Q1 [Q2 [_ Q4]]].
        assert (Hu2 : userIds s2 = JsSet.add_all ids (userIds s))
          by (rewrite U2; reflexivity).
        assert (Ht2 : trace s2
                      = trace s ++ [EvLog (LogPage currentPage); EvExtract (Some ids);
                                    EvLog (LogFound (List.length ids))] ++ evs2).
        { rewrite T2. simpl. now rewrite <- !app_assoc. }
        destruct o2 as [[loc|]| |].
        { destruct (advanced_run H P Hopen loc s2) as [_ [evs3 [[T3 [U3 F3]] I3]]].
          destruct (idle_quiet I3) as [R1 [R2 [_ R4]]].
          destruct (advanced_now loc s2) as [w5 N3].
          destruct (IH (currentPage + 1) (advanced H P loc s2))
            as [o [s' [evs [E [T [Rd [Nd [Ids [Th [_ Tm]]]]]]]]]].
          exists o, s',
            ([EvLog (LogPage currentPage); EvExtract (Some ids);
              EvLog (LogFound (List.length ids))] ++ evs2 ++ evs3 ++ evs).
          split; [exact E|]. split.
          { rewrite T, T3, Ht2. now rewrite <- !app_assoc. }
          split.
          { rewrite !readiness_results_app, Q4, R4, Rd. reflexivity. }
          split.
          { intros N. apply Nd. rewrite U3, Hu2.
            now apply JsSet_add_all_NoDup. }
          split.
          { intros id. rewrite Ids, U3, Hu2, JsSet_add_all_In_iff.
            rewrite !extracted_app, Q2, R2. cbn [extracted flat_map app].
            rewrite !in_app_iff. cbn [In]. tauto. }
          split.
          { intros Ho. destruct (Th Ho) as [evs0 ->].
            exists ([EvLog (LogPage currentPage); EvExtract (Some ids);
                     EvLog (LogFound (List.length ids))] ++ evs2 ++ evs3 ++ evs0).
            now rewrite <- !app_assoc. }
          split; [intros _ C; lia|].
          intros Hr. destruct (Tm Hr) as [A B].
          specialize (Hr (8000 - 6000 + 1) w5).
          rewrite !pages_processed_app, Q1, R1.
          change (pages_processed [_; _; _]) with 1%nat. lia. }
        { exists (Ret tt), (observed (EvLog LogNoNextButton) (world s2) s2),
            ([EvLog (LogPage currentPage); EvExtract (Some ids);
              EvLog (LogFound (List.length ids))]
               ++ evs2 ++ [EvLog LogNoNextButton]).
          split; [reflexivity|]. split.
          { cbn [trace observed]. rewrite Ht2. now rewrite <- !app_assoc. }
          split.
          { rewrite !readiness_results_app, Q4. reflexivity. }
          split.
          { intros N. cbn [userIds observed]. rewrite Hu2.
            now apply JsSet_add_all_NoDup. }
          split.
          { intros id. cbn [userIds observed].
            rewrite Hu2, JsSet_add_all_In_iff, !extracted_app, Q2.
            cbn [extracted flat_map app]. rewrite !in_app_iff. cbn [In]. tauto. }
          split; [discriminate|]. split; [intros _ C; lia|].
          intros _. cbn [now observed].
          rewrite !pages_processed_app, Q1.
          change (pages_processed [_; _; _]) with 1%nat.
          change (pages_processed [_]) with 0%nat. lia. }
        { contradiction. }
        { exists OutOfFuel, s2,
            ([EvLog (LogPage currentPage); EvExtract (Some ids);
              EvLog (LogFound (List.length ids))] ++ evs2).
          split; [reflexivity|]. split; [exact Ht2|].
          split.
          { rewrite !readiness_results_app, Q4. reflexivity. }
          split.
          { intros N. rewrite Hu2. now apply JsSet_add_all_NoDup. }
          split.
          { intros id.
            rewrite Hu2, JsSet_add_all_In_iff, !extracted_app, Q2.
            cbn [extracted flat_map app]. rewrite !in_app_iff. cbn [In]. tauto. }
          split; [discriminate|]. split; [intros _ C; lia|].
          intros _. rewrite !pages_processed_app, Q1.
          change (pages_processed [_; _; _]) with 1%nat. lia. }
      * exists Throw, (observed (EvExtract None) w1
                        (observed (EvLog (LogPage currentPage)) (world s) s)),
          [EvLog (LogPage currentPage); EvExtract None].
        split; [reflexivity|]. split; [simpl; now rewrite <- app_assoc|].
        split; [reflexivity|]. split; [auto|].
        split; [simpl; tauto|].
        split; [intros _; now exists [EvLog (LogPage currentPage)]|].
        split; [intros _ C; lia|].
        intros _. cbn [now observed].
        change (pages_processed [_; _]) with 1%nat. lia.
    + exists (Ret tt), s, []. split; [reflexivity|].
      rewrite app_nil_r. split; [reflexivity|]. split; [reflexivity|].
      split; [auto|]. split; [simpl; tauto|]. split; [discriminate|].
      split; [auto|].
      intros _. change (pages_processed []) with 0%nat. lia.
Qed.

Lemma collectAllContactIds_run fuel (s : St W) :
  exists o s' evs,
    collectAllContactIds H P fuel s = (o, s')
    /\ trace s' = trace s ++ evs
    /\ (forall ids, o = Ret ids -> ids = userIds s')
    /\ NoDup (userIds s')
    /\ (o <> OutOfFuel ->
        exists waiting ok collecting,
          evs = waiting ++ [EvReadiness ok] ++ collecting
          /\ readiness_results waiting = []
          /\ readiness_results collecting = []
          /\ pages_processed waiting = 0%nat
          /\ (forall id, In id (userIds s') <-> In id (extracted collecting))
          /\ (o = Throw -> exists evs0, collecting = evs0 ++ [EvExtract None]))
    /\ (max_pages P < 1 -> (poll_fuel 20000 <= fuel)%nat ->
        o = Ret [] /\ pages_processed evs = 0%nat)
    /\ ((forall n w, 0 <= fst (h_randomBelow H n w)) ->
        6000 * (Z.of_nat (pages_processed evs) - 1) <= now s' - now s).
Proof.
  unfold collectAllContactIds. rewrite Hopen.
  unfold bind at 1. unfold set_userIds at 1.
  set (s0 := {| world := world s; now := now s; userIds := JsSet.empty;
                files := files s; trace := trace s |}).
  unfold bind at 1.
  destruct (loadState_now s0) as [s1 [E1 [[T1 [U1 F1]] N1]]]. rewrite E1.
  rewrite app_nil_r in T1.
  unfold bind at 1.
  destruct (waitForAnyUsers_spec H P Hopen fuel 20000 None s1)
    as [o2 [s2 [evs2 [E2 [Pr2 Ho2]]]]].
  rewrite E2.
  destruct (waitForAnyUsers_time H P Hopen _ _ _ _ E2) as [N2 _].
  destruct (probes_quiet Pr2) as [Pp [Pr _]].
  destruct o2 as [ok| |]; [| contradiction |].
  - destruct Ho2 as [T2 [U2 F2]].
    assert (exists s3 evs3,
               (if ok then ret tt
                else emit (EvLog LogNotLoadedYet) ;;; waitForTimeout H P 1500) s2
               = (Ret tt, s3)
               /\ steady s2 s3 evs3 /\ Forall (fun e => is_idle e = true) evs3
               /\ now s2 <= now s3)
      as [s3 [evs3 [E3 [[T3 [U3 F3]] [I3 N3]]]]].
    { destruct ok.
      - exists s2, []. split; [reflexivity|]. split; [apply steady_refl|].
        split; [constructor | lia].
      - unfold bind, emit, waitForTimeout, on_page, timer. rewrite Hopen.
        eexists. exists [EvLog LogNotLoadedYet; EvSleep 1500].
        split; [reflexivity|]. unfold steady, slept. simpl.
        rewrite <- app_assoc. split; [auto|]. split; [repeat constructor | lia]. }
    unfold bind at 1. rewrite E3. unfold bind at 1.
    destruct (collect_loop_run fuel 1 s3)
      as [o4 [s4 [evs4 [E4 [T4 [Rd4 [Nd4 [Ids4 [Th4 [Em4 Tm4]]]]]]]]]].
    rewrite E4.
    destruct (idle_quiet I3) as [Q1 [Q2 [_ Q4]]].
    assert (Hu3 : userIds s3 = []).
    { rewrite U3, U2, U1. reflexivity. }
    assert (Ht : trace s4 = trace s ++ evs2 ++ [EvReadiness ok] ++ evs3 ++ evs4).
    { rewrite T4, T3, T2, T1. subst s0. simpl. now rewrite <- !app_assoc. }
    assert (Hn : NoDup (userIds s4)).
    { apply Nd4. rewrite Hu3. constructor. }
    assert (Hi : forall id, In id (userIds s4) <-> In id (extracted (evs3 ++ evs4))).
    { intros id. rewrite Ids4, Hu3, extracted_app, Q2. simpl. tauto. }
    assert (Hr : readiness_results (evs3 ++ evs4) = []).
    { now rewrite readiness_results_app, Q4, Rd4. }
    assert (Hth : o4 = Throw -> exists evs0, evs3 ++ evs4 = evs0 ++ [EvExtract None]).
    { intros Ho. destruct (Th4 Ho) as [evs0 ->]. exists (evs3 ++ evs0).
      now rewrite app_assoc. }
    assert (Hsplit :
               exists waiting ok0 collecting,
                 evs2 ++ [EvReadiness ok] ++ evs3 ++ evs4
                 = waiting ++ [EvReadiness ok0] ++ collecting
                 /\ readiness_results waiting = []
                 /\ readiness_results collecting = []
                 /\ pages_processed waiting = 0%nat
                 /\ (forall id, In id (userIds s4) <-> In id (extracted collecting))
                 /\ (o4 = Throw -> exists evs0, collecting = evs0 ++ [EvExtract None])).
    { exists evs2, ok, (evs3 ++ evs4).
      split; [reflexivity|]. split; [exact Pr|]. split; [exact Hr|].
      split; [exact Pp|]. split; [exact Hi | exact Hth]. }
    assert (Htime : (forall n w, 0 <= fst (h_randomBelow H n w)) ->
              6000 * (Z.of_nat (pages_processed
                                  (evs2 ++ [EvReadiness ok] ++ evs3 ++ evs4)) - 1)
              <= now s4 - now s).
    { intros Hrand. destruct (Tm4 Hrand) as [A B].
      rewrite !pages_processed_app, Pp, Q1.
      change (pages_processed [_]) with 0%nat.
      replace (now s) with (now s1) by (rewrite N1; reflexivity).
      simpl Nat.add. lia. }
    assert (Hneg : max_pages P < 1 -> (poll_fuel 20000 <= fuel)%nat ->
              o4 = Ret tt /\ userIds s4 = []
              /\ pages_processed (evs2 ++ [EvReadiness ok] ++ evs3 ++ evs4) = 0%nat).
    { intros Hm Hf.
      assert (Hf0 : fuel <> 0%nat) by (unfold poll_fuel in Hf; lia).
      destruct (Em4 Hf0 Hm) as [-> [-> ->]].
      split; [reflexivity|]. split; [exact Hu3|].
      rewrite !pages_processed_app, Pp, Q1. reflexivity. }
    destruct o4 as [[]| |].
    + exists (Ret (JsSet.to_array (userIds s4))), s4,
        (evs2 ++ [EvReadiness ok] ++ evs3 ++ evs4).
      split; [reflexivity|]. split; [exact Ht|].
      split; [intros ids E; now injection E as <-|].
      split; [exact Hn|].
      split.
      { intros _. destruct Hsplit as [wt [ok0 [cl [A [B [C [D [F _]]]]]]]].
        exists wt, ok0, cl. repeat split; auto; try apply F. discriminate. }
      split; [|exact Htime].
      intros Hm Hf. destruct (Hneg Hm Hf) as [_ [Hu Hp]].
      unfold JsSet.to_array. rewrite Hu. auto.
    + exists Throw, s4, (evs2 ++ [EvReadiness ok] ++ evs3 ++ evs4).
      split; [reflexivity|]. split; [exact Ht|].
      split; [discriminate|]. split; [exact Hn|].
      split.
      { intros _. destruct Hsplit as [wt [ok0 [cl [A [B [C [D [F G]]]]]]]].
        exists wt, ok0, cl. repeat split; auto; try apply F. }
      split; [|exact Htime].
      intros Hm Hf. destruct (Hneg Hm Hf) as [C _]. discriminate.
    + exists OutOfFuel, s4, (evs2 ++ [EvReadiness ok] ++ evs3 ++ evs4).
      split; [reflexivity|]. split; [exact Ht|].
      split; [discriminate|]. split; [exact Hn|].
      split; [intros C; now elim C|].
      split; [|exact Htime].
      intros Hm Hf. destruct (Hneg Hm Hf) as [C _]. discriminate.
  - destruct Ho2 as [[T2 [U2 F2]] Hlow].
    exists OutOfFuel, s2, evs2. split; [reflexivity|].
    split; [rewrite T2, T1; subst s0; reflexivity|].
    split; [discriminate|].
    split; [rewrite U2, U1; constructor|].
    split; [intros C; now elim C|].
    split; [intros _ Hf; lia|].
    intros _. rewrite Pp. rewrite N1 in N2. subst s0. cbn [now] in N2. lia.
Qed.

End TraversalRuns.

(** X19.  extractUserIds returns each match of the page once, in the
    order of first occurrence, and throws when the evaluation in the page
    rejects. *)
Theorem extractUserIds_each_once
        {W : Type} (H : Host W) (P : Parser) (Hopen : page_open P = true)
        (s : St W) :
  match fst (h_extract H (world s)) with
  | Some raw =>
      fst (extractUserIds H P s) = Ret (first_by (fun k => k) raw)
      /\ NoDup (first_by (fun k => k) raw)
      /\ (forall id, In id (first_by (fun k => k) raw) <-> In id raw)
  | None => fst (extractUserIds H P s) = Throw
  end.
Proof.
  rewrite (extractUserIds_run H P Hopen).
  destruct (h_extract H (world s)) as [[raw|] w]; [|reflexivity].
  cbn [fst]. rewrite JsSet_of_array_first_by. split; [reflexivity|].
  rewrite <- JsSet_of_array_first_by.
  split; [apply JsSet_of_array_NoDup | apply JsSet_of_array_In].
Qed.

Lemma extractUserIds_each_once_witness :
  fst (extractUserIds site_host default_parser
         {| world := {| s_groups := [(js "A", [[js "7"; js "8"; js "7"]])];
                        s_anchors := []; s_listAnchors := [];
                        s_current := js "A"; s_page := 0 |};
            now := 0; userIds := []; files := []; trace := [] |})
  = Ret [js "7"; js "8"].
Proof.
  exact (proj1 (@extractUserIds_each_once Site site_host default_parser eq_refl
                  {| world := {| s_groups := [(js "A", [[js "7"; js "8"; js "7"]])];
                                 s_anchors := []; s_listAnchors := [];
                                 s_current := js "A"; s_page := 0 |};
                     now := 0; userIds := []; files := []; trace := [] |})).
Defined.

(** X20.  Merging a page into the accumulator adds what is new, each
    identifier once, and merging the same page again changes nothing. *)
Theorem accumulator_merge_idempotent (pageIds : list jsstring) (u : JsSet.t) :
  JsSet.add_all pageIds (JsSet.add_all pageIds u) = JsSet.add_all pageIds u
  /\ (forall id, In id (JsSet.add_all pageIds u) <-> In id u \/ In id pageIds)
  /\ (NoDup u -> NoDup (JsSet.add_all pageIds u)).
Proof.
  split; [|split].
  - apply JsSet_add_all_absorb. intros x Hx.
    apply JsSet_add_all_In_iff. now right.
  - apply JsSet_add_all_In_iff.
  - apply JsSet_add_all_NoDup.
Qed.

(** X21.  What collectAllContactIds returns has no duplicate, and it is
    exactly what was extracted after the readiness wait returned: what the
    poller saw while waiting is not part of the result. *)
Theorem traversal_result_exact
        {W : Type} (H : Host W) (P : Parser) (Hopen : page_open P = true)
        (fuel : nat) (s s' : St W) (ids : list jsstring)
        (Hrun : collectAllContactIds H P fuel s = (Ret ids, s')) :
  NoDup ids
  /\ exists waiting ok collecting,
       trace s' = trace s ++ waiting ++ [EvReadiness ok] ++ collecting
       /\ readiness_results waiting = []
       /\ readiness_results collecting = []
       /\ (forall id, In id ids <-> In id (extracted collecting)).
Proof.
  destruct (collectAllContactIds_run H P Hopen fuel s)
    as [o [s1 [evs [E [T [R [N [Sp _]]]]]]]].
  rewrite Hrun in E. injection E as <- <-.
  rewrite (R ids eq_refl). split; [exact N|].
  destruct (Sp ltac:(discriminate))
    as [waiting [ok [collecting [-> [R1 [R2 [_ [Hi _]]]]]]]].
  exists waiting, ok, collecting. auto.
Qed.

Lemma traversal_result_exact_witness :
  NoDup [js "1"; js "2"; js "3"].
Proof.
  destruct (collectAllContactIds site_host default_parser 30
              (site_start two_communities)) as [o s'] eqn:E.
  assert (Ho : o = Ret [js "1"; js "2"; js "3"]).
  { revert E. vm_compute. intros E. now injection E as <- _. }
  subst o.
  exact (proj1 (@traversal_result_exact Site site_host default_parser eq_refl
                  30%nat (site_start two_communities) s' _ E)).
Defined.

(** X22.  collectAllContactIds throws only when an extraction in its loop
    rejects, and it throws right then: a click that fails, a page that
    never settles or a button that never comes do not make it throw. *)
Theorem traversal_throws_at_extraction
        {W : Type} (H : Host W) (P : Parser) (Hopen : page_open P = true)
        (fuel : nat) (s s' : St W)
        (Hrun : collectAllContactIds H P fuel s = (Throw, s')) :
  exists before, trace s' = trace s ++ before ++ [EvExtract None].
Proof.
  destruct (collectAllContactIds_run H P Hopen fuel s)
    as [o [s1 [evs [E [T [_ [_ [Sp _]]]]]]]].
  rewrite Hrun in E. injection E as <- <-.
  destruct (Sp ltac:(discriminate))
    as [waiting [ok [collecting [-> [_ [_ [_ [_ Th]]]]]]]].
  destruct (Th eq_refl) as [evs0 ->].
  exists (waiting ++ [EvReadiness ok] ++ evs0).
  rewrite T. now rewrite <- !app_assoc.
Qed.

Lemma traversal_throws_at_extraction_witness :
  exists before,
    trace (snd (collectAllContactIds timeline_host default_parser 50
                  (timeline_start 0 [] frame_throws)))
    = [] ++ before ++ [EvExtract None].
Proof.
  apply (@traversal_throws_at_extraction Timeline timeline_host default_parser
           eq_refl 50%nat (timeline_start 0 [] frame_throws)).
  vm_compute. reflexivity.
Defined.

(** X23.  A traversal is paced: when [Math.random] yields no negative
    number, a traversal that has processed k pages has lasted
    6000 (k - 1) ms at least. *)
Theorem traversal_pacing
        {W : Type} (H : Host W) (P : Parser) (Hopen : page_open P = true)
        (Hrandom : forall n w, (0 <= fst (h_randomBelow H n w))%Z)
        (fuel : nat) (s : St W) :
  exists o s' evs,
    collectAllContactIds H P fuel s = (o, s')
    /\ trace s' = trace s ++ evs
    /\ (6000 * (Z.of_nat (pages_processed evs) - 1) <= now s' - now s)%Z.
Proof.
  destruct (collectAllContactIds_run H P Hopen fuel s)
    as [o [s1 [evs [E [T [_ [_ [_ [_ Tm]]]]]]]]].
  exists o, s1, evs. auto.
Qed.

Lemma traversal_pacing_witness :
  exists o s' evs,
    collectAllContactIds site_host default_parser 30 (site_start two_communities)
    = (o, s')
    /\ trace s' = trace (site_start two_communities) ++ evs
    /\ (6000 * (Z.of_nat (pages_processed evs) - 1)
        <= now s' - now (site_start two_communities))%Z.
Proof.
  apply (@traversal_pacing Site site_host default_parser eq_refl).
  intros n w. simpl. lia.
Defined.

Example traversal_pacing_example :
  let s' := snd (collectAllContactIds site_host default_parser 30
                   (site_start two_communities)) in
  pages_processed (trace s') = 2%nat /\ now s' = 10000%Z.
Proof. split; vm_compute; reflexivity. Qed.

(** X24.  A negative maxPages is not replaced by the default: the loop
    of the traversal is never entered, no page is processed, and the
    result is empty whatever the page shows. *)
Theorem negative_ceiling_reads_no_page
        {W : Type} (H : Host W) (P : Parser) (Hopen : page_open P = true)
        (m : Z) (Hm : maxPages (config P) = Some m) (Hneg : (m < 0)%Z)
        (fuel : nat) (Hfuel : (poll_fuel 20000 <= fuel)%nat) (s : St W) :
  exists s' evs,
    collectAllContactIds H P fuel s = (Ret [], s')
    /\ trace s' = trace s ++ evs
    /\ pages_processed evs = 0%nat.
Proof.
  destruct (collectAllContactIds_run H P Hopen fuel s)
    as [o [s1 [evs [E [T [_ [_ [_ [Ng _]]]]]]]]].
  assert (Hmax : (max_pages P < 1)%Z).
  { unfold max_pages. rewrite Hm.
    destruct (Z.eqb_spec m 0); lia. }
  destruct (Ng Hmax Hfuel) as [-> Pg].
  exists s1, evs. auto.
Qed.

Lemma negative_ceiling_reads_no_page_witness :
  exists s' evs,
    collectAllContactIds site_host
      {| config := {| maxPages := Some (-1)%Z; outputFile := None;
                      listFilters := None; waitAfterSwitchMs := None |};
         page_open := true; communityData := None;
         NEXT_ENABLE_WAIT_MS := Some 4000%Z |}
      42 (site_start two_communities)
    = (Ret [], s')
    /\ trace s' = trace (site_start two_communities) ++ evs
    /\ pages_processed evs = 0%nat.
Proof.
  apply (@negative_ceiling_reads_no_page Site site_host
           {| config := {| maxPages := Some (-1)%Z; outputFile := None;
                           listFilters := None; waitAfterSwitchMs := None |};
              page_open := true; communityData := None;
              NEXT_ENABLE_WAIT_MS := Some 4000%Z |}
           eq_refl (-1)%Z eq_refl).
  - lia.
  - vm_compute. lia.
Defined.

(** ** The files of identifiers *)

Section IdsFiles.
Context {RT : Runtime} {W : Type} (H : Host W) (P : Parser)
        (Hopen : page_open P = true).
Local Open Scope Z_scope.





End IdsFiles.


Example writeIdsFile_lines_example :
  exists path s',
    @writeIdsFile example_runtime Site site_host default_parser
      [js "7"; js "8"; js "7"] (js "list_Отказ") (site_start three_lists)
    = (Ret path, s')
    /\ path = js "bothunter_ids_06112025225301_list_Отказ_ab12cd.txt"
    /\ read_file (files s') path = Some (js "7" ++ newline ++ js "8").
Proof. do 2 eexists. split; [|split]; vm_compute; reflexivity. Qed.



(** ** One file per target list *)

Section ListsLoop.
Context {RT : Runtime} {W : Type} (H : Host W) (P : Parser)
        (Hopen : page_open P = true).
Local Open Scope Z_scope.



End ListsLoop.



(** ** Opening the drop-down of the bots *)

Section Select2Runs.
Context {W : Type} (H : Host W) (S2 : Select2Host W) (P : Parser)
        (Hopen : page_open P = true).
Local Open Scope Z_scope.

Lemma select2_attempts_run n : forall s,
  exists o s' k,
    select2_attempts H S2 P n s = (o, s')
    /\ (k <= n)%nat
    /\ trace s' = trace s ++ List.concat (repeat [EvSleep 80; EvSleep 150] k)
    /\ now s' = now s + 230 * Z.of_nat k
    /\ userIds s' = userIds s /\ files s' = files s
    /\ o <> OutOfFuel
    /\ (o = Ret false -> k = n)
    /\ (o = Ret true -> (k < n)%nat).
Proof.
  induction n as [|n IH]; intros s.
  - exists (Ret false), s, 0%nat. simpl. rewrite app_nil_r.
    repeat split; auto; try lia; discriminate.
  - cbn [select2_attempts]. unfold bind at 1. unfold host at 1.
    destruct (s2_isOpen S2 (world s)) as [[[|]|] w].
    + eexists (Ret true), _, 0%nat. split; [reflexivity|]. simpl.
      rewrite app_nil_r. repeat split; auto; try lia; discriminate.
    + cbv [bind host waitForTimeout on_page timer]. rewrite Hopen.
      cbv beta iota.
      match goal with
      | |- context [select2_attempts H S2 P n ?st] =>
          destruct (IH st) as [o [s' [k [E [Hk [T [N [U [F [Ho [Hf Ht]]]]]]]]]]]
      end.
      exists o, s', (S k). split; [exact E|]. split; [lia|].
      split.
      { rewrite T. cbn [trace slept repeat List.concat]. now rewrite <- !app_assoc. }
      split.
      { rewrite N. cbn [now slept]. lia. }
      split; [rewrite U; reflexivity|]. split; [rewrite F; reflexivity|].
      split; [exact Ho|].
      split; [intros E0; now rewrite (Hf E0) | intros E0; specialize (Ht E0); lia].
    + eexists Throw, _, 0%nat. split; [reflexivity|]. simpl.
      rewrite app_nil_r. repeat split; auto; try lia; discriminate.
Qed.

End Select2Runs.

(** X28.  ensureSelect2Open looks at the drop-down at most maxAttempts
    times before its last check, with a click, a pause of 80 ms, a key
    press and a pause of 150 ms after each look that finds it closed; so
    it lasts 230 ms per attempt, it ends by returning or by throwing, and
    it leaves the accumulator and the files alone. *)
Theorem ensureSelect2Open_bounded
        {W : Type} (H : Host W) (S2 : Select2Host W) (P : Parser)
        (Hopen : page_open P = true) (maxAttempts : Z) (s : St W) :
  exists o s' attempts,
    ensureSelect2Open H S2 P maxAttempts s = (o, s')
    /\ (attempts <= Z.to_nat maxAttempts)%nat
    /\ trace s' = trace s ++ List.concat (repeat [EvSleep 80; EvSleep 150] attempts)
    /\ now s' = (now s + 230 * Z.of_nat attempts)%Z
    /\ userIds s' = userIds s /\ files s' = files s
    /\ (o = Ret tt \/ o = Throw).
Proof.
  unfold ensureSelect2Open. rewrite Hopen. unfold bind at 1.
  destruct (select2_attempts_run H S2 P Hopen (Z.to_nat maxAttempts) s)
    as [o [s1 [k [E [Hk [T [N [U [F [Ho _]]]]]]]]]].
  rewrite E. destruct o as [[|]| |].
  - exists (Ret tt), s1, k. repeat split; auto.
  - unfold bind, host.
    destruct (s2_finallyOpen S2 (world s1)) as [[[|]|] w];
      eexists; eexists; exists k; (split; [reflexivity|]);
      cbn [trace now userIds files]; repeat split; auto.
  - exists Throw, s1, k. repeat split; auto.
  - now elim Ho.
Qed.

Lemma ensureSelect2Open_bounded_witness :
  exists o s' attempts,
    ensureSelect2Open timeline_host select2_third_look default_parser 5
                      (timeline_start 0 [] (frame_count 0))
    = (o, s')
    /\ (attempts <= Z.to_nat 5)%nat
    /\ trace s' = trace (timeline_start 0 [] (frame_count 0))
                  ++ List.concat (repeat [EvSleep 80; EvSleep 150] attempts)
    /\ now s' = (now (timeline_start 0 [] (frame_count 0))
                 + 230 * Z.of_nat attempts)%Z
    /\ userIds s' = userIds (timeline_start 0 [] (frame_count 0))
    /\ files s' = files (timeline_start 0 [] (frame_count 0))
    /\ (o = Ret tt \/ o = Throw).
Proof.
  apply (@ensureSelect2Open_bounded Timeline timeline_host select2_third_look
           default_parser eq_refl).
Defined.

Example ensureSelect2Open_third_look :
  let r := ensureSelect2Open timeline_host select2_third_look default_parser 5
             (timeline_start 0 [] (frame_count 0)) in
  fst r = Ret tt /\ now (snd r) = 460%Z.
Proof. split; vm_compute; reflexivity. Qed.

(** ** How long the retries take *)

Section RetryDuration.
Context {W : Type} (H : Host W) (P : Parser) (Hopen : page_open P = true).
Local Open Scope Z_scope.

Lemma retry_loop_time fuel :
  forall attempt retries waitMs waitOpts postReadyDelayMs s o s',
    0 <= nullish postReadyDelayMs 500 ->
    retry_loop H P fuel attempt retries waitMs waitOpts postReadyDelayMs s
    = (o, s') ->
    let n := Z.of_nat (Z.to_nat (retries - attempt + 1)) in
    now s <= now s'
    /\ now s' - now s
       <= n * (650 + Z.max waitMs 0) + nullish postReadyDelayMs 500
    /\ (o = Ret false -> n * (150 + Z.max waitMs 0) <= now s' - now s).
Proof.
  induction fuel as [|fuel IH];
    intros attempt retries waitMs waitOpts postReadyDelayMs s o s' Hpost E n.
  - simpl in E. unfold out_of_fuel in E. injection E as <- <-.
    split; [lia|]. split; [nia | discriminate].
  - rewrite retry_loop_unfold in E.
    destruct (Z.leb_spec attempt retries) as [Hle|Hgt].
    + assert (Hn : 1 <= n) by (unfold n; lia).
      revert E.
      cbv [bind on_page host emit click waitForTimeout timer
           waitForLoadState_caught ret throw].
      rewrite Hopen. cbv beta iota. cbn [world now userIds files trace].
      destruct (h_waitVisible H SelShow (world s)) as [[|] w1];
        cbv beta iota; cbn [negb world now userIds files trace].
      2: { intros E. injection E as <- <-. cbn [now].
           split; [lia|]. split; [nia | discriminate]. }
      destruct (h_click H SelShow w1) as [[|] w2];
        cbv beta iota; cbn [negb world now userIds files trace].
      2: { intros E. injection E as <- <-. cbn [now].
           split; [lia|]. split; [nia | discriminate]. }
      cbn [slept world now userIds files trace].
      destruct (h_loadState H (h_timer H 150 w2)) as [st w3].
      cbv beta iota. cbn [world now userIds files trace].
      match goal with
      | |- context [waitForAnyUsers H P fuel waitMs waitOpts ?st] =>
          destruct (waitForAnyUsers H P fuel waitMs waitOpts st)
            as [o2 s2] eqn:E2
      end.
      apply (waitForAnyUsers_time H P Hopen) in E2.
      cbn [now] in E2. destruct E2 as [A [B [C D]]].
      destruct o2 as [[|]| |].
      * intros E. injection E as <- <-. cbn [slept now].
        specialize (B eq_refl).
        split; [lia|]. split; [nia | discriminate].
      * intros E. apply IH in E; [|exact Hpost]. cbv zeta in E.
        cbn [now] in E. specialize (C eq_refl).
        replace (Z.of_nat (Z.to_nat (retries - (attempt + 1) + 1)))
          with (n - 1) in E by (unfold n; lia).
        destruct E as [E1 [E2 E3]].
        split; [lia|]. split; [nia|].
        intros Ho. specialize (E3 Ho). nia.
      * intros E. injection E as <- <-.
        split; [lia|]. split; [nia | discriminate].
      * intros E. injection E as <- <-.
        split; [lia|]. split; [nia | discriminate].
    + unfold ret in E. injection E as <- <-.
      replace n with 0 by (unfold n; lia).
      split; [lia|]. split; [lia|]. intros _. lia.
Qed.

End RetryDuration.

(** X29.  clickShowAndWaitWithRetries lasts no longer than its attempts
    allow: with n retries, at most n (650 + waitMs) ms and the pause
    after readiness; and it gives up only after n (150 + waitMs) ms. *)
Theorem retry_controller_duration
        {W : Type} (H : Host W) (P : Parser) (Hopen : page_open P = true)
        (fuel : nat) (retries waitMs : Z)
        (waitOpts : option WaitOpts) (postReadyDelayMs : option Z)
        (Hretries : (0 <= retries)%Z)
        (Hpost : (0 <= nullish postReadyDelayMs 500)%Z)
        (s s' : St W) (o : outcome bool)
        (Hrun : clickShowAndWaitWithRetries H P fuel (Some retries) (Some waitMs)
                  waitOpts postReadyDelayMs s = (o, s')) :
  (0 <= now s' - now s
        <= retries * (650 + Z.max waitMs 0) + nullish postReadyDelayMs 500)%Z
  /\ (o = Ret false -> (retries * (150 + Z.max waitMs 0) <= now s' - now s)%Z).
Proof.
  unfold clickShowAndWaitWithRetries in Hrun. cbn [nullish] in Hrun.
  apply (retry_loop_time H P Hopen) in Hrun; [|exact Hpost].
  cbv zeta in Hrun.
  replace (Z.of_nat (Z.to_nat (retries - 1 + 1))) with retries in Hrun by lia.
  destruct Hrun as [A [B C]]. split; [lia | exact C].
Qed.

Lemma retry_controller_duration_witness :
  let s' := snd (clickShowAndWaitWithRetries timeline_host default_parser 20
                   (Some 3%Z) (Some 1000%Z) (Some three_tick_opts) None
                   (timeline_start 0 [] (frame_count 0))) in
  (0 <= now s' - 0 <= 3 * (650 + Z.max 1000 0) + 500)%Z
  /\ (Ret false = Ret false -> (3 * (150 + Z.max 1000 0) <= now s' - 0)%Z).
Proof.
  intros s'.
  apply (@retry_controller_duration Timeline timeline_host default_parser eq_refl
           20%nat 3%Z 1000%Z (Some three_tick_opts) None ltac:(lia)
           ltac:(simpl; lia) (timeline_start 0 [] (frame_count 0)) s'
           (Ret false)).
  vm_compute. reflexivity.
Defined.

(** X30.  delay(min, max) sleeps min ms at least and max ms at most, in
    one timer, when [Math.random] is in its range. *)
Theorem delay_within
        {W : Type} (H : Host W) (lo hi : Z) (s : St W)
        (Hrandom : (0 <= fst (h_randomBelow H (hi - lo + 1) (world s))
                    < hi - lo + 1)%Z) :
  exists s',
    delay H lo hi s = (Ret tt, s')
    /\ (lo <= now s' - now s <= hi)%Z
    /\ trace s' = trace s ++ [EvSleep (now s' - now s)]
    /\ userIds s' = userIds s /\ files s' = files s.
Proof.
  unfold delay, bind, host, timer.
  destruct (h_randomBelow H (hi - lo + 1) (world s)) as [k w]. simpl in Hrandom.
  eexists. split; [reflexivity|]. cbn [slept now trace userIds files].
  split; [lia|]. split; [|auto].
  replace (now s + (k + lo) - now s)%Z with (k + lo)%Z by lia. reflexivity.
Qed.

Lemma delay_within_witness :
  exists s',
    delay site_host 6000 8000 (site_start two_communities) = (Ret tt, s')
    /\ (6000 <= now s' - now (site_start two_communities) <= 8000)%Z
    /\ trace s' = trace (site_start two_communities)
                  ++ [EvSleep (now s' - now (site_start two_communities))]
    /\ userIds s' = userIds (site_start two_communities)
    /\ files s' = files (site_start two_communities).
Proof.
  apply (@delay_within Site site_host 6000%Z 8000%Z (site_start two_communities)).
  simpl. lia.
Defined.
